(** * vega-config-tool: the builder-state compiler, decompiler, planner and history

    A shallow embedding of the TypeScript sources

    - [utils/specBuilder]   ([buildSpec], [buildEncodingChannel], [buildTransforms]),
    - [utils/specParser]    ([parseSpecToBuilderState], [parseEncodingChannel]),
    - [utils/fieldInference] ([inferFields], [inferFieldType], [resolveField],
      [levenshteinDistance]),
    - [utils/nlPlanner]     ([parseNLToPlan], [applyPlan], its own [resolveField]),
    - [store/widgetStore]   ([captureSnapshot], [undo], [redo], [setBuilderState]),
    - the [isCustomSpec] expression of the panels,
    - [calculateFieldStats] of the field inference and the handlers of the
      mark, encodings and AI panels ([handleMarkChange],
      [handleEncodingUpdate], [handleApplyCommand], ...),

    followed by the properties of these functions.

    Conventions of the embedding.
    - A JavaScript string is a [string]; the development covers ASCII text:
      [toLowerCase] and [toUpperCase] act on the letters A-Z and a-z, and the
      white space of [trim] and of the regular-expression class [\s] is the
      ASCII white space (tab, line feed, vertical tab, form feed, carriage
      return, space).
    - An optional property ([x?: T]) is an [option]; a property holding
      [undefined] and an absent property are the same [None], as they are for
      [JSON.stringify] and for the renderer.
    - The string-literal unions of [types/index.ts] ([MarkType], [FieldType],
      ...) are inductive types.
    - Numbers are copied verbatim by the modelled code (widths, font sizes,
      [n] of a top-N); they are integers here, exact for the integers that
      a double holds exactly (below [2^53]).  The planner's confidence is
      the one place with arithmetic on fractions: it is a binary64 float,
      computed with the operations of the machine.  *)

From Stdlib Require Import ZArith List String Ascii Bool Lia QArith.
From Stdlib Require Import DecimalString.
From Stdlib Require Import Permutation Qminmax Sorted.
From Stdlib Require Import PrimFloat.
Import ListNotations.

Set Warnings "-register-all".
Set Warnings "-inexact-float".

Open Scope string_scope.
Open Scope list_scope.
Open Scope Z_scope.

(* ================================================================== *)
(** * Part I.  JavaScript primitives                                   *)
(* ================================================================== *)

Module Js.

(** [Array.prototype.slice(start, end)] with its relative (negative)
    indices. *)
Definition relIndex (len k : Z) : Z :=
  if k <? 0 then Z.max (len + k) 0 else Z.min k len.

Definition slice {A} (l : list A) (start stop : Z) : list A :=
  let len := Z.of_nat (List.length l) in
  let from := relIndex len start in
  let to := relIndex len stop in
  firstn (Z.to_nat (to - from)) (skipn (Z.to_nat from) l).

(** [slice(start)]: up to the end of the array. *)
Definition sliceFrom {A} (l : list A) (start : Z) : list A :=
  slice l start (Z.of_nat (List.length l)).

(** [Array.prototype.find]. *)
Definition find {A} (p : A -> bool) (l : list A) : option A := List.find p l.

(** [a ?? b]. *)
Definition nullish {A} (a : option A) (b : option A) : option A :=
  match a with Some _ => a | None => b end.

(** Truthiness of a string: the empty string is falsy. *)
Definition truthyStr (s : string) : bool :=
  match s with EmptyString => false | String _ _ => true end.

(** Truthiness of an optional string property. *)
Definition truthyOptStr (s : option string) : bool :=
  match s with Some t => truthyStr t | None => false end.

(** Truthiness of an optional object property: an object is truthy. *)
Definition isSome {A} (o : option A) : bool :=
  match o with Some _ => true | None => false end.

Definition isUpper (c : ascii) : bool :=
  let n := nat_of_ascii c in (Nat.leb 65 n && Nat.leb n 90)%bool.
Definition isLower (c : ascii) : bool :=
  let n := nat_of_ascii c in (Nat.leb 97 n && Nat.leb n 122)%bool.
Definition isDigit (c : ascii) : bool :=
  let n := nat_of_ascii c in (Nat.leb 48 n && Nat.leb n 57)%bool.
(** [\w]: letters, digits and the underscore. *)
Definition isWord (c : ascii) : bool :=
  (isUpper c || isLower c || isDigit c || Ascii.eqb c "_")%bool.
(** [\s] and the characters removed by [trim]. *)
Definition isSpace (c : ascii) : bool :=
  let n := nat_of_ascii c in
  (Nat.eqb n 32 || (Nat.leb 9 n && Nat.leb n 13))%bool.

Definition lowerChar (c : ascii) : ascii :=
  if isUpper c then ascii_of_nat (nat_of_ascii c + 32) else c.
Definition upperChar (c : ascii) : ascii :=
  if isLower c then ascii_of_nat (nat_of_ascii c - 32) else c.

Fixpoint toLowerCase (s : string) : string :=
  match s with
  | EmptyString => EmptyString
  | String c r => String (lowerChar c) (toLowerCase r)
  end.

Fixpoint toUpperCase (s : string) : string :=
  match s with
  | EmptyString => EmptyString
  | String c r => String (upperChar c) (toUpperCase r)
  end.

Fixpoint trimStart (s : string) : string :=
  match s with
  | EmptyString => EmptyString
  | String c r => if isSpace c then trimStart r else s
  end.

(** [trimEnd]: a character is kept when it is not white space or when
    something is kept after it. *)
Fixpoint trimEnd (s : string) : string :=
  match s with
  | EmptyString => EmptyString
  | String c r =>
      match trimEnd r with
      | EmptyString => if isSpace c then EmptyString else String c EmptyString
      | r' => String c r'
      end
  end.

Definition trim (s : string) : string := trimEnd (trimStart s).

(** [s.startsWith(p)]. *)
Fixpoint startsWith (p s : string) : bool :=
  match p, s with
  | EmptyString, _ => true
  | String a p', String b s' => (Ascii.eqb a b && startsWith p' s')%bool
  | String _ _, EmptyString => false
  end.

(** [s.includes(p)]. *)
Fixpoint includes (s p : string) : bool :=
  (startsWith p s ||
   match s with
   | EmptyString => false
   | String _ r => includes r p
   end)%bool.

(** [fieldNames.includes(x)] on an array of strings. *)
Definition arrayIncludes (l : list string) (x : string) : bool :=
  existsb (String.eqb x) l.

(** Drop the first [n] characters. *)
Fixpoint drop (n : nat) (s : string) : string :=
  match n, s with
  | O, _ => s
  | S _, EmptyString => EmptyString
  | S m, String _ r => drop m r
  end.

End Js.

(** Opaque JSON values: what the code stores or tests without looking inside
    (scale domains, the operands of composition operators, inline data). *)
Inductive Json : Type :=
| JNull
| JBool (b : bool)
| JNum (n : Z)
| JStr (s : string)
| JArr (items : list Json)
| JObj (props : list (string * Json)).

(** JavaScript truthiness of a JSON value. *)
Definition truthy (v : Json) : bool :=
  match v with
  | JNull => false
  | JBool b => b
  | JNum n => negb (n =? 0)
  | JStr s => Js.truthyStr s
  | JArr _ => true
  | JObj _ => true
  end.

(** Truthiness of a property that may be absent. *)
Definition truthyProp (v : option Json) : bool :=
  match v with Some j => truthy j | None => false end.

(* ================================================================== *)
(** * Part II.  The data model ([types/index.ts])                      *)
(* ================================================================== *)

Inductive FieldType := quantitative | nominal | ordinal | temporal.

Record DataField := {
  name : string;
  inferredType : FieldType
}.

(** [AggregateOp], and with it the string ['set_aggregate']
    ([agg_set_aggregate]), which is no aggregate of the type but is what
    [applyPlan] stores in an [aggregate] property. *)
Inductive AggregateOp :=
| agg_sum | agg_mean | agg_median | agg_count | agg_min | agg_max
| agg_distinct | agg_q1 | agg_q3 | agg_variance | agg_stdev
| agg_set_aggregate.

Inductive TimeUnit :=
| tu_year | tu_month | tu_yearmonth | tu_date | tu_hours | tu_day
| tu_yearmonthdate.

Inductive SortOrder := ascending | descending.

(** [sort?: SortOrder | { field: string; order: SortOrder }]. *)
Inductive Sort :=
| SortOrd (order : SortOrder)
| SortBy (field : string) (order : SortOrder).

Record ScaleConfig := {
  domain : option (list Json);
  range : option (list Json);
  scheme : option string;
  reverse : option bool;
  zero : option bool
}.

Record AxisConfig := {
  axis_title : option string;
  axis_format : option string;
  axis_grid : option bool;
  axis_labelAngle : option Z;
  axis_labelFontSize : option Z;
  axis_titleFontSize : option Z
}.

Inductive LegendOrient :=
| orient_left | orient_right | orient_top | orient_bottom | orient_none.

Record LegendConfig := {
  legend_title : option string;
  legend_orient : option LegendOrient;
  legend_labelFontSize : option Z;
  legend_titleFontSize : option Z
}.

(** [bin?: boolean | { maxbins?: number }]. *)
Inductive Bin :=
| BinFlag (b : bool)
| BinParams (maxbins : option Z).

Record EncodingConfig := {
  enc_field : option string;
  enc_type : option FieldType;
  enc_aggregate : option AggregateOp;
  enc_sort : option Sort;
  enc_scale : option ScaleConfig;
  enc_timeUnit : option TimeUnit;
  enc_bin : option Bin;
  enc_axis : option AxisConfig;
  enc_legend : option LegendConfig
}.

(** The empty object [{}] as an [EncodingConfig]. *)
Definition emptyEncoding : EncodingConfig :=
  {| enc_field := None; enc_type := None; enc_aggregate := None;
     enc_sort := None; enc_scale := None; enc_timeUnit := None;
     enc_bin := None; enc_axis := None; enc_legend := None |}.

Inductive MarkType :=
| bar | line | area | point | circle | square | rect | rule | text | tick.

(** [StackMode = 'zero' | 'normalize' | null]: the two strings; [null] and
    an absent property are [None]. *)
Inductive StackMode := stack_zero | stack_normalize.

Inductive Interpolate :=
| ip_linear | ip_step | ip_step_before | ip_step_after | ip_basis
| ip_cardinal | ip_monotone.

Record MarkConfig := {
  mark_type : MarkType;
  mark_point : option bool;
  mark_stacked : option StackMode;
  mark_opacity : option Z;
  mark_size : option Z;
  mark_strokeWidth : option Z;
  mark_interpolate : option Interpolate
}.

(** [ChartTransform]: the union tagged by [kind].  The [as] of a calculate
    transform is declared a string; the decompiler copies [transform.as],
    which may be absent, so it is optional here. *)
Inductive ChartTransform :=
| TransformFilter (expr : string)
| TransformTopN (n : Z) (byField : string) (order : SortOrder)
| TransformCalculate (calculate : string) (as_ : option string)
| TransformAggregate (groupby : option (list string))
    (ops : list AggregateOp) (fields : list string) (as_ : list string).

(** [tooltip?: EncodingConfig[] | 'auto' | 'none']. *)
Inductive Tooltip :=
| TooltipAuto
| TooltipNone
| TooltipList (entries : list EncodingConfig).

Record Encodings := {
  x : option EncodingConfig;
  y : option EncodingConfig;
  color : option EncodingConfig;
  size : option EncodingConfig;
  tooltip : option Tooltip
}.

(** [number | 'container']. *)
Inductive Dimension :=
| DimNumber (n : Z)
| DimContainer.

Inductive Padding :=
| PadNumber (n : Z)
| PadSides (top bottom left right : option Z).

Record BuilderState := {
  mark : MarkConfig;
  encodings : Encodings;
  transforms : list ChartTransform;
  width : option Dimension;
  height : option Dimension;
  title : option string;
  description : option string;
  background : option string;
  padding : option Padding
}.

(** [Partial<BuilderState>]: every property may be absent ([None]).  A
    property that is optional in [BuilderState] may also be present and
    hold [undefined] ([Some None]): an object spread copies it like any
    other own property.  No caller passes [undefined] for one of the three
    required properties. *)
Record PartialBuilderState := {
  p_mark : option MarkConfig;
  p_encodings : option Encodings;
  p_transforms : option (list ChartTransform);
  p_width : option (option Dimension);
  p_height : option (option Dimension);
  p_title : option (option string);
  p_description : option (option string);
  p_background : option (option string);
  p_padding : option (option Padding)
}.

(** Reading a property of such an object: [undefined] when it is absent. *)
Definition readProp {A} (p : option (option A)) : option A :=
  match p with Some v => v | None => None end.

(** A property that is set when, and only when, there is a value for it. *)
Definition setWhenDefined {A} (v : option A) : option (option A) :=
  match v with Some a => Some (Some a) | None => None end.

(** ** The declarative spec

    The part of a Vega-Lite [VisualizationSpec] that the sources read or
    write.  Operands of the composition operators, which the code only tests
    for truthiness, are opaque [Json]. *)

(** A channel definition of [spec.encoding]. *)
Record SpecChannel := {
  ch_field : option string;
  ch_type : option FieldType;
  ch_aggregate : option AggregateOp;
  ch_bin : option Bin;
  ch_timeUnit : option TimeUnit;
  ch_sort : option Sort;
  ch_scale : option ScaleConfig;
  ch_axis : option AxisConfig;
  ch_legend : option LegendConfig;
  ch_stack : option StackMode;
  ch_format : option string
}.

(** [encoding.tooltip]: an array of channel definitions, or one value that
    is not an array. *)
Inductive SpecTooltip :=
| SpecTooltipArray (entries : list SpecChannel)
| SpecTooltipValue (v : SpecChannel).

Record SpecEncoding := {
  se_x : option SpecChannel;
  se_y : option SpecChannel;
  se_color : option SpecChannel;
  se_size : option SpecChannel;
  se_tooltip : option SpecTooltip
}.

Record SpecMarkDef := {
  md_type : MarkType;
  md_tooltip : option bool;
  md_point : option bool;
  md_opacity : option Z;
  md_size : option Z;
  md_strokeWidth : option Z;
  md_interpolate : option Interpolate
}.

(** [spec.mark]: a mark name or a mark definition. *)
Inductive SpecMark :=
| MarkName (t : MarkType)
| MarkDef (d : SpecMarkDef).

(** One entry of a [window] transform and of its [sort]. *)
Record WindowOp := { w_op : string; w_as : string }.
Record SortField := { sf_field : string; sf_order : SortOrder }.
Record AggregateEntry := {
  ae_op : AggregateOp;
  ae_field : option string;
  ae_as : option string
}.

(** One object of [spec.transform], with the properties the sources use. *)
Record SpecTransform := {
  t_filter : option string;
  t_calculate : option string;
  t_as : option string;
  t_window : option (list WindowOp);
  t_sort : option (list SortField);
  t_aggregate : option (list AggregateEntry);
  t_groupby : option (list string)
}.

Definition emptyTransform : SpecTransform :=
  {| t_filter := None; t_calculate := None; t_as := None; t_window := None;
     t_sort := None; t_aggregate := None; t_groupby := None |}.

(** [spec.width]: a number, or something that is not a number (the string
    ['container'], a step object). *)
Inductive SpecDimension :=
| SpecDimNumber (n : Z)
| SpecDimOther (v : Json).

(** [spec.title]: a string or title parameters with a [text]. *)
Inductive SpecTitle :=
| TitleString (s : string)
| TitleParams (titleText : option string).

Record SpecData := {
  data_name : option string;
  data_url : option string;
  data_values : option (list Json)
}.

Record SpecView := {
  continuousWidth : option Z;
  continuousHeight : option Z
}.

Record SpecAxisDefaults := {
  cfg_labelFontSize : option Z;
  cfg_titleFontSize : option Z
}.

Record SpecConfig := {
  cfg_view : option SpecView;
  cfg_axis : option SpecAxisDefaults
}.

Record Spec := {
  s_schema : option string;
  s_width : option SpecDimension;
  s_height : option SpecDimension;
  s_data : option SpecData;
  s_mark : option SpecMark;
  s_encoding : option SpecEncoding;
  s_config : option SpecConfig;
  s_transform : option (list SpecTransform);
  s_title : option SpecTitle;
  s_description : option string;
  s_background : option string;
  s_padding : option Padding;
  s_facet : option Json;
  s_layer : option Json;
  s_hconcat : option Json;
  s_vconcat : option Json;
  s_repeat : option Json
}.

(* ================================================================== *)
(** * Part III.  The compiler ([utils/specBuilder.ts])                 *)
(* ================================================================== *)

(** [String(n)] and [`${n}`] for an integer that a double holds exactly
    (below [2^53]): all its decimal digits.  (Beyond, a double prints the
    shortest digits that identify it, and from [1e21] on in exponent
    form.) *)
Definition numberToString (n : Z) : string :=
  NilZero.string_of_int (Z.to_int n).

(** [buildEncodingChannel(config)].  An aggregate or a time unit is a
    non-empty string and an object is truthy, so those guards test presence;
    [bin] and [sort] are guarded by [!== undefined]. *)
Definition buildEncodingChannel (config : EncodingConfig) : SpecChannel :=
  {| ch_field := enc_field config;
     ch_type := enc_type config;
     ch_aggregate := enc_aggregate config;
     ch_bin := enc_bin config;
     ch_timeUnit := enc_timeUnit config;
     ch_sort := enc_sort config;
     ch_scale := enc_scale config;
     ch_axis :=
       match enc_axis config with
       | Some a =>
           Some {| axis_title := axis_title a;
                   axis_format := axis_format a;
                   axis_grid := axis_grid a;
                   axis_labelAngle := axis_labelAngle a;
                   axis_labelFontSize := axis_labelFontSize a;
                   axis_titleFontSize := axis_titleFontSize a |}
       | None => None
       end;
     ch_legend :=
       match enc_legend config with
       | Some l =>
           Some {| legend_title := legend_title l;
                   legend_orient := legend_orient l;
                   legend_labelFontSize := legend_labelFontSize l;
                   legend_titleFontSize := legend_titleFontSize l |}
       | None => None
       end;
     ch_stack := None;
     ch_format := None |}.

(** The objects pushed by [buildTransforms] for one transform. *)
Definition buildTransform (t : ChartTransform) : list SpecTransform :=
  match t with
  | TransformFilter expr =>
      [ {| t_filter := Some expr; t_calculate := None; t_as := None;
           t_window := None; t_sort := None; t_aggregate := None;
           t_groupby := None |} ]
  | TransformTopN n byField order =>
      [ {| t_filter := None; t_calculate := None; t_as := None;
           t_window := Some [ {| w_op := "rank"; w_as := "__rank__" |} ];
           t_sort := Some [ {| sf_field := byField; sf_order := order |} ];
           t_aggregate := None; t_groupby := None |};
        {| t_filter := Some ("datum.__rank__ <= " ++ numberToString n)%string;
           t_calculate := None; t_as := None; t_window := None;
           t_sort := None; t_aggregate := None; t_groupby := None |} ]
  | TransformCalculate calculate as_ =>
      [ {| t_filter := None; t_calculate := Some calculate; t_as := as_;
           t_window := None; t_sort := None; t_aggregate := None;
           t_groupby := None |} ]
  | TransformAggregate groupby ops fields as_ =>
      [ {| t_filter := None; t_calculate := None; t_as := None;
           t_window := None; t_sort := None;
           t_aggregate :=
             Some (map (fun io : nat * AggregateOp =>
                          {| ae_op := snd io;
                             ae_field := nth_error fields (fst io);
                             ae_as := nth_error as_ (fst io) |})
                       (combine (seq 0 (List.length ops)) ops));
           t_groupby := groupby |} ]
  end.

(** [buildTransforms(transforms)]: the loop pushes in order. *)
Definition buildTransforms (ts : list ChartTransform) : list SpecTransform :=
  flat_map buildTransform ts.

(** [state.encodings.x?.field] is truthy. *)
Definition populated (e : option EncodingConfig) : bool :=
  match e with
  | Some c => Js.truthyOptStr (enc_field c)
  | None => false
  end.

(** [if (state.encodings.x?.field) encoding.x = buildEncodingChannel(...)]. *)
Definition buildChannel (e : option EncodingConfig) : option SpecChannel :=
  match e with
  | Some c => if Js.truthyOptStr (enc_field c)
              then Some (buildEncodingChannel c) else None
  | None => None
  end.

(** The tooltip of [buildSpec]: ['auto'] takes the first six fields, a list
    is mapped entry by entry, anything else leaves the channel out. *)
Definition buildTooltip (t : option Tooltip) (fields : list DataField)
  : option SpecTooltip :=
  match t with
  | Some TooltipAuto =>
      Some (SpecTooltipArray
              (map (fun f =>
                      {| ch_field := Some (name f);
                         ch_type := Some (inferredType f);
                         ch_aggregate := None; ch_bin := None;
                         ch_timeUnit := None; ch_sort := None;
                         ch_scale := None; ch_axis := None; ch_legend := None;
                         ch_stack := None; ch_format := None |})
                   (Js.slice fields 0 6)))
  | Some (TooltipList entries) =>
      Some (SpecTooltipArray
              (map (fun t =>
                      {| ch_field := enc_field t;
                         ch_type := enc_type t;
                         ch_aggregate := enc_aggregate t;
                         ch_bin := None; ch_timeUnit := None; ch_sort := None;
                         ch_scale := None; ch_axis := None; ch_legend := None;
                         ch_stack := None;
                         ch_format :=
                           match enc_axis t with
                           | Some a => axis_format a
                           | None => None
                           end |})
                   entries))
  | Some TooltipNone => None
  | None => None
  end.

Definition isBarOrArea (t : MarkType) : bool :=
  match t with bar | area => true | _ => false end.

Definition isLineOrArea (t : MarkType) : bool :=
  match t with line | area => true | _ => false end.

(** [encoding.y?.type === 'quantitative']. *)
Definition isQuantitative (c : option SpecChannel) : bool :=
  match c with
  | Some ch => match ch_type ch with Some quantitative => true | _ => false end
  | None => false
  end.

Definition withStack (s : StackMode) (c : SpecChannel) : SpecChannel :=
  {| ch_field := ch_field c; ch_type := ch_type c;
     ch_aggregate := ch_aggregate c; ch_bin := ch_bin c;
     ch_timeUnit := ch_timeUnit c; ch_sort := ch_sort c;
     ch_scale := ch_scale c; ch_axis := ch_axis c; ch_legend := ch_legend c;
     ch_stack := Some s; ch_format := ch_format c |}.

(** The last step of [buildSpec]: "Handle stacking for bar/area marks".
    [qChan] is ['y'] when the compiled y channel is quantitative, else
    ['x'] when the compiled x channel is, else [null]. *)
Definition applyStacking (m : MarkConfig) (e : SpecEncoding) : SpecEncoding :=
  match mark_stacked m with
  | Some s =>
      if isBarOrArea (mark_type m) then
        if isQuantitative (se_y e) then
          {| se_x := se_x e; se_y := option_map (withStack s) (se_y e);
             se_color := se_color e; se_size := se_size e;
             se_tooltip := se_tooltip e |}
        else if isQuantitative (se_x e) then
          {| se_x := option_map (withStack s) (se_x e); se_y := se_y e;
             se_color := se_color e; se_size := se_size e;
             se_tooltip := se_tooltip e |}
        else e
      else e
  | None => e
  end.

Definition someIfTruthy (s : option string) : option string :=
  if Js.truthyOptStr s then s else None.

(** [buildSpec(state, fields)]. *)
Definition buildSpec (state : BuilderState) (fields : list DataField) : Spec :=
  let transforms := buildTransforms (transforms state) in
  let encoding :=
    {| se_x := buildChannel (x (encodings state));
       se_y := buildChannel (y (encodings state));
       se_color := buildChannel (color (encodings state));
       se_size := buildChannel (size (encodings state));
       se_tooltip := buildTooltip (tooltip (encodings state)) fields |} in
  let m := mark state in
  let markDef :=
    {| md_type := mark_type m;
       md_tooltip := Some true;
       md_point := mark_point m;
       md_opacity := mark_opacity m;
       md_size := mark_size m;
       md_strokeWidth := mark_strokeWidth m;
       md_interpolate :=
         if isLineOrArea (mark_type m) then mark_interpolate m else None |} in
  {| s_schema := Some "https://vega.github.io/schema/vega-lite/v5.json";
     s_width := match width state with
                | Some (DimNumber n) => Some (SpecDimNumber n)
                | _ => None
                end;
     s_height := match height state with
                 | Some (DimNumber n) => Some (SpecDimNumber n)
                 | _ => None
                 end;
     s_data := Some {| data_name := Some "table"; data_url := None;
                       data_values := None |};
     s_mark := Some (MarkDef markDef);
     s_encoding := Some (applyStacking m encoding);
     s_config :=
       Some {| cfg_view :=
                 Some {| continuousWidth :=
                           match width state with
                           | Some DimContainer => None
                           | _ => Some 400
                           end;
                         continuousHeight :=
                           match height state with
                           | Some DimContainer => None
                           | _ => Some 300
                           end |};
               cfg_axis := Some {| cfg_labelFontSize := Some 11;
                                   cfg_titleFontSize := Some 12 |} |};
     s_transform := match transforms with
                    | [] => None
                    | _ :: _ => Some transforms
                    end;
     s_title := match someIfTruthy (title state) with
                | Some t => Some (TitleString t)
                | None => None
                end;
     s_description := someIfTruthy (description state);
     s_background := someIfTruthy (background state);
     s_padding := padding state;
     s_facet := None; s_layer := None; s_hconcat := None;
     s_vconcat := None; s_repeat := None |}.

(** [getDefaultBuilderState()]. *)
Definition getDefaultBuilderState : BuilderState :=
  {| mark := {| mark_type := bar; mark_point := None; mark_stacked := None;
                mark_opacity := None; mark_size := None;
                mark_strokeWidth := None; mark_interpolate := None |};
     encodings := {| x := None; y := None; color := None; size := None;
                     tooltip := Some TooltipAuto |};
     transforms := [];
     width := Some DimContainer;
     height := Some (DimNumber 360);
     title := None; description := None; background := None;
     padding := None |}.

(* ================================================================== *)
(** * Part IV.  The decompiler ([utils/specParser.ts])                 *)
(* ================================================================== *)

(** [parseEncodingChannel(channel)]. *)
Definition parseEncodingChannel (channel : SpecChannel) : EncodingConfig :=
  {| enc_field := if Js.truthyOptStr (ch_field channel)
                  then ch_field channel else None;
     enc_type := ch_type channel;
     enc_aggregate := ch_aggregate channel;
     enc_sort := ch_sort channel;
     enc_scale :=
       match ch_scale channel with
       | Some sc =>
           Some {| domain := domain sc; range := range sc;
                   scheme := scheme sc; reverse := reverse sc;
                   zero := zero sc |}
       | None => None
       end;
     enc_timeUnit := ch_timeUnit channel;
     enc_bin := ch_bin channel;
     enc_axis :=
       match ch_axis channel with
       | Some a =>
           Some {| axis_title := axis_title a;
                   axis_format := axis_format a;
                   axis_grid := axis_grid a;
                   axis_labelAngle := axis_labelAngle a;
                   axis_labelFontSize := axis_labelFontSize a;
                   axis_titleFontSize := axis_titleFontSize a |}
       | None => None
       end;
     enc_legend :=
       match ch_legend channel with
       | Some l =>
           Some {| legend_title := legend_title l;
                   legend_orient := legend_orient l;
                   legend_labelFontSize := legend_labelFontSize l;
                   legend_titleFontSize := legend_titleFontSize l |}
       | None => None
       end |}.

(** [yEnc?.stack]. *)
Definition stackOf (c : option SpecChannel) : option StackMode :=
  match c with Some ch => ch_stack ch | None => None end.

(** The mark of [parseSpecToBuilderState]: type and point flag from the
    mark, [stacked] from the y channel's stack directive, else the x
    channel's, else [null]. *)
Definition parseMark (spec : Spec) : option MarkConfig :=
  match s_mark spec with
  | Some mk =>
      let markType := match mk with MarkName t => t | MarkDef d => md_type d end in
      let markPoint := match mk with MarkName _ => None | MarkDef d => md_point d end in
      Some {| mark_type := markType;
              mark_point := markPoint;
              mark_stacked :=
                match s_encoding spec with
                | Some enc =>
                    match stackOf (se_y enc) with
                    | Some s => Some s
                    | None => stackOf (se_x enc)
                    end
                | None => None
                end;
              mark_opacity := None; mark_size := None;
              mark_strokeWidth := None; mark_interpolate := None |}
  | None => None
  end.

Definition parseEncodings (spec : Spec) : Encodings :=
  match s_encoding spec with
  | Some encoding =>
      {| x := option_map parseEncodingChannel (se_x encoding);
         y := option_map parseEncodingChannel (se_y encoding);
         color := option_map parseEncodingChannel (se_color encoding);
         size := option_map parseEncodingChannel (se_size encoding);
         tooltip :=
           match se_tooltip encoding with
           | Some (SpecTooltipArray entries) =>
               Some (TooltipList (map parseEncodingChannel entries))
           | Some (SpecTooltipValue _) => Some TooltipAuto
           | None => None
           end |}
  | None =>
      {| x := None; y := None; color := None; size := None; tooltip := None |}
  end.

(** One iteration of the transform loop: a truthy [filter], else a truthy
    [calculate], else nothing (window transforms are not reversed). *)
Definition parseTransform (t : SpecTransform) : list ChartTransform :=
  match t_filter t with
  | Some (String c r) => [TransformFilter (String c r)]
  | _ =>
      match t_calculate t with
      | Some (String c r) => [TransformCalculate (String c r) (t_as t)]
      | _ => []
      end
  end.

Definition parseTransforms (spec : Spec) : list ChartTransform :=
  match s_transform spec with
  | Some ts => flat_map parseTransform ts
  | None => []
  end.

(** [typeof spec.width === 'number'], else [spec.width === undefined]. *)
Definition parseDimension (d : option SpecDimension) : option Dimension :=
  match d with
  | Some (SpecDimNumber n) => Some (DimNumber n)
  | None => Some DimContainer
  | Some (SpecDimOther _) => None
  end.

(** [if (spec.title) builderState.title = typeof spec.title === 'string'
    ? spec.title : spec.title.text]: nothing is assigned for a missing or
    empty title; a title object is truthy and assigns its [text], which is
    [undefined] when the object has none. *)
Definition parseTitle (t : option SpecTitle) : option (option string) :=
  match t with
  | Some (TitleString s) => if Js.truthyStr s then Some (Some s) else None
  | Some (TitleParams txt) => Some txt
  | None => None
  end.

(** [parseSpecToBuilderState(spec)]. *)
Definition parseSpecToBuilderState (spec : Spec) : PartialBuilderState :=
  {| p_mark := parseMark spec;
     p_encodings := Some (parseEncodings spec);
     p_transforms := Some (parseTransforms spec);
     p_width := setWhenDefined (parseDimension (s_width spec));
     p_height := setWhenDefined (parseDimension (s_height spec));
     p_title := parseTitle (s_title spec);
     p_description := setWhenDefined (someIfTruthy (s_description spec));
     p_background := setWhenDefined (someIfTruthy (s_background spec));
     p_padding := None |}.

(** A [Partial<BuilderState>] that has the three required properties is a
    [BuilderState]; [buildSpec] reads [state.mark.type],
    [state.encodings.x] and iterates [state.transforms], so it raises a
    [TypeError] on anything less. *)
Definition asBuilderState (p : PartialBuilderState) : option BuilderState :=
  match p_mark p, p_encodings p, p_transforms p with
  | Some m, Some e, Some ts =>
      Some {| mark := m; encodings := e; transforms := ts;
              width := readProp (p_width p); height := readProp (p_height p);
              title := readProp (p_title p);
              description := readProp (p_description p);
              background := readProp (p_background p);
              padding := readProp (p_padding p) |}
  | _, _, _ => None
  end.

(* ================================================================== *)
(** * Part V.  The custom-spec classifier (panels)                     *)
(* ================================================================== *)

(** [!!(vegaSpec.facet || vegaSpec.layer || vegaSpec.hconcat ||
        vegaSpec.vconcat || vegaSpec.repeat ||
        (vegaSpec.transform && vegaSpec.transform.length > 3) ||
        (vegaSpec.data && vegaSpec.data.url))]. *)
Definition isCustomSpec (vegaSpec : Spec) : bool :=
  (truthyProp (s_facet vegaSpec)
   || truthyProp (s_layer vegaSpec)
   || truthyProp (s_hconcat vegaSpec)
   || truthyProp (s_vconcat vegaSpec)
   || truthyProp (s_repeat vegaSpec)
   || match s_transform vegaSpec with
      | Some ts => 3 <? Z.of_nat (List.length ts)
      | None => false
      end
   || match s_data vegaSpec with
      | Some d => Js.truthyOptStr (data_url d)
      | None => false
      end)%bool.

(* ================================================================== *)
(** * Part VI.  The store and its history ([store/widgetStore.ts])     *)
(* ================================================================== *)

Record StateSnapshot := {
  snap_builderState : BuilderState;
  snap_spec : Spec;
  snap_timestamp : Z;
  snap_description : option string
}.

(** The fields of [WidgetState] that the history actions and the two
    setters read or write. *)
Record WidgetState := {
  dataFields : list DataField;
  builderState : BuilderState;
  vegaSpec : Spec;
  history : list StateSnapshot;
  historyIndex : Z
}.

(** [JSON.parse(JSON.stringify(v))]: a structurally equal copy that shares
    nothing with [v].  Values have no identity here, so the copy is [v]. *)
Definition jsonClone {A : Type} (v : A) : A := v.

(** [{ ...state, ...updates }]: a property present in [updates] wins,
    also when it holds [undefined]. *)
Definition mergeBuilderState (b : BuilderState) (u : PartialBuilderState)
  : BuilderState :=
  let pick {A} (new : option A) (old : A) : A :=
    match new with Some v => v | None => old end in
  {| mark := pick (p_mark u) (mark b);
     encodings := pick (p_encodings u) (encodings b);
     transforms := pick (p_transforms u) (transforms b);
     width := pick (p_width u) (width b);
     height := pick (p_height u) (height b);
     title := pick (p_title u) (title b);
     description := pick (p_description u) (description b);
     background := pick (p_background u) (background b);
     padding := pick (p_padding u) (padding b) |}.

(** The store as created: no history, cursor at [-1].  [fields] is
    [inferFields(DEFAULT_DATA)]. *)
Definition initialState (fields : list DataField) : WidgetState :=
  {| dataFields := fields;
     builderState := getDefaultBuilderState;
     vegaSpec := buildSpec getDefaultBuilderState fields;
     history := [];
     historyIndex := -1 |}.

(** [setBuilderState(updates)]: merge, then regenerate the spec. *)
Definition setBuilderState (updates : PartialBuilderState) (state : WidgetState)
  : WidgetState :=
  let b := mergeBuilderState (builderState state) updates in
  {| dataFields := dataFields state;
     builderState := b;
     vegaSpec := buildSpec b (dataFields state);
     history := history state;
     historyIndex := historyIndex state |}.

(** [setSpec(spec, builderState?)]: replace the spec, merge when given. *)
Definition setSpec (spec : Spec) (bs : option PartialBuilderState)
  (state : WidgetState) : WidgetState :=
  {| dataFields := dataFields state;
     builderState := match bs with
                     | Some u => mergeBuilderState (builderState state) u
                     | None => builderState state
                     end;
     vegaSpec := spec;
     history := history state;
     historyIndex := historyIndex state |}.

(** The snapshot [captureSnapshot] takes of a state; [now] is the value of
    [Date.now()]. *)
Definition snapshotOf (description : option string) (now : Z)
  (state : WidgetState) : StateSnapshot :=
  {| snap_builderState := jsonClone (builderState state);
     snap_spec := jsonClone (vegaSpec state);
     snap_timestamp := now;
     snap_description := description |}.

(** [captureSnapshot(description)]. *)
Definition captureSnapshot (description : option string) (now : Z)
  (state : WidgetState) : WidgetState :=
  let snapshot := snapshotOf description now state in
  (* Remove any snapshots after current index *)
  let h1 := Js.slice (history state) 0 (historyIndex state + 1) in
  (* Add new snapshot *)
  let h2 := h1 ++ [snapshot] in
  let i2 := Z.of_nat (List.length h2) - 1 in
  (* Limit history to 50 snapshots *)
  let h3 := if 50 <? Z.of_nat (List.length h2) then Js.sliceFrom h2 (-50) else h2 in
  let i3 := if 50 <? Z.of_nat (List.length h2)
            then Z.of_nat (List.length h3) - 1 else i2 in
  {| dataFields := dataFields state;
     builderState := builderState state;
     vegaSpec := vegaSpec state;
     history := h3;
     historyIndex := i3 |}.

(** [state.history[i]]: [undefined] outside the array. *)
Definition historyAt (state : WidgetState) (i : Z) : option StateSnapshot :=
  if i <? 0 then None else nth_error (history state) (Z.to_nat i).

(** Restoring from a snapshot; reading a property of [undefined] raises a
    [TypeError], which is [None]. *)
Definition restoreAt (state : WidgetState) (i : Z) : option WidgetState :=
  match historyAt state i with
  | Some snapshot =>
      Some {| dataFields := dataFields state;
              builderState := jsonClone (snap_builderState snapshot);
              vegaSpec := jsonClone (snap_spec snapshot);
              history := history state;
              historyIndex := i |}
  | None => None
  end.

(** [undo()]. *)
Definition undo (state : WidgetState) : option WidgetState :=
  if 0 <? historyIndex state
  then restoreAt state (historyIndex state - 1)
  else Some state.

(** [redo()]. *)
Definition redo (state : WidgetState) : option WidgetState :=
  if historyIndex state <? Z.of_nat (List.length (history state)) - 1
  then restoreAt state (historyIndex state + 1)
  else Some state.

(** The name of a mark type, as it appears in a template literal. *)
Definition markTypeName (t : MarkType) : string :=
  match t with
  | bar => "bar" | line => "line" | area => "area" | point => "point"
  | circle => "circle" | square => "square" | rect => "rect"
  | rule => "rule" | text => "text" | tick => "tick"
  end.

(** [handleMarkChange(markType)] of the mark panel: capture, then mutate. *)
Definition handleMarkChange (markType : MarkType) (now : Z) (state : WidgetState)
  : WidgetState :=
  let m := mark (builderState state) in
  let captured :=
    captureSnapshot (Some ("Change mark to " ++ markTypeName markType)%string)
                    now state in
  setBuilderState
    {| p_mark := Some {| mark_type := markType; mark_point := mark_point m;
                         mark_stacked := mark_stacked m;
                         mark_opacity := mark_opacity m;
                         mark_size := mark_size m;
                         mark_strokeWidth := mark_strokeWidth m;
                         mark_interpolate := mark_interpolate m |};
       p_encodings := None; p_transforms := None; p_width := None;
       p_height := None; p_title := None; p_description := None;
       p_background := None; p_padding := None |}
    captured.

(** The calls a panel makes on the store. *)
Inductive StoreCall :=
| CallCapture (description : option string) (now : Z)
| CallSetBuilderState (updates : PartialBuilderState)
| CallSetSpec (spec : Spec) (bs : option PartialBuilderState)
| CallUndo
| CallRedo.

Definition call (c : StoreCall) (state : WidgetState) : option WidgetState :=
  match c with
  | CallCapture d now => Some (captureSnapshot d now state)
  | CallSetBuilderState u => Some (setBuilderState u state)
  | CallSetSpec s bs => Some (setSpec s bs state)
  | CallUndo => undo state
  | CallRedo => redo state
  end.

(** A sequence of calls, stopping at the first one that raises. *)
Fixpoint calls (cs : list StoreCall) (state : WidgetState) : option WidgetState :=
  match cs with
  | [] => Some state
  | c :: rest =>
      match call c state with
      | Some state' => calls rest state'
      | None => None
      end
  end.

(* ================================================================== *)
(** * Part VII.  Regular expressions as the planner uses them          *)
(* ================================================================== *)

(** A backtracking matcher for the fragment of JavaScript regular
    expressions that occurs in the sources: literals, character classes,
    sequence, ordered alternation [a|b], greedy repetition of a character
    class ([\s*], [\d+], [[a-z0-9_]+]), optional groups [(...)?], capturing
    groups, the anchors [^] and [$] and the word boundary [\b].  The
    continuation [k] is the rest of the pattern; a failure of [k] makes the
    matcher backtrack into the last choice, in the order a JavaScript engine
    tries them. *)
Module Regex.

Inductive Re :=
| Eps
| Chr (c : ascii)
| Class (f : ascii -> bool)
| Seq (a b : Re)
| Alt (a b : Re)
| Many (f : ascii -> bool)
| Group (i : nat) (a : Re)
| Bol
| Eol
| WordB.

(** Captures, the most recent first. *)
Definition Captures := list (nat * string).

Fixpoint group (i : nat) (caps : Captures) : option string :=
  match caps with
  | [] => None
  | (j, s) :: rest => if Nat.eqb i j then Some s else group i rest
  end.

(** The first [n] characters. *)
Fixpoint take (n : nat) (s : string) : string :=
  match n, s with
  | O, _ => EmptyString
  | S _, EmptyString => EmptyString
  | S m, String c r => String c (take m r)
  end.

(** The text between two suffixes of one string. *)
Definition consumed (from to : string) : string :=
  take (String.length from - String.length to) from.

(** A position: the character before it (if any) and the text after. *)
Record Result := {
  res_prev : option ascii;
  res_rest : string;
  res_caps : Captures
}.

Definition Cont := option ascii -> string -> Captures -> option Result.

Definition isWordBefore (p : option ascii) : bool :=
  match p with Some c => Js.isWord c | None => false end.
Definition isWordAfter (s : string) : bool :=
  match s with String c _ => Js.isWord c | EmptyString => false end.

Fixpoint run (r : Re) (p : option ascii) (s : string) (caps : Captures)
  (k : Cont) {struct r} : option Result :=
  match r with
  | Eps => k p s caps
  | Chr c =>
      match s with
      | String d s' => if Ascii.eqb c d then k (Some d) s' caps else None
      | EmptyString => None
      end
  | Class f =>
      match s with
      | String d s' => if f d then k (Some d) s' caps else None
      | EmptyString => None
      end
  | Seq a b => run a p s caps (fun p' s' caps' => run b p' s' caps' k)
  | Alt a b =>
      match run a p s caps k with
      | Some res => Some res
      | None => run b p s caps k
      end
  | Many f =>
      (fix many (p : option ascii) (s : string) {struct s} : option Result :=
         match s with
         | String d s' =>
             if f d then
               match many (Some d) s' with
               | Some res => Some res
               | None => k p s caps
               end
             else k p s caps
         | EmptyString => k p s caps
         end) p s
  | Group i a =>
      run a p s caps (fun p' s' caps' => k p' s' ((i, consumed s s') :: caps'))
  | Bol => match p with None => k p s caps | Some _ => None end
  | Eol => match s with EmptyString => k p s caps | String _ _ => None end
  | WordB =>
      if xorb (isWordBefore p) (isWordAfter s) then k p s caps else None
  end.

(** The end of the pattern. *)
Definition accept : Cont :=
  fun p s caps => Some {| res_prev := p; res_rest := s; res_caps := caps |}.

(** A match of [r] that starts exactly at this position. *)
Definition matchHere (r : Re) (p : option ascii) (s : string) : option Result :=
  run r p s [] accept.

(** A match found by [exec]: the text before it, the matched text and the
    position after it, with the captures. *)
Record Match := {
  m_before : string;
  m_text : string;
  m_end : Result
}.

(** The leftmost match at or after this position; [before] is the text
    already skipped, reversed. *)
Fixpoint search (r : Re) (before : list ascii) (p : option ascii) (s : string)
  : option Match :=
  match matchHere r p s with
  | Some res =>
      Some {| m_before := string_of_list_ascii (rev before);
              m_text := consumed s (res_rest res);
              m_end := res |}
  | None =>
      match s with
      | EmptyString => None
      | String c s' => search r (c :: before) (Some c) s'
      end
  end.

(** [s.match(r)] for a regular expression without the [g] flag. *)
Definition exec (r : Re) (s : string) : option Match := search r [] None s.

(** [m[i]], [undefined] when the group took no part in the match. *)
Definition captured (i : nat) (m : Match) : option string :=
  group i (res_caps (m_end m)).

(** [r.test(s)]. *)
Definition test (r : Re) (s : string) : bool :=
  match exec r s with Some _ => true | None => false end.

(** ** Pattern combinators *)

Fixpoint lit (s : string) : Re :=
  match s with
  | EmptyString => Eps
  | String c EmptyString => Chr c
  | String c r => Seq (Chr c) (lit r)
  end.

Fixpoint seqs (rs : list Re) : Re :=
  match rs with
  | [] => Eps
  | [r] => r
  | r :: rest => Seq r (seqs rest)
  end.

Fixpoint alts (rs : list Re) : Re :=
  match rs with
  | [] => Class (fun _ => false)
  | [r] => r
  | r :: rest => Alt r (alts rest)
  end.

(** [a?] (greedy). *)
Definition opt (a : Re) : Re := Alt a Eps.
(** [[f]+]. *)
Definition plus (f : ascii -> bool) : Re := Seq (Class f) (Many f).
(** [[f]{n}]. *)
Fixpoint times (n : nat) (f : ascii -> bool) : Re :=
  match n with
  | O => Eps
  | S O => Class f
  | S m => Seq (Class f) (times m f)
  end.

(** The [i] flag on a class. *)
Definition ignoreCase (f : ascii -> bool) : ascii -> bool :=
  fun c => (f (Js.lowerChar c) || f (Js.upperChar c))%bool.

(** ** [split] and [replace] *)

(** [s.split(r)] for a pattern without capturing groups, following the
    steps of the language definition: [chunk] is the text since the last
    split point (reversed), and a match is tried at each position before
    the end of the string; a match that ends at the last split point is
    skipped. *)
Fixpoint splitLoop (fuel : nat) (r : Re) (chunk : list ascii)
  (p : option ascii) (s : string) : list string :=
  match fuel with
  | O => [string_of_list_ascii (rev chunk)]
  | S fuel' =>
      match s with
      | EmptyString => [string_of_list_ascii (rev chunk)]
      | String c s' =>
          match matchHere r p s with
          | Some res =>
              match chunk, String.eqb (res_rest res) s with
              | [], true => splitLoop fuel' r [c] (Some c) s'
              | _, _ =>
                  string_of_list_ascii (rev chunk)
                  :: splitLoop fuel' r [] (res_prev res) (res_rest res)
              end
          | None => splitLoop fuel' r (c :: chunk) (Some c) s'
          end
      end
  end.

Definition split (r : Re) (s : string) : list string :=
  match s with
  | EmptyString =>
      match matchHere r None s with Some _ => [] | None => [EmptyString] end
  | _ => splitLoop (2 * String.length s + 1) r [] None s
  end.

(** [s.replace(r, f)] for a [g] pattern whose matches are not empty: the
    text of each match, left to right, is replaced by [f] of it. *)
Fixpoint replaceLoop (fuel : nat) (r : Re) (f : string -> string)
  (p : option ascii) (s : string) : string :=
  match fuel with
  | O => s
  | S fuel' =>
      match s with
      | EmptyString => EmptyString
      | String c s' =>
          match matchHere r p s with
          | Some res =>
              if String.eqb (res_rest res) s
              then String c (replaceLoop fuel' r f (Some c) s')
              else (f (consumed s (res_rest res))
                    ++ replaceLoop fuel' r f (res_prev res) (res_rest res))%string
          | None => String c (replaceLoop fuel' r f (Some c) s')
          end
      end
  end.

Definition replaceAll (r : Re) (f : string -> string) (s : string) : string :=
  replaceLoop (String.length s) r f None s.

End Regex.

(** [s.split(sep)] for a non-empty string separator. *)
Fixpoint splitStringLoop (fuel : nat) (sep : string) (chunk : list ascii)
  (s : string) : list string :=
  match fuel with
  | O => [string_of_list_ascii (rev chunk)]
  | S fuel' =>
      match s with
      | EmptyString => [string_of_list_ascii (rev chunk)]
      | String c s' =>
          if Js.startsWith sep s
          then string_of_list_ascii (rev chunk)
               :: splitStringLoop fuel' sep [] (Js.drop (String.length sep) s)
          else splitStringLoop fuel' sep (c :: chunk) s'
      end
  end.

Definition splitString (sep s : string) : list string :=
  splitStringLoop (S (String.length s)) sep [] s.

(* ================================================================== *)
(** * Part VIII.  Edit operations and plain objects                    *)
(* ================================================================== *)

(** A plain object used as a string-keyed map ([Record<string, T>]): the
    own properties in creation order. *)
Module JsObject.

Definition t (A : Type) := list (string * A).

Fixpoint get {A} (o : t A) (k : string) : option A :=
  match o with
  | [] => None
  | (k', v) :: rest => if String.eqb k k' then Some v else get rest k
  end.

Fixpoint update {A} (o : t A) (k : string) (v : A) : t A :=
  match o with
  | [] => [(k, v)]
  | (k', v') :: rest =>
      if String.eqb k k' then (k', v) :: rest else (k', v') :: update rest k v
  end.

(** [o[k] = v] on an object created by [{}]: assigning a string or an
    object to [__proto__] goes to the accessor of [Object.prototype] and
    creates no own property. *)
Definition set {A} (o : t A) (k : string) (v : A) : t A :=
  if String.eqb k "__proto__" then o else update o k v.

(** The decimal value of a string of digits. *)
Fixpoint digitsValueFrom (acc : Z) (s : string) : Z :=
  match s with
  | EmptyString => acc
  | String c r => digitsValueFrom (10 * acc + Z.of_nat (nat_of_ascii c - 48)) r
  end.
Definition digitsValue (s : string) : Z := digitsValueFrom 0 s.

Fixpoint allDigits (s : string) : bool :=
  match s with
  | EmptyString => true
  | String c r => (Js.isDigit c && allDigits r)%bool
  end.

(** An array index: a canonical numeric string below [2^32 - 1]. *)
Definition isArrayIndex (k : string) : bool :=
  match k with
  | EmptyString => false
  | String c r =>
      (allDigits k
       && (negb (Ascii.eqb c "0") || String.eqb r EmptyString)
       && (digitsValue k <? 4294967295))%bool
  end.

Fixpoint insertKey (k : string) (sorted : list string) : list string :=
  match sorted with
  | [] => [k]
  | k' :: rest =>
      if digitsValue k <=? digitsValue k' then k :: sorted
      else k' :: insertKey k rest
  end.

(** [Object.keys(o)]: array indices in ascending numeric order, then the
    other keys in creation order. *)
Definition keys {A} (o : t A) : list string :=
  let ks := map fst o in
  fold_right insertKey [] (filter isArrayIndex ks)
  ++ filter (fun k => negb (isArrayIndex k)) ks.

End JsObject.

Inductive Channel := ch_x | ch_y | ch_color | ch_size.

(** The part of [options?: Partial<MarkConfig>] that [applyPlan] reads.
    [stacked] may be present and [null]. *)
Record MarkOptions := {
  opt_point : option bool;
  opt_stacked : option (option StackMode)
}.

(** [Operation]; [unknown_op] is any object whose [op] is none of the
    eleven names (the ['direct_spec_edit'] marker for instance).  The
    property [op] of a [set_aggregate] is its name: an object whose [op]
    is an aggregate such as ['sum'] is an [unknown_op]. *)
Inductive Operation :=
| set_mark (markType : MarkType) (options : option MarkOptions)
| set_encoding (channel : Channel) (field : string)
    (fieldType : option FieldType) (config : option EncodingConfig)
| remove_encoding (channel : Channel)
| set_series_colors (colors : JsObject.t Json)
| set_color_scheme (schemeName : string)
| set_top_n (n : Z) (byField : option string) (order : option SortOrder)
| set_sort (channelOrField : string) (by_ : option string) (order : SortOrder)
| add_filter (expr : string)
| set_aggregate (channel : Channel)
| set_title (newTitle : string)
| set_size (newWidth newHeight : option Dimension)
| unknown_op (op : string).

Record ChartEditPlan := {
  intentText : string;
  confidence : float;
  operations : list Operation
}.

(* ================================================================== *)
(** * Part IX.  The planner ([utils/nlPlanner.ts], [parseNLToPlan])    *)
(* ================================================================== *)

Module NlPlanner.
Import Regex.

(** [norm(s)]: [s.toLowerCase().trim()]. *)
Definition norm (s : string) : string := Js.trim (Js.toLowerCase s).

Definition quote : ascii := ascii_of_nat 39.
Definition dquote : ascii := ascii_of_nat 34.
Definition newline : ascii := ascii_of_nat 10.

(** [[0-9a-f]]. *)
Definition isHexLower (c : ascii) : bool :=
  let n := nat_of_ascii c in
  (Js.isDigit c || (Nat.leb 97 n && Nat.leb n 102))%bool.

(** [/^#([0-9a-f]{3}|[0-9a-f]{6})$/i]. *)
Definition hexColorRe : Re :=
  seqs [Bol; Chr "#";
        Group 1 (Alt (times 3 (ignoreCase isHexLower))
                     (times 6 (ignoreCase isHexLower)));
        Eol].

Definition basic : list (string * string) :=
  [ ("blue", "#1f77b4"); ("orange", "#ff7f0e"); ("red", "#d62728");
    ("green", "#2ca02c"); ("purple", "#9467bd"); ("brown", "#8c564b");
    ("pink", "#e377c2"); ("gray", "#7f7f7f"); ("grey", "#7f7f7f");
    ("yellow", "#bcbd22"); ("cyan", "#17becf"); ("black", "#111111");
    ("white", "#ffffff") ].

(** [basic[k]]: an own property, or what the object literal inherits
    from [Object.prototype] under a lower-case name: the function
    [Object] for ["constructor"] and [Object.prototype] for
    ["__proto__"], opaque values that are not strings, written [JObj []]. *)
Definition basicLookup (k : string) : option Json :=
  match JsObject.get basic k with
  | Some hex => Some (JStr hex)
  | None =>
      if (String.eqb k "constructor" || String.eqb k "__proto__")%bool
      then Some (JObj [])
      else None
  end.

(** [colorWordToHex(s)]. *)
Definition colorWordToHex (s : string) : Json :=
  if test hexColorRe s then JStr s
  else match basicLookup (norm s) with
       | Some v => v
       | None => JStr s
       end.

(** [resolveField(candidate, fieldNames)] of the planner. *)
Definition resolveField (candidate : string) (fieldNames : list string)
  : option string :=
  if Js.arrayIncludes fieldNames candidate then Some candidate
  else
    let contains :=
      Js.find (fun f => Js.includes (Js.toLowerCase f) (Js.toLowerCase candidate))
              fieldNames in
    match Js.find (fun f => String.eqb (Js.toLowerCase f) (Js.toLowerCase candidate))
                  fieldNames with
    | Some ci => if Js.truthyStr ci then Some ci else contains
    | None => contains
    end.

(** [titleCase(s)]: [s.replace(/\b\w/g, (m) => m.toUpperCase())]. *)
Definition titleCase (s : string) : string :=
  replaceAll (Seq WordB (Class Js.isWord)) Js.toUpperCase s.

Definition markWords : list string :=
  ["line"; "bar"; "area"; "point"; "circle"; "square"; "tick"; "rect";
   "rule"; "text"].

(** The cast [markMatch[2] as any]: the mark type a mark word names. *)
Definition markTypeOfString (s : string) : option MarkType :=
  if String.eqb s "line" then Some line
  else if String.eqb s "bar" then Some bar
  else if String.eqb s "area" then Some area
  else if String.eqb s "point" then Some point
  else if String.eqb s "circle" then Some circle
  else if String.eqb s "square" then Some square
  else if String.eqb s "tick" then Some tick
  else if String.eqb s "rect" then Some rect
  else if String.eqb s "rule" then Some rule
  else if String.eqb s "text" then Some text
  else None.

(** [/(change to|switch to|make it|set to)?\s*(line|bar|area|point|circle|square|tick|rect|rule|text)\s*(chart)?/]. *)
Definition markRe : Re :=
  seqs [opt (Group 1 (alts (map lit ["change to"; "switch to"; "make it"; "set to"])));
        Many Js.isSpace;
        Group 2 (alts (map lit markWords));
        Many Js.isSpace;
        opt (Group 3 (lit "chart"))].

(** [/color (?:lines|bars|points|by)?\s*by\s+([a-zA-Z0-9_]+)/]. *)
Definition colorByRe : Re :=
  seqs [lit "color ";
        opt (alts (map lit ["lines"; "bars"; "points"; "by"]));
        Many Js.isSpace; lit "by"; plus Js.isSpace;
        Group 1 (plus Js.isWord)].

(** [/color by\s+([a-zA-Z0-9_]+)/]. *)
Definition colorByRe2 : Re :=
  seqs [lit "color by"; plus Js.isSpace; Group 1 (plus Js.isWord)].

(** [[a-z0-9_\-\s]] and [[#a-z0-9_\-]], before the [i] flag. *)
Definition isCategoryChar (c : ascii) : bool :=
  (Js.isLower c || Js.isDigit c || Ascii.eqb c "_" || Ascii.eqb c "-"
   || Js.isSpace c)%bool.
Definition isColorChar (c : ascii) : bool :=
  (Ascii.eqb c "#" || Js.isLower c || Js.isDigit c || Ascii.eqb c "_"
   || Ascii.eqb c "-")%bool.

(** [/^([a-z0-9_\-\s]+)\s+([#a-z0-9_\-]+)$/i]. *)
Definition pairRe : Re :=
  seqs [Bol; Group 1 (plus (ignoreCase isCategoryChar)); plus Js.isSpace;
        Group 2 (plus (ignoreCase isColorChar)); Eol].

(** [/\s+and\s+/g]. *)
Definition andRe : Re := seqs [plus Js.isSpace; lit "and"; plus Js.isSpace].

(** [/top\s+(\d+)(?:\s+by\s+([a-zA-Z0-9_]+))?/]. *)
Definition topNRe : Re :=
  seqs [lit "top"; plus Js.isSpace; Group 1 (plus Js.isDigit);
        opt (seqs [plus Js.isSpace; lit "by"; plus Js.isSpace;
                   Group 2 (plus Js.isWord)])].

(** [/sort\s+by\s+([a-zA-Z0-9_]+)\s+(ascending|descending|asc|desc)/]. *)
Definition sortRe : Re :=
  seqs [lit "sort"; plus Js.isSpace; lit "by"; plus Js.isSpace;
        Group 1 (plus Js.isWord); plus Js.isSpace;
        Group 2 (alts (map lit ["ascending"; "descending"; "asc"; "desc"]))].

(** [/(desc|descending)/]. *)
Definition descRe : Re := Group 1 (alts (map lit ["desc"; "descending"])).

(** [/use\s+([a-zA-Z0-9_]+)\s+as\s+color/]. *)
Definition altColorRe : Re :=
  seqs [lit "use"; plus Js.isSpace; Group 1 (plus Js.isWord);
        plus Js.isSpace; lit "as"; plus Js.isSpace; lit "color"].

Definition isQuoteChar (c : ascii) : bool :=
  (Ascii.eqb c quote || Ascii.eqb c dquote)%bool.
Definition isTitleChar (c : ascii) : bool :=
  negb (Ascii.eqb c quote || Ascii.eqb c dquote || Ascii.eqb c newline)%bool.

(** [/set title to\s+[quotes]?([^quotes\n]+)[quotes]?/], where the two
    classes list the single and the double quote. *)
Definition titleRe : Re :=
  seqs [lit "set title to"; plus Js.isSpace; opt (Class isQuoteChar);
        Group 1 (plus isTitleChar); opt (Class isQuoteChar)].

Definition isLowerAlnum (c : ascii) : bool := (Js.isLower c || Js.isDigit c)%bool.

(** [/use\s+([a-z0-9]+)\s+(?:color\s+)?scheme/]. *)
Definition schemeRe : Re :=
  seqs [lit "use"; plus Js.isSpace; Group 1 (plus isLowerAlnum);
        plus Js.isSpace; opt (seqs [lit "color"; plus Js.isSpace]);
        lit "scheme"].

(** [/\blines\b/]. *)
Definition linesRe : Re := seqs [WordB; lit "lines"; WordB].

(** [parseInt(digits, 10)] with [Number.isFinite]: the value of the
    digits, which is finite as a double when it rounds below [2^1024].
    (Above [2^53] the double is the nearest one to this value.) *)
Definition parseInt (digits : string) : Z := JsObject.digitsValue digits.
Definition isFiniteNumber (n : Z) : bool := n <? 2 ^ 1024 - 2 ^ 970.

(** 1) Mark changes. *)
Definition markOps (lower : string) : list Operation :=
  match exec markRe lower with
  | Some markMatch =>
      match captured 2 markMatch with
      | Some word =>
          match markTypeOfString word with
          | Some t =>
              [set_mark t
                 (Some {| opt_point := Some (Js.includes lower "with points");
                          opt_stacked := None |})]
          | None => []
          end
      | None => []
      end
  | None => []
  end.

(** 2) Color by <field>. *)
Definition colorByOps (lower : string) (fieldNames : list string)
  : list Operation :=
  let colorBy :=
    match exec colorByRe lower with
    | Some m => Some m
    | None => exec colorByRe2 lower
    end in
  match colorBy with
  | Some m =>
      match captured 1 m with
      | Some (String c r) =>
          match resolveField (String c r) fieldNames with
          | Some fld =>
              if Js.truthyStr fld
              then [set_encoding ch_color fld None None] else []
          | None => []
          end
      | _ => []
      end
  | None => []
  end.

(** The body of the loop over the pairs of 3). *)
Definition addPair (map_ : JsObject.t Json) (p : string) : JsObject.t Json :=
  match exec pairRe p with
  | Some m =>
      match captured 1 m, captured 2 m with
      | Some g1, Some g2 =>
          let cat := titleCase (Js.trim g1) in
          let col := colorWordToHex (Js.trim g2) in
          JsObject.set map_ cat col
      | _, _ => map_
      end
  | None => map_
  end.

(** 3) "make West blue and East orange". *)
Definition makeOps (lower : string) : list Operation :=
  if Js.includes lower "make " then
    match nth_error (splitString "make " lower) 1 with
    | Some (String c r) =>
        let afterMake := String c r in
        let pairs := map Js.trim (split andRe afterMake) in
        let map_ := fold_left addPair pairs [] in
        match JsObject.keys map_ with
        | [] => []
        | _ :: _ => [set_series_colors map_]
        end
    | _ => []
    end
  else [].

(** 4) "top 10" (optionally "by Sales"). *)
Definition topNOps (lower : string) (fieldNames : list string)
  : list Operation :=
  match exec topNRe lower with
  | Some topN =>
      match captured 1 topN with
      | Some digits =>
          let n := parseInt digits in
          let by_ :=
            match captured 2 topN with
            | Some (String c r) => resolveField (String c r) fieldNames
            | _ => None
            end in
          [set_top_n (if isFiniteNumber n then n else 10) by_ (Some descending)]
      | None => []
      end
  | None => []
  end.

(** 5) "sort by Sales desc". *)
Definition sortOps (lower : string) (fieldNames : list string)
  : list Operation :=
  match exec sortRe lower with
  | Some m =>
      match captured 1 m, captured 2 m with
      | Some g1, Some g2 =>
          let by_ := match resolveField g1 fieldNames with
                     | Some f => f
                     | None => g1
                     end in
          let order := if test descRe g2 then descending else ascending in
          [set_sort "y" (Some by_) order]
      | _, _ => []
      end
  | None => []
  end.

(** 6) "use Region as color". *)
Definition altColorOps (lower : string) (fieldNames : list string)
  : list Operation :=
  match exec altColorRe lower with
  | Some m =>
      match captured 1 m with
      | Some g1 =>
          match resolveField g1 fieldNames with
          | Some fld =>
              if Js.truthyStr fld
              then [set_encoding ch_color fld None None] else []
          | None => []
          end
      | None => []
      end
  | None => []
  end.

(** 7) "set title to X". *)
Definition titleOps (lower : string) : list Operation :=
  match exec titleRe lower with
  | Some m =>
      match captured 1 m with
      | Some g1 => [set_title (Js.trim g1)]
      | None => []
      end
  | None => []
  end.

(** 8) "use viridis color scheme". *)
Definition schemeOps (lower : string) : list Operation :=
  match exec schemeRe lower with
  | Some m =>
      match captured 1 m with
      | Some g1 => [set_color_scheme g1]
      | None => []
      end
  | None => []
  end.

Definition isSetMark (o : Operation) : bool :=
  match o with set_mark _ _ => true | _ => false end.

(** The nudge: "lines" without an explicit mark change. *)
Definition linesOps (ops : list Operation) (lower : string) : list Operation :=
  if (negb (existsb isSetMark ops) && test linesRe lower)%bool
  then [set_mark line None] else [].

(** [ops.length] as a double, exact below [2^53]. *)
Fixpoint lengthAsDouble (count : nat) : float :=
  match count with
  | O => 0%float
  | S n => (lengthAsDouble n + 1)%float
  end.

(** [Math.min(1, 0.6 + ops.length * 0.08)] in binary64, the literals
    being the doubles nearest to 0.6 and 0.08. *)
Definition confidenceOf (count : nat) : float :=
  let c := (0.6 + lengthAsDouble count * 0.08)%float in
  if (c <? 1)%float then c else 1%float.

(** [parseNLToPlan(input, fieldNames, builder)]. *)
Definition parseNLToPlan (input : string) (fieldNames : list string)
  (builder : BuilderState) : ChartEditPlan :=
  let text_ := Js.trim input in
  let lower := norm text_ in
  let ops :=
    markOps lower
    ++ colorByOps lower fieldNames
    ++ makeOps lower
    ++ topNOps lower fieldNames
    ++ sortOps lower fieldNames
    ++ altColorOps lower fieldNames
    ++ titleOps lower
    ++ schemeOps lower in
  let ops := ops ++ linesOps ops lower in
  {| intentText := input;
     confidence := confidenceOf (List.length ops);
     operations := ops |}.

End NlPlanner.

(* ================================================================== *)
(** * Part X.  The plan applier ([utils/nlPlanner.ts], [applyPlan])    *)
(* ================================================================== *)

(** [getType(field)]: [dataFields.find((f) => f.name === field)?.inferredType]. *)
Definition getType (dataFields : list DataField) (field : string)
  : option FieldType :=
  option_map inferredType
    (Js.find (fun f => String.eqb (name f) field) dataFields).

(** [encodings[channel]]. *)
Definition getChannel (e : Encodings) (c : Channel) : option EncodingConfig :=
  match c with
  | ch_x => x e
  | ch_y => y e
  | ch_color => color e
  | ch_size => size e
  end.

(** [encodings[channel] = v]. *)
Definition setChannel (e : Encodings) (c : Channel) (v : option EncodingConfig)
  : Encodings :=
  match c with
  | ch_x => {| x := v; y := y e; color := color e; size := size e;
               tooltip := tooltip e |}
  | ch_y => {| x := x e; y := v; color := color e; size := size e;
               tooltip := tooltip e |}
  | ch_color => {| x := x e; y := y e; color := v; size := size e;
                   tooltip := tooltip e |}
  | ch_size => {| x := x e; y := y e; color := color e; size := v;
                  tooltip := tooltip e |}
  end.

Definition withEncodings (b : BuilderState) (e : Encodings) : BuilderState :=
  {| mark := mark b; encodings := e; transforms := transforms b;
     width := width b; height := height b; title := title b;
     description := description b; background := background b;
     padding := padding b |}.

Definition withTransforms (b : BuilderState) (ts : list ChartTransform)
  : BuilderState :=
  {| mark := mark b; encodings := encodings b; transforms := ts;
     width := width b; height := height b; title := title b;
     description := description b; background := background b;
     padding := padding b |}.

Definition withMark (b : BuilderState) (m : MarkConfig) : BuilderState :=
  {| mark := m; encodings := encodings b; transforms := transforms b;
     width := width b; height := height b; title := title b;
     description := description b; background := background b;
     padding := padding b |}.

(** [{ ...base, ...config }] on encoding configurations. *)
Definition spreadEncoding (base config : EncodingConfig) : EncodingConfig :=
  {| enc_field := Js.nullish (enc_field config) (enc_field base);
     enc_type := Js.nullish (enc_type config) (enc_type base);
     enc_aggregate := Js.nullish (enc_aggregate config) (enc_aggregate base);
     enc_sort := Js.nullish (enc_sort config) (enc_sort base);
     enc_scale := Js.nullish (enc_scale config) (enc_scale base);
     enc_timeUnit := Js.nullish (enc_timeUnit config) (enc_timeUnit base);
     enc_bin := Js.nullish (enc_bin config) (enc_bin base);
     enc_axis := Js.nullish (enc_axis config) (enc_axis base);
     enc_legend := Js.nullish (enc_legend config) (enc_legend base) |}.

Definition withSort (c : EncodingConfig) (s : Sort) : EncodingConfig :=
  {| enc_field := enc_field c; enc_type := enc_type c;
     enc_aggregate := enc_aggregate c; enc_sort := Some s;
     enc_scale := enc_scale c; enc_timeUnit := enc_timeUnit c;
     enc_bin := enc_bin c; enc_axis := enc_axis c; enc_legend := enc_legend c |}.

Definition withAggregate (c : EncodingConfig) (a : AggregateOp) : EncodingConfig :=
  {| enc_field := enc_field c; enc_type := enc_type c;
     enc_aggregate := Some a; enc_sort := enc_sort c;
     enc_scale := enc_scale c; enc_timeUnit := enc_timeUnit c;
     enc_bin := enc_bin c; enc_axis := enc_axis c; enc_legend := enc_legend c |}.

Definition withScale (c : EncodingConfig) (s : ScaleConfig) : EncodingConfig :=
  {| enc_field := enc_field c; enc_type := enc_type c;
     enc_aggregate := enc_aggregate c; enc_sort := enc_sort c;
     enc_scale := Some s; enc_timeUnit := enc_timeUnit c;
     enc_bin := enc_bin c; enc_axis := enc_axis c; enc_legend := enc_legend c |}.

(** [{ field, type }] as an encoding configuration. *)
Definition fieldEncoding (f : string) (t : option FieldType) : EncodingConfig :=
  {| enc_field := Some f; enc_type := t; enc_aggregate := None;
     enc_sort := None; enc_scale := None; enc_timeUnit := None;
     enc_bin := None; enc_axis := None; enc_legend := None |}.

Definition emptyScale : ScaleConfig :=
  {| domain := None; range := None; scheme := None; reverse := None;
     zero := None |}.

Definition isTopN (t : ChartTransform) : bool :=
  match t with TransformTopN _ _ _ => true | _ => false end.

Definition isNominal (f : DataField) : bool :=
  match inferredType f with nominal => true | _ => false end.

(** One iteration of the loop of [applyPlan]: the [switch] on [op.op]. *)
Definition applyOperation (dataFields : list DataField) (next : BuilderState)
  (o : Operation) : BuilderState :=
  match o with
  | set_mark markType options =>
      let m := mark next in
      let pt := match options with
                | Some opts => Js.nullish (opt_point opts) (mark_point m)
                | None => mark_point m
                end in
      let st := match options with
                | Some opts => match opt_stacked opts with
                               | Some v => v
                               | None => mark_stacked m
                               end
                | None => mark_stacked m
                end in
      withMark next
        {| mark_type := markType; mark_point := pt; mark_stacked := st;
           mark_opacity := mark_opacity m; mark_size := mark_size m;
           mark_strokeWidth := mark_strokeWidth m;
           mark_interpolate := mark_interpolate m |}

  | set_encoding channel field fieldType config =>
      let t := Js.nullish fieldType (getType dataFields field) in
      let old := match getChannel (encodings next) channel with
                 | Some c => c
                 | None => emptyEncoding
                 end in
      let base :=
        {| enc_field := Some field; enc_type := t;
           enc_aggregate := enc_aggregate old; enc_sort := enc_sort old;
           enc_scale := enc_scale old; enc_timeUnit := enc_timeUnit old;
           enc_bin := enc_bin old; enc_axis := enc_axis old;
           enc_legend := enc_legend old |} in
      let final := match config with
                   | Some cfg => spreadEncoding base cfg
                   | None => base
                   end in
      withEncodings next (setChannel (encodings next) channel (Some final))

  | remove_encoding channel =>
      withEncodings next (setChannel (encodings next) channel None)

  | set_series_colors colors =>
      (* Ensure color encoding exists *)
      let e := encodings next in
      let e1 :=
        if populated (color e) then e
        else
          match Js.find isNominal dataFields with
          | Some nominalField =>
              setChannel e ch_color
                (Some (fieldEncoding (name nominalField) (Some nominal)))
          | None =>
              match dataFields with
              | first :: _ =>
                  setChannel e ch_color
                    (Some (fieldEncoding (name first)
                             (getType dataFields (name first))))
              | [] => e
              end
          end in
      match color e1 with
      | Some c =>
          let domain_ := JsObject.keys colors in
          let range_ :=
            map (fun k => match JsObject.get colors k with
                          | Some v => v
                          | None => JNull
                          end) domain_ in
          let old := match enc_scale c with Some s => s | None => emptyScale end in
          let sc := {| domain := Some (map JStr domain_);
                       range := Some range_;
                       scheme := scheme old; reverse := reverse old;
                       zero := zero old |} in
          withEncodings next (setChannel e1 ch_color (Some (withScale c sc)))
      | None => withEncodings next e1
      end

  | set_color_scheme schemeName =>
      let e := encodings next in
      let e1 :=
        match color e with
        | Some _ => e
        | None =>
            (* Try to set color to a nominal field *)
            match Js.find isNominal dataFields with
            | Some nominalField =>
                setChannel e ch_color
                  (Some (fieldEncoding (name nominalField) (Some nominal)))
            | None => e
            end
        end in
      match color e1 with
      | Some c =>
          let old := match enc_scale c with Some s => s | None => emptyScale end in
          let sc := {| domain := domain old; range := range old;
                       scheme := Some schemeName; reverse := reverse old;
                       zero := zero old |} in
          withEncodings next (setChannel e1 ch_color (Some (withScale c sc)))
      | None => withEncodings next e1
      end

  | set_top_n n byField order =>
      (* Replace existing topN if any *)
      let kept := filter (fun t => negb (isTopN t)) (transforms next) in
      let fieldOf (c : option EncodingConfig) : option string :=
        match c with Some cfg => enc_field cfg | None => None end in
      let by_ :=
        match byField with
        | Some b => b
        | None =>
            match Js.nullish (fieldOf (y (encodings next)))
                    (Js.nullish (fieldOf (x (encodings next))) (Some EmptyString)) with
            | Some b => b
            | None => EmptyString
            end
        end in
      if Js.truthyStr by_
      then withTransforms next
             (kept ++ [TransformTopN n by_
                         (match order with Some o => o | None => descending end)])
      else withTransforms next kept

  | set_sort channelOrField by_ order =>
      let axisChannel :=
        if String.eqb channelOrField "x" then Some ch_x
        else if String.eqb channelOrField "y" then Some ch_y
        else None in
      match axisChannel with
      | Some ch =>
          let c := match getChannel (encodings next) ch with
                   | Some c => c
                   | None => emptyEncoding
                   end in
          let s := if Js.truthyOptStr by_
                   then match by_ with
                        | Some b => SortBy b order
                        | None => SortOrd order
                        end
                   else SortOrd order in
          withEncodings next (setChannel (encodings next) ch (Some (withSort c s)))
      | None =>
          (* Field-based sort: try apply to Y *)
          let c := match y (encodings next) with
                   | Some c => c
                   | None => emptyEncoding
                   end in
          withEncodings next
            (setChannel (encodings next) ch_y
               (Some (withSort c (SortBy channelOrField order))))
      end

  | add_filter expr =>
      withTransforms next (transforms next ++ [TransformFilter expr])

  | set_aggregate channel =>
      (* [next.encodings[op.channel]!.aggregate = op.op], and [op.op] is
         ['set_aggregate'] in this case of the switch *)
      match getChannel (encodings next) channel with
      | Some c =>
          withEncodings next
            (setChannel (encodings next) channel
               (Some (withAggregate c agg_set_aggregate)))
      | None => next
      end

  | set_title newTitle =>
      {| mark := mark next; encodings := encodings next;
         transforms := transforms next; width := width next;
         height := height next; title := Some newTitle;
         description := description next; background := background next;
         padding := padding next |}

  | set_size newWidth newHeight =>
      {| mark := mark next; encodings := encodings next;
         transforms := transforms next;
         width := Js.nullish newWidth (width next);
         height := Js.nullish newHeight (height next);
         title := title next;
         description := description next; background := background next;
         padding := padding next |}

  | unknown_op _ => next
  end.

(** [applyPlan(builder, plan, dataFields)]: a copy of [builder] taken
    through the operations in order. *)
Definition applyPlan (builder : BuilderState) (plan : ChartEditPlan)
  (dataFields : list DataField) : BuilderState :=
  fold_left (applyOperation dataFields) (operations plan) (jsonClone builder).

(* ================================================================== *)
(** * Part XI.  Field inference ([utils/fieldInference.ts])            *)
(* ================================================================== *)

Module FieldInference.

(** What the inference observes of a JavaScript value of a data row. *)
Class JsValue (V : Type) := {
  (** [undefined], the value of a property that a row neither has nor
      inherits *)
  undefinedValue : V;
  (** [Object.prototype[k]]: what a row that has no property [k] of its
      own inherits under that name, if anything *)
  inheritedValue : string -> option V;
  (** [v == null] *)
  isNullish : V -> bool;
  (** [typeof v === 'number' && Number.isFinite(v)] *)
  isFiniteNumber : V -> bool;
  (** [v instanceof Date] *)
  isDate : V -> bool;
  (** [String(v)] *)
  toString : V -> string;
  (** [Number.isFinite(Date.parse(s))], which depends on the engine for
      strings that are not in the ISO format *)
  dateParses : string -> bool
}.

(** [/\d{4}[-/]\d{2}[-/]\d{2}/]. *)
Definition isDateSeparator (c : ascii) : bool :=
  (Ascii.eqb c "-" || Ascii.eqb c "/")%bool.
Definition dateRe : Regex.Re :=
  Regex.seqs [Regex.times 4 Js.isDigit; Regex.Class isDateSeparator;
              Regex.times 2 Js.isDigit; Regex.Class isDateSeparator;
              Regex.times 2 Js.isDigit].

(** The number of distinct strings: [new Set(strings).size]. *)
Definition setSize (l : list string) : nat :=
  List.length (nodup string_dec l).

Section Inference.
Context {V : Type} `{JsValue V}.

(** A data row: an object, its own properties in creation order. *)
Definition Row := JsObject.t V.

(** [r[name]]: the row's own property, else the one it inherits from
    [Object.prototype], else [undefined]. *)
Definition prop (r : Row) (k : string) : V :=
  match JsObject.get r k with
  | Some v => v
  | None =>
      match inheritedValue k with
      | Some v => v
      | None => undefinedValue
      end
  end.

Definition isValid (v : V) : bool := negb (isNullish v).

(** The predicate of the [dateLike] filter. *)
Definition isDateLike (v : V) : bool :=
  if isNullish v then false
  else if isDate v then true
  else (dateParses (toString v) && Regex.test dateRe (toString v))%bool.

(** [inferFieldType(samples)].  The two thresholds are products with
    the doubles [0.6] and [0.5]: [k > n * 0.6] holds exactly when
    [5 k > 3 n] and [u < n * 0.5] exactly when [2 u < n], for the
    counts that arise. *)
Definition inferFieldType (samples : list V) : FieldType :=
  let validSamples := filter isValid samples in
  match validSamples with
  | [] => nominal
  | _ :: _ =>
      let total := Z.of_nat (List.length validSamples) in
      let nums := filter isFiniteNumber validSamples in
      if 3 * total <? 5 * Z.of_nat (List.length nums) then quantitative
      else
        let dateLike := filter isDateLike validSamples in
        if 3 * total <? 5 * Z.of_nat (List.length dateLike) then temporal
        else
          let unique := Z.of_nat (setSize (map toString validSamples)) in
          if ((unique <=? 20) && (2 * unique <? total))%bool then ordinal
          else nominal
  end.

(** [inferFields(rows)], without the [stats] of each field, which no
    function here reads. *)
Definition inferFields (rows : list Row) : list DataField :=
  match rows with
  | [] => []
  | first :: _ =>
      map (fun k =>
             let sampleValues := map (fun r => prop r k) (Js.slice rows 0 100) in
             {| name := k; inferredType := inferFieldType sampleValues |})
          (JsObject.keys first)
  end.

End Inference.

(** One row of the matrix of [levenshteinDistance] from the row above:
    [row] is [matrix[i-1]], [bc] is [b.charAt(i-1)], [left] is
    [matrix[i][j-1]] and [diag] is [matrix[i-1][j-1]]. *)
Fixpoint fillRow (bc : ascii) (a : string) (diag left : nat) (row : list nat)
  : list nat :=
  match a, row with
  | String ac a', up :: row' =>
      let cell := if Ascii.eqb bc ac then diag
                  else Nat.min (diag + 1) (Nat.min (left + 1) (up + 1)) in
      cell :: fillRow bc a' up cell row'
  | _, _ => []
  end.

(** [matrix[i]] from [matrix[i-1]]; its first cell is [i]. *)
Definition nextRow (bc : ascii) (a : string) (i : nat) (prev : list nat)
  : list nat :=
  match prev with
  | diag :: row => i :: fillRow bc a diag i row
  | [] => []
  end.

Fixpoint rowsFrom (a b : string) (i : nat) (prev : list nat) : list nat :=
  match b with
  | EmptyString => prev
  | String bc b' => rowsFrom a b' (S i) (nextRow bc a i prev)
  end.

(** [levenshteinDistance(a, b)]: [matrix[b.length][a.length]]. *)
Definition levenshteinDistance (a b : string) : nat :=
  last (rowsFrom a b 1 (seq 0 (S (String.length a)))) 0%nat.

(** A stable insertion sort by distance, as [sort((a, b) => a.distance -
    b.distance)] is: an element goes before the later elements that are
    not closer. *)
Fixpoint insertByDistance (m : DataField * nat) (l : list (DataField * nat))
  : list (DataField * nat) :=
  match l with
  | [] => [m]
  | m' :: rest =>
      if Nat.leb (snd m) (snd m') then m :: l
      else m' :: insertByDistance m rest
  end.

Definition sortByDistance (l : list (DataField * nat))
  : list (DataField * nat) :=
  fold_right (fun m acc => insertByDistance m acc) [] l.

(** [resolveField(candidate, fields)] of the field inference. *)
Definition resolveField (candidate : string) (fields : list DataField)
  : option DataField :=
  let lower := Js.trim (Js.toLowerCase candidate) in
  (* Exact match (case-sensitive) *)
  match Js.find (fun f => String.eqb (name f) candidate) fields with
  | Some m => Some m
  | None =>
      (* Case-insensitive match *)
      match Js.find (fun f => String.eqb (Js.toLowerCase (name f)) lower) fields with
      | Some m => Some m
      | None =>
          (* Contains match *)
          match Js.find (fun f => Js.includes (Js.toLowerCase (name f)) lower) fields with
          | Some m => Some m
          | None =>
              (* Fuzzy match *)
              let fuzzyMatches :=
                sortByDistance
                  (filter (fun m => Nat.leb (snd m) 3)
                     (map (fun f => (f, levenshteinDistance lower
                                          (Js.toLowerCase (name f))))
                          fields)) in
              match fuzzyMatches with
              | m :: _ => Some (fst m)
              | [] => None
              end
          end
      end
  end.

End FieldInference.

(* ================================================================== *)
(** * Part XII.  Notions used in the statements                        *)
(* ================================================================== *)

(** ** History *)

(** The cursor is [-1] on an empty stack and an index of the stack
    otherwise; the stack holds at most 50 snapshots. *)
Definition historyOk (state : WidgetState) : Prop :=
  (List.length (history state) <= 50)%nat
  /\ -1 <= historyIndex state < Z.of_nat (List.length (history state)).

Definition isUndoRedo (c : StoreCall) : bool :=
  match c with CallUndo | CallRedo => true | _ => false end.

(** The snapshots that the captures of a sequence of calls take, in the
    order of the calls. *)
Fixpoint snapshotsTaken (cs : list StoreCall) (state : WidgetState)
  : list StateSnapshot :=
  match cs with
  | [] => []
  | c :: rest =>
      (match c with
       | CallCapture d now => [snapshotOf d now state]
       | _ => []
       end)
      ++ match call c state with
         | Some state' => snapshotsTaken rest state'
         | None => []
         end
  end.

(** The last [n] elements of a list. *)
Definition lastN {A} (n : nat) (l : list A) : list A :=
  skipn (List.length l - n) l.

(** ** Stacking *)

(** An axis channel of the model that is compiled (it has a field) and
    carries the quantitative type. *)
Definition carriesQuantitative (e : option EncodingConfig) : bool :=
  match e with
  | Some c =>
      (Js.truthyOptStr (enc_field c)
       && match enc_type c with Some quantitative => true | _ => false end)%bool
  | None => false
  end.

(** The stack directives of all the channels of a compiled encoding. *)
Definition tooltipStacks (t : option SpecTooltip) : list (option StackMode) :=
  match t with
  | Some (SpecTooltipArray entries) => map ch_stack entries
  | Some (SpecTooltipValue v) => [ch_stack v]
  | None => []
  end.

Definition allStacks (e : SpecEncoding) : list (option StackMode) :=
  [stackOf (se_x e); stackOf (se_y e); stackOf (se_color e); stackOf (se_size e)]
  ++ tooltipStacks (se_tooltip e).

(** ** The classifier *)







(** ** The round trip *)

(** The mark type and the point flag of a spec. *)
Definition markTypeOf (s : Spec) : option MarkType :=
  match s_mark s with
  | Some (MarkName t) => Some t
  | Some (MarkDef d) => Some (md_type d)
  | None => None
  end.

Definition markPointOf (s : Spec) : option bool :=
  match s_mark s with
  | Some (MarkDef d) => md_point d
  | _ => None
  end.

(** Two specs agree on every field the decompiler reads: mark type, point
    flag, the encoding (all channels, with their stack directives),
    transforms, width, height, title, description and background. *)
Definition coveredEq (a b : Spec) : Prop :=
  markTypeOf a = markTypeOf b
  /\ markPointOf a = markPointOf b
  /\ s_encoding a = s_encoding b
  /\ s_transform a = s_transform b
  /\ s_width a = s_width b
  /\ s_height a = s_height b
  /\ s_title a = s_title b
  /\ s_description a = s_description b
  /\ s_background a = s_background b.

(** Decompiling [compile(M, fields)] gives a complete builder state whose
    compilation agrees with [compile(M, fields)] on the covered fields. *)
Definition roundTrips (M : BuilderState) (fields : list DataField) : Prop :=
  exists M',
    asBuilderState (parseSpecToBuilderState (buildSpec M fields)) = Some M'
    /\ coveredEq (buildSpec M' fields) (buildSpec M fields).

(** The representable subset: at most three transforms, each a filter or
    a calculate.  (A builder state has one mark, at most four encoding
    channels besides the tooltip, and no composition, by its type.) *)
Definition isFilterOrCalculate (t : ChartTransform) : bool :=
  match t with
  | TransformFilter _ | TransformCalculate _ _ => true
  | _ => false
  end.

Definition representable (M : BuilderState) : Prop :=
  (List.length (transforms M) <= 3)%nat
  /\ forallb isFilterOrCalculate (transforms M) = true.

(** A filter or calculate transform whose expression is not the empty
    string. *)
Definition hasExpression (t : ChartTransform) : bool :=
  match t with
  | TransformFilter e => Js.truthyStr e
  | TransformCalculate c _ => Js.truthyStr c
  | _ => false
  end.

(** A tooltip the decompiler reads back whole: entries of an explicit list
    have no empty field name and no axis format; with ['auto'], the first
    six data fields have a name. *)
Definition tooltipEntryKept (t : EncodingConfig) : bool :=
  (match enc_field t with Some f => Js.truthyStr f | None => true end
   && match enc_axis t with
      | Some a => negb (Js.isSome (axis_format a))
      | None => true
      end)%bool.

Definition tooltipKept (t : option Tooltip) (fields : list DataField) : bool :=
  match t with
  | Some TooltipAuto => forallb (fun f => Js.truthyStr (name f)) (Js.slice fields 0 6)
  | Some (TooltipList entries) => forallb tooltipEntryKept entries
  | _ => true
  end.


(** ** Field inference *)

(** A field name is observed when it is a key of one of the first 100 rows. *)
Definition observed {V} (rows : list (JsObject.t V)) (k : string) : Prop :=
  exists r, In r (Js.slice rows 0 100) /\ In k (map fst r).

(** The classification in the words of the specification: quantitative
    when more than 60% of the non-null samples are finite numbers, else
    temporal when more than 60% are dates (a native date, or a string that
    parses as a date and contains an ISO-like date), else ordinal when the
    distinct stringified values are at most 20 and fewer than 50% of the
    samples, else nominal. *)
Definition classify {V} `{FieldInference.JsValue V} (samples : list V) : FieldType :=
  let valid := filter (fun v => negb (FieldInference.isNullish v)) samples in
  let count (p : V -> bool) := Z.of_nat (List.length (filter p valid)) in
  let total := Z.of_nat (List.length valid) in
  let distinct := Z.of_nat (FieldInference.setSize (map FieldInference.toString valid)) in
  if 60 * total <? 100 * count FieldInference.isFiniteNumber then quantitative
  else if 60 * total
          <? 100 * count (fun v => (FieldInference.isDate v
                                    || (FieldInference.dateParses (FieldInference.toString v)
                                        && Regex.test FieldInference.dateRe (FieldInference.toString v)))%bool)
  then temporal
  else if ((distinct <=? 20) && (100 * distinct <? 50 * total))%bool then ordinal
  else nominal.

(** Sample cells of a data row, with an engine whose [Date.parse] accepts
    the strings that contain an ISO-like date.  [CellFunction] is a native
    function by its name and [CellPrototype] is [Object.prototype], the two
    kinds of value that a row inherits. *)
Inductive Cell :=
| CellUndefined
| CellNull
| CellNumber (n : Z)
| CellNaN
| CellString (s : string)
| CellFunction (name : string)
| CellPrototype.

(** The properties of [Object.prototype]: eleven functions and the
    accessor [__proto__], which yields the prototype of the row. *)
Definition objectPrototype (k : string) : option Cell :=
  if existsb (String.eqb k)
       ["constructor"; "hasOwnProperty"; "isPrototypeOf";
        "propertyIsEnumerable"; "toLocaleString"; "toString"; "valueOf";
        "__defineGetter__"; "__defineSetter__"; "__lookupGetter__";
        "__lookupSetter__"]
  then Some (CellFunction (if String.eqb k "constructor" then "Object" else k))
  else if String.eqb k "__proto__" then Some CellPrototype
  else None.

#[export] Instance cellValue : FieldInference.JsValue Cell := {
  undefinedValue := CellUndefined;
  inheritedValue := objectPrototype;
  isNullish := fun v => match v with CellUndefined | CellNull => true | _ => false end;
  isFiniteNumber := fun v => match v with CellNumber _ => true | _ => false end;
  isDate := fun _ => false;
  toString := fun v => match v with
                       | CellUndefined => "undefined"
                       | CellNull => "null"
                       | CellNumber n => numberToString n
                       | CellNaN => "NaN"
                       | CellString s => s
                       | CellFunction name =>
                           ("function " ++ name ++ "() { [native code] }")%string
                       | CellPrototype => "[object Object]"
                       end;
  dateParses := fun s => Regex.test FieldInference.dateRe s
}.

(** Three rows; the last two inherit the one column of the first. *)
Definition inheritingRows : list (JsObject.t Cell) :=
  [ [("constructor", CellNumber 1)]; []; [] ].

(** Two rows; the second has a column the first lacks. *)
Definition raggedRows : list (JsObject.t Cell) :=
  [ [("a", CellNumber 1)];
    [("a", CellNumber 2); ("b", CellString "x")] ].

(** ** The mark pattern of the planner *)

(** The mark word that starts at the beginning of [s], if any. *)
Definition markWordAt (s : string) : option string :=
  List.find (fun w => Js.startsWith w s) NlPlanner.markWords.

(** The mark word of the first position of [s] at which one occurs. *)
Fixpoint firstMarkWord (s : string) : option string :=
  match markWordAt s with
  | Some w => Some w
  | None =>
      match s with
      | EmptyString => None
      | String _ r => firstMarkWord r
      end
  end.

(** [w] occurs in [s] at index [i]. *)
Definition occursAt (w s : string) (i : nat) : Prop :=
  Js.startsWith w (Js.drop i s) = true.

(** The character before the position that follows the literal [w]. *)
Fixpoint litPrev (w : string) (p : option ascii) : option ascii :=
  match w with
  | EmptyString => p
  | String c r => litPrev r (Some c)
  end.

(** The alternation of literals: the first word, in order, that is a
    prefix and after which the continuation succeeds. *)
Fixpoint tryWords (ws : list string) (p : option ascii) (s : string)
  (caps : Regex.Captures) (k : Regex.Cont) : option Regex.Result :=
  match ws with
  | [] => None
  | w :: rest =>
      match (if Js.startsWith w s
             then k (litPrev w p) (Js.drop (String.length w) s) caps
             else None) with
      | Some res => Some res
      | None => tryWords rest p s caps k
      end
  end.

(** The parts of the mark pattern: the change phrases, the mark words
    with what may follow them, and all that follows the optional change
    phrase. *)
Definition markPrefixes : list string :=
  ["change to"; "switch to"; "make it"; "set to"].
Definition tailRe : Regex.Re :=
  Regex.Seq (Regex.Many Js.isSpace)
            (Regex.opt (Regex.Group 3 (Regex.lit "chart"))).
Definition marksRe : Regex.Re :=
  Regex.Group 2 (Regex.alts (map Regex.lit NlPlanner.markWords)).
Definition restRe : Regex.Re :=
  Regex.Seq (Regex.Many Js.isSpace) (Regex.Seq marksRe tailRe).

(** ** Concrete inputs *)

(** Fifty-one captures, each followed by a change of the width. *)
Definition fiftyOneCaptures : list StoreCall :=
  flat_map (fun i => [CallCapture None (Z.of_nat i);
                      CallSetBuilderState
                        {| p_mark := None; p_encodings := None; p_transforms := None;
                           p_width := Some (Some (DimNumber (Z.of_nat i)));
                           p_height := None;
                           p_title := None; p_description := None;
                           p_background := None; p_padding := None |}])
           (seq 0 51).

(** Three data fields. *)
Definition salesFields : list DataField :=
  [ {| name := "Category"; inferredType := nominal |};
    {| name := "Sales"; inferredType := quantitative |};
    {| name := "Region"; inferredType := nominal |} ].

(** The default state with one filter whose expression is empty. *)
Definition emptyFilterModel : BuilderState :=
  {| mark := mark getDefaultBuilderState;
     encodings := encodings getDefaultBuilderState;
     transforms := [TransformFilter ""];
     width := Some DimContainer; height := Some (DimNumber 360);
     title := None; description := None; background := None;
     padding := None |}.

(** A bar chart whose explicit tooltip entry carries a number format. *)
Definition formattedTooltipModel : BuilderState :=
  {| mark := mark getDefaultBuilderState;
     encodings :=
       {| x := Some (fieldEncoding "Category" (Some nominal));
          y := Some (fieldEncoding "Sales" (Some quantitative));
          color := None; size := None;
          tooltip :=
            Some (TooltipList
                    [ {| enc_field := Some "Sales";
                         enc_type := Some quantitative;
                         enc_aggregate := None; enc_sort := None;
                         enc_scale := None; enc_timeUnit := None;
                         enc_bin := None;
                         enc_axis :=
                           Some {| axis_title := None;
                                   axis_format := Some ".2f";
                                   axis_grid := None; axis_labelAngle := None;
                                   axis_labelFontSize := None;
                                   axis_titleFontSize := None |};
                         enc_legend := None |} ]) |};
     transforms := [];
     width := Some DimContainer; height := Some (DimNumber 360);
     title := None; description := None; background := None;
     padding := None |}.

(** A data field whose name is the empty string. *)
Definition unnamedField : list DataField :=
  [ {| name := ""; inferredType := nominal |} ].


(** A stacked bar chart of a quantitative field by a nominal one. *)
Definition stackedBars : BuilderState :=
  {| mark := {| mark_type := bar; mark_point := None;
                mark_stacked := Some stack_zero;
                mark_opacity := None; mark_size := None;
                mark_strokeWidth := None; mark_interpolate := None |};
     encodings :=
       {| x := Some (fieldEncoding "Category" (Some nominal));
          y := Some (fieldEncoding "Sales" (Some quantitative));
          color := Some (fieldEncoding "Region" (Some nominal));
          size := None;
          tooltip := Some TooltipAuto |};
     transforms := [];
     width := Some DimContainer;
     height := Some (DimNumber 360);
     title := None; description := None; background := None;
     padding := None |}.




(** A state with a top-N transform and no field on either axis, and a
    plan that sets a top-N without naming a field. *)
Definition topNWithoutAxes : BuilderState :=
  {| mark := mark getDefaultBuilderState;
     encodings := encodings getDefaultBuilderState;
     transforms := [TransformTopN 5 "Sales" descending;
                    TransformFilter "datum.Sales > 100"];
     width := Some DimContainer; height := Some (DimNumber 360);
     title := None; description := None; background := None;
     padding := None |}.

Definition topThreePlan : ChartEditPlan :=
  {| intentText := "top 3";
     confidence := NlPlanner.confidenceOf 1;
     operations := [set_top_n 3 None (Some descending)] |}.

(* ================================================================== *)
(** * Part XIII.  Field statistics ([utils/fieldInference.ts])         *)
(* ================================================================== *)

(** [FieldStats]: [min], [max] and [topValues] are optional. *)
Record FieldStats := {
  stat_nulls : nat;
  stat_unique : nat;
  stat_min : option Q;
  stat_max : option Q;
  stat_topValues : option (list (string * nat))
}.

(** [counts.set(key, (counts.get(key) || 0) + 1)] on a [Map], whose
    entries stay in the order of their first insertion. *)
Fixpoint countKey (counts : list (string * nat)) (key : string)
  : list (string * nat) :=
  match counts with
  | [] => [(key, 1%nat)]
  | (k, c) :: rest =>
      if String.eqb key k then (k, S c) :: rest
      else (k, c) :: countKey rest key
  end.

(** [sort((a, b) => b.count - a.count)], a stable sort: an entry goes
    before the later entries that do not count more. *)
Fixpoint insertByCount (m : string * nat) (l : list (string * nat))
  : list (string * nat) :=
  match l with
  | [] => [m]
  | m' :: rest =>
      if Nat.leb (snd m') (snd m) then m :: l
      else m' :: insertByCount m rest
  end.

Definition sortByCount (l : list (string * nat)) : list (string * nat) :=
  fold_right insertByCount [] l.

Section Statistics.
Context {V : Type} `{FieldInference.JsValue V}.
(** The value of a finite number; the minimum and the maximum compare
    these values, so the sign of a zero is not told apart. *)
Variable numberOf : V -> Q.
(** [calculateFieldStats(values, type)]. *)
Definition calculateFieldStats (values : list V) (type : FieldType)
  : FieldStats :=
  let validValues := filter FieldInference.isValid values in
  let nulls := (List.length values - List.length validValues)%nat in
  let nums := map numberOf (filter FieldInference.isFiniteNumber validValues) in
  {| stat_nulls := nulls;
     stat_unique := FieldInference.setSize (map FieldInference.toString validValues);
     stat_min :=
       match type, nums with
       | quantitative, n :: ns => Some (fold_left Qmin ns n)
       | _, _ => None
       end;
     stat_max :=
       match type, nums with
       | quantitative, n :: ns => Some (fold_left Qmax ns n)
       | _, _ => None
       end;
     (* Calculate top values for categorical fields *)
     stat_topValues :=
       match type with
       | nominal | ordinal =>
           let counts :=
             fold_left (fun counts v => countKey counts (FieldInference.toString v))
                       validValues [] in
           Some (Js.slice (sortByCount counts) 0 10)
       | _ => None
       end |}.
End Statistics.

(* ================================================================== *)
(** * Part XIV.  The panel handlers ([components/panels])              *)
(* ================================================================== *)

(** The result of [applyPlan] passed where a [Partial<BuilderState>] is
    expected: an optional property is present exactly when it holds a
    value, since the JSON copy of [applyPlan] drops the properties that
    hold [undefined] and its operations assign values only. *)
Definition asPartial (b : BuilderState) : PartialBuilderState :=
  {| p_mark := Some (mark b); p_encodings := Some (encodings b);
     p_transforms := Some (transforms b);
     p_width := setWhenDefined (width b);
     p_height := setWhenDefined (height b);
     p_title := setWhenDefined (title b);
     p_description := setWhenDefined (description b);
     p_background := setWhenDefined (background b);
     p_padding := setWhenDefined (padding b) |}.

(** [handleApplyCommand()] of the AI panel in its regex mode: plan, apply,
    capture, store.  [confirmed] is the answer to the dialog that warns of
    a custom spec. *)
Definition handleApplyCommand (command : string) (confirmed : bool) (now : Z)
  (state : WidgetState) : WidgetState :=
  if negb (Js.truthyStr (Js.trim command)) then state
  else if (isCustomSpec (vegaSpec state) && negb confirmed)%bool then state
  else
    let fieldNames := map name (dataFields state) in
    let plan := NlPlanner.parseNLToPlan command fieldNames (builderState state) in
    let nextState := applyPlan (builderState state) plan (dataFields state) in
    setBuilderState (asPartial nextState)
      (captureSnapshot (Some ("AI: " ++ command)%string) now state).

(** [{ mark: m }] and [{ encodings: e }] as updates. *)
Definition markUpdate (m : MarkConfig) : PartialBuilderState :=
  {| p_mark := Some m; p_encodings := None; p_transforms := None;
     p_width := None; p_height := None; p_title := None;
     p_description := None; p_background := None; p_padding := None |}.

Definition encodingsUpdate (e : Encodings) : PartialBuilderState :=
  {| p_mark := None; p_encodings := Some e; p_transforms := None;
     p_width := None; p_height := None; p_title := None;
     p_description := None; p_background := None; p_padding := None |}.

(** [handlePointToggle(enabled)] of the mark panel. *)
Definition handlePointToggle (enabled : bool) (now : Z) (state : WidgetState)
  : WidgetState :=
  let m := mark (builderState state) in
  setBuilderState
    (markUpdate {| mark_type := mark_type m; mark_point := Some enabled;
                   mark_stacked := mark_stacked m;
                   mark_opacity := mark_opacity m; mark_size := mark_size m;
                   mark_strokeWidth := mark_strokeWidth m;
                   mark_interpolate := mark_interpolate m |})
    (captureSnapshot (Some "Toggle point overlay") now state).

(** A stack mode in a template literal. *)
Definition stackModeName (s : option StackMode) : string :=
  match s with
  | Some stack_zero => "zero"
  | Some stack_normalize => "normalize"
  | None => "null"
  end.

(** [handleStackChange(stacked)] of the mark panel. *)
Definition handleStackChange (stacked : option StackMode) (now : Z)
  (state : WidgetState) : WidgetState :=
  let m := mark (builderState state) in
  setBuilderState
    (markUpdate {| mark_type := mark_type m; mark_point := mark_point m;
                   mark_stacked := stacked;
                   mark_opacity := mark_opacity m; mark_size := mark_size m;
                   mark_strokeWidth := mark_strokeWidth m;
                   mark_interpolate := mark_interpolate m |})
    (captureSnapshot
       (Some ("Change stacking to " ++ stackModeName stacked)%string) now state).

Definition channelName (c : Channel) : string :=
  match c with
  | ch_x => "x" | ch_y => "y" | ch_color => "color" | ch_size => "size"
  end.

(** [handleEncodingUpdate(channel, config)] of the encodings panel. *)
Definition handleEncodingUpdate (channel : Channel)
  (config : option EncodingConfig) (now : Z) (state : WidgetState)
  : WidgetState :=
  setBuilderState
    (encodingsUpdate (setChannel (encodings (builderState state)) channel config))
    (captureSnapshot
       (Some ("Update " ++ channelName channel ++ " encoding")%string) now state).

(** The three handlers of an [EncodingChannel]: what each passes to
    [onUpdate], [None] when it returns without a call. *)
Definition handleFieldChange (dataFields : list DataField)
  (encoding : option EncodingConfig) (field : string)
  : option (option EncodingConfig) :=
  if Js.truthyStr field then
    Some (Some {| enc_field := Some field;
                  enc_type := Some (match getType dataFields field with
                                    | Some t => t
                                    | None => nominal
                                    end);
                  enc_aggregate := match encoding with
                                   | Some e => enc_aggregate e
                                   | None => None
                                   end;
                  enc_sort := match encoding with
                              | Some e => enc_sort e
                              | None => None
                              end;
                  enc_scale := None; enc_timeUnit := None; enc_bin := None;
                  enc_axis := None; enc_legend := None |})
  else Some None.

Definition handleTypeChange (encoding : option EncodingConfig) (type : FieldType)
  : option (option EncodingConfig) :=
  match encoding with
  | None => None
  | Some e =>
      Some (Some {| enc_field := enc_field e; enc_type := Some type;
                    enc_aggregate := enc_aggregate e; enc_sort := enc_sort e;
                    enc_scale := enc_scale e; enc_timeUnit := enc_timeUnit e;
                    enc_bin := enc_bin e; enc_axis := enc_axis e;
                    enc_legend := enc_legend e |})
  end.

(** [aggregate] is [None] for the empty string of the "None" option. *)
Definition handleAggregateChange (encoding : option EncodingConfig)
  (aggregate : option AggregateOp) : option (option EncodingConfig) :=
  match encoding with
  | None => None
  | Some e =>
      Some (Some {| enc_field := enc_field e; enc_type := enc_type e;
                    enc_aggregate := aggregate; enc_sort := enc_sort e;
                    enc_scale := enc_scale e; enc_timeUnit := enc_timeUnit e;
                    enc_bin := enc_bin e; enc_axis := enc_axis e;
                    enc_legend := enc_legend e |})
  end.

(** What a user does in the builder panels and the regex command box.
    A handler is applied whether or not the control that calls it is on
    display, which covers more than the panels allow. *)
Inductive PanelEdit :=
| MarkChange (markType : MarkType)
| PointToggle (enabled : bool)
| StackChange (stacked : option StackMode)
| FieldChange (channel : Channel) (field : string)
| TypeChange (channel : Channel) (type : FieldType)
| AggregateChange (channel : Channel) (aggregate : option AggregateOp)
| RemoveEncoding (channel : Channel)
| ApplyCommand (command : string) (confirmed : bool)
| Undo
| Redo.

(** An [onUpdate] of the channel component, wired to
    [handleEncodingUpdate]. *)
Definition onUpdate (channel : Channel)
  (update : option (option EncodingConfig)) (now : Z) (state : WidgetState)
  : WidgetState :=
  match update with
  | Some config => handleEncodingUpdate channel config now state
  | None => state
  end.

Definition edit (e : PanelEdit) (now : Z) (state : WidgetState)
  : option WidgetState :=
  let encoding c := getChannel (encodings (builderState state)) c in
  match e with
  | MarkChange t => Some (handleMarkChange t now state)
  | PointToggle b => Some (handlePointToggle b now state)
  | StackChange s => Some (handleStackChange s now state)
  | FieldChange c f =>
      Some (onUpdate c (handleFieldChange (dataFields state) (encoding c) f)
                     now state)
  | TypeChange c t => Some (onUpdate c (handleTypeChange (encoding c) t) now state)
  | AggregateChange c a =>
      Some (onUpdate c (handleAggregateChange (encoding c) a) now state)
  | RemoveEncoding c => Some (onUpdate c (Some None) now state)
  | ApplyCommand command confirmed =>
      Some (handleApplyCommand command confirmed now state)
  | Undo => undo state
  | Redo => redo state
  end.

(** A session: edits with the clock reading at each. *)
Fixpoint edits (es : list (PanelEdit * Z)) (state : WidgetState)
  : option WidgetState :=
  match es with
  | [] => Some state
  | (e, now) :: rest =>
      match edit e now state with
      | Some state' => edits rest state'
      | None => None
      end
  end.

(* ================================================================== *)
(** * Part XV.  Further notions and inputs                             *)
(* ================================================================== *)

(** What the decompiler reads back of one transform of the model. *)
Definition survivingTransform (t : ChartTransform) : list ChartTransform :=
  match t with
  | TransformFilter e => if Js.truthyStr e then [t] else []
  | TransformTopN n _ _ =>
      [TransformFilter ("datum.__rank__ <= " ++ numberToString n)%string]
  | TransformCalculate c _ => if Js.truthyStr c then [t] else []
  | TransformAggregate _ _ _ _ => []
  end.

(** The mark of a state with another stack mode, another interpolation. *)
Definition withStacked (b : BuilderState) (s : option StackMode) : BuilderState :=
  let m := mark b in
  withMark b {| mark_type := mark_type m; mark_point := mark_point m;
                mark_stacked := s; mark_opacity := mark_opacity m;
                mark_size := mark_size m; mark_strokeWidth := mark_strokeWidth m;
                mark_interpolate := mark_interpolate m |}.

Definition withInterpolate (b : BuilderState) (i : option Interpolate)
  : BuilderState :=
  let m := mark b in
  withMark b {| mark_type := mark_type m; mark_point := mark_point m;
                mark_stacked := mark_stacked m; mark_opacity := mark_opacity m;
                mark_size := mark_size m; mark_strokeWidth := mark_strokeWidth m;
                mark_interpolate := i |}.

(** The encoding of [buildSpec] before and after the stacking step. *)
Definition plainEncoding (M : BuilderState) (fields : list DataField)
  : SpecEncoding :=
  {| se_x := buildChannel (x (encodings M));
     se_y := buildChannel (y (encodings M));
     se_color := buildChannel (color (encodings M));
     se_size := buildChannel (size (encodings M));
     se_tooltip := buildTooltip (tooltip (encodings M)) fields |}.

Definition compiledEncoding (M : BuilderState) (fields : list DataField)
  : SpecEncoding :=
  applyStacking (mark M) (plainEncoding M fields).

(** The builder state that [parseSpecToBuilderState] reads back from
    [buildSpec(M, fields)]. *)
Definition decompiled (M : BuilderState) (fields : list DataField)
  : BuilderState :=
  {| mark := {| mark_type := mark_type (mark M);
                mark_point := mark_point (mark M);
                mark_stacked :=
                  match stackOf (se_y (compiledEncoding M fields)) with
                  | Some s => Some s
                  | None => stackOf (se_x (compiledEncoding M fields))
                  end;
                mark_opacity := None; mark_size := None;
                mark_strokeWidth := None; mark_interpolate := None |};
     encodings := parseEncodings (buildSpec M fields);
     transforms := parseTransforms (buildSpec M fields);
     width := parseDimension (s_width (buildSpec M fields));
     height := parseDimension (s_height (buildSpec M fields));
     title := readProp (parseTitle (s_title (buildSpec M fields)));
     description := someIfTruthy (s_description (buildSpec M fields));
     background := someIfTruthy (s_background (buildSpec M fields));
     padding := None |}.

(** The operations of the eight matchers, before the plural nudge. *)
Definition matcherOps (lower : string) (fieldNames : list string)
  : list Operation :=
  NlPlanner.markOps lower
  ++ NlPlanner.colorByOps lower fieldNames
  ++ NlPlanner.makeOps lower
  ++ NlPlanner.topNOps lower fieldNames
  ++ NlPlanner.sortOps lower fieldNames
  ++ NlPlanner.altColorOps lower fieldNames
  ++ NlPlanner.titleOps lower
  ++ NlPlanner.schemeOps lower.

(** What the local planner can emit. *)
Definition plannerShape (fieldNames : list string) (o : Operation) : Prop :=
  match o with
  | set_mark _ options =>
      exists pt, options = Some {| opt_point := Some pt; opt_stacked := None |}
  | set_encoding channel field fieldType config =>
      channel = ch_color /\ In field fieldNames /\ field <> EmptyString
      /\ fieldType = None /\ config = None
  | set_series_colors colors => colors <> []
  | set_color_scheme _ => True
  | set_top_n n byField order =>
      0 <= n /\ order = Some descending
      /\ (forall b, byField = Some b -> In b fieldNames /\ b <> EmptyString)
  | set_sort channelOrField by_ _ => channelOrField = "y" /\ by_ <> None
  | set_title _ => True
  | remove_encoding _ | add_filter _ | set_aggregate _ | set_size _ _
  | unknown_op _ => False
  end.

(** [builder.encodings.y?.field]. *)
Definition fieldOf (c : option EncodingConfig) : option string :=
  match c with Some cfg => enc_field cfg | None => None end.

(** What a plan of the local planner leaves alone when it is applied. *)
Definition untouchedByPlanner (b r : BuilderState) : Prop :=
  x (encodings r) = x (encodings b)
  /\ size (encodings r) = size (encodings b)
  /\ tooltip (encodings r) = tooltip (encodings b)
  /\ fieldOf (y (encodings r)) = fieldOf (y (encodings b))
  /\ mark_stacked (mark r) = mark_stacked (mark b)
  /\ mark_opacity (mark r) = mark_opacity (mark b)
  /\ mark_size (mark r) = mark_size (mark b)
  /\ mark_strokeWidth (mark r) = mark_strokeWidth (mark b)
  /\ mark_interpolate (mark r) = mark_interpolate (mark b)
  /\ filter (fun t => negb (isTopN t)) (transforms r)
     = filter (fun t => negb (isTopN t)) (transforms b)
  /\ width r = width b /\ height r = height b
  /\ description r = description b /\ background r = background b
  /\ padding r = padding b.

(** The spec on display and every snapshot's spec are the compilation of
    the model beside them. *)
Definition compiledFromModel (state : WidgetState) : Prop :=
  vegaSpec state = buildSpec (builderState state) (dataFields state)
  /\ Forall (fun s => snap_spec s
                      = buildSpec (snap_builderState s) (dataFields state))
            (history state).

(** The transforms that panel edits and regex commands can reach from an
    empty list: at most one top-N and nothing else. *)
Definition atMostOneTopN (ts : list ChartTransform) : Prop :=
  (List.length ts <= 1)%nat /\ forallb isTopN ts = true.

(** What holds of the store throughout a session of panel edits. *)
Definition panelInvariant (state : WidgetState) : Prop :=
  historyOk state
  /\ compiledFromModel state
  /\ atMostOneTopN (transforms (builderState state))
  /\ Forall (fun s => atMostOneTopN (transforms (snap_builderState s)))
            (history state).

(** No top-level optional property that [b] has is absent from [r]. *)
Definition keepsOptionals (b r : BuilderState) : Prop :=
  (width r = None -> width b = None)
  /\ (height r = None -> height b = None)
  /\ (title r = None -> title b = None)
  /\ (description r = None -> description b = None)
  /\ (background r = None -> background b = None)
  /\ (padding r = None -> padding b = None).

(** The axis that a [set_sort] writes to. *)
Definition sortChannel (channelOrField : string) : Channel :=
  if String.eqb channelOrField "x" then ch_x else ch_y.

Definition isAddFilter (o : Operation) : bool :=
  match o with add_filter _ => true | _ => false end.

(** The ranking field of a [set_top_n]: the one given, else the field of
    y, else the field of x, else the empty string. *)
Definition topNField (b : BuilderState) (byField : option string) : string :=
  match byField with
  | Some f => f
  | None =>
      match Js.nullish (fieldOf (y (encodings b)))
              (Js.nullish (fieldOf (x (encodings b))) (Some EmptyString)) with
      | Some f => f
      | None => EmptyString
      end
  end.

(** The recurrence that the matrix of [levenshteinDistance] tabulates, on
    the two prefixes read backwards: [x] and [y] are their last
    characters. *)
Fixpoint lev (a : list ascii) : list ascii -> nat :=
  fix inner (b : list ascii) : nat :=
    match a, b with
    | [], _ => List.length b
    | _, [] => List.length a
    | x :: a', y :: b' =>
        if Ascii.eqb y x then lev a' b'
        else Nat.min (lev a' b' + 1) (Nat.min (lev a' b + 1) (inner b' + 1))
    end.

(** The prefixes of [a] that extend the prefix [rpa], each backwards. *)
Fixpoint prefixesAfter (rpa : list ascii) (a : string) : list (list ascii) :=
  match a with
  | EmptyString => []
  | String c a' => (c :: rpa) :: prefixesAfter (c :: rpa) a'
  end.

(** The row of the matrix for the prefix [rpb] of [b]. *)
Definition rowOf (a : string) (rpb : list ascii) : list nat :=
  lev [] rpb :: map (fun s => lev s rpb) (prefixesAfter [] a).

(** The count that a [Map] of counts holds for a key, [0] when it has
    none. *)
Definition countOf (counts : list (string * nat)) (k : string) : nat :=
  match JsObject.get counts k with Some c => c | None => 0%nat end.

(** A scatter plot: a mark that neither stacks nor interpolates. *)
Definition scatterPlot : BuilderState :=
  {| mark := {| mark_type := point; mark_point := None; mark_stacked := None;
                mark_opacity := None; mark_size := None;
                mark_strokeWidth := None; mark_interpolate := None |};
     encodings :=
       {| x := Some (fieldEncoding "Sales" (Some quantitative));
          y := Some (fieldEncoding "Sales" (Some quantitative));
          color := None; size := None; tooltip := Some TooltipAuto |};
     transforms := [TransformFilter "datum.Sales > 100"];
     width := Some (DimNumber 400); height := Some (DimNumber 360);
     title := Some "Sales"; description := None; background := None;
     padding := None |}.

(** A bar chart whose title is an object without text:
    [{"mark": "bar", "title": {}}]. *)
Definition emptyTitleSpec : Spec :=
  {| s_schema := None; s_width := None; s_height := None;
     s_data := None;
     s_mark := Some (MarkName bar); s_encoding := None; s_config := None;
     s_transform := None; s_title := Some (TitleParams None);
     s_description := None; s_background := None; s_padding := None;
     s_facet := None; s_layer := None; s_hconcat := None; s_vconcat := None;
     s_repeat := None |}.

(** The store after two changes of the mark type: two snapshots, the
    cursor on the second. *)
Definition twoMarkChanges : WidgetState :=
  handleMarkChange area 2 (handleMarkChange line 1 (initialState salesFields)).

(** A column with a null cell, and the same values in another order. *)
Definition columnWithNull : list Cell :=
  [CellNumber 1; CellNull; CellString "a"].
Definition columnReordered : list Cell :=
  [CellString "a"; CellNumber 1].

(** The number in a cell. *)
Definition cellNumber (c : Cell) : Q :=
  match c with CellNumber n => inject_Z n | _ => 0%Q end.

(** A categorical column with a null cell. *)
Definition regionColumn : list Cell :=
  [CellString "West"; CellString "East"; CellNull; CellString "East"].

(* ================================================================== *)
(** * Properties                                                       *)
(* ================================================================== *)

(** ** The history manager *)

Lemma slice_0_le {A} (l : list A) (k : Z) :
  0 <= k <= Z.of_nat (List.length l) ->
  Js.slice l 0 k = firstn (Z.to_nat k) l.
Proof.
  intros Hk. unfold Js.slice, Js.relIndex.
  replace (0 <? 0) with false by reflexivity.
  destruct (k <? 0) eqn:E; [apply Z.ltb_lt in E; lia|].
  rewrite Z.min_l by lia. rewrite Z.min_l by lia.
  rewrite Z.sub_0_r. reflexivity.
Qed.

Lemma sliceFrom_lastN {A} (l : list A) (n : nat) :
  (0 < n)%nat -> Js.sliceFrom l (- Z.of_nat n) = lastN n l.
Proof.
  intros Hn. unfold Js.sliceFrom, Js.slice, Js.relIndex, lastN.
  destruct (- Z.of_nat n <? 0) eqn:E; [|apply Z.ltb_ge in E; lia].
  destruct (Z.of_nat (List.length l) <? 0) eqn:E2; [apply Z.ltb_lt in E2; lia|].
  rewrite Z.min_id.
  replace (Z.to_nat (Z.max (Z.of_nat (List.length l) + - Z.of_nat n) 0))
    with (List.length l - n)%nat by lia.
  apply firstn_all2. rewrite length_skipn. lia.
Qed.

Lemma lastN_short {A} (n : nat) (l : list A) :
  (List.length l <= n)%nat -> lastN n l = l.
Proof. intros. unfold lastN. replace (List.length l - n)%nat with 0%nat by lia. reflexivity. Qed.

Lemma lastN_length {A} (n : nat) (l : list A) :
  (List.length (lastN n l) <= n)%nat.
Proof. unfold lastN. rewrite length_skipn. lia. Qed.

Lemma lastN_app_lastN {A} (n : nat) (l r : list A) :
  lastN n (lastN n l ++ r) = lastN n (l ++ r).
Proof.
  unfold lastN. rewrite !length_app, length_skipn.
  rewrite !skipn_app, length_skipn, skipn_skipn.
  f_equal.
  - f_equal. lia.
  - f_equal. lia.
Qed.

(** The history after a capture, when the cursor is on the last entry. *)
Lemma capture_history d now st :
  historyIndex st = Z.of_nat (List.length (history st)) - 1 ->
  history (captureSnapshot d now st) = lastN 50 (history st ++ [snapshotOf d now st])
  /\ historyIndex (captureSnapshot d now st)
     = Z.of_nat (List.length (history (captureSnapshot d now st))) - 1.
Proof.
  intros Hi. unfold captureSnapshot. cbn [history historyIndex].
  rewrite Hi. replace (Z.of_nat (List.length (history st)) - 1 + 1) with (Z.of_nat (List.length (history st))) by lia.
  rewrite slice_0_le by lia. rewrite Nat2Z.id, firstn_all.
  destruct (50 <? _) eqn:E.
  - change (-50) with (- Z.of_nat 50). rewrite sliceFrom_lastN by lia. split; reflexivity.
  - apply Z.ltb_ge in E. rewrite lastN_short by lia. split; reflexivity.
Qed.

Lemma capture_ok d now st : historyOk st -> historyOk (captureSnapshot d now st).
Proof.
  intros [Hlen Hidx]. unfold historyOk, captureSnapshot. cbn [history historyIndex].
  rewrite slice_0_le by lia.
  set (h2 := firstn _ _ ++ _).
  assert (Hh2 : (1 <= List.length h2 <= 51)%nat).
  { subst h2. rewrite length_app, length_firstn. cbn. lia. }
  destruct (50 <? _) eqn:E.
  - change (-50) with (- Z.of_nat 50). rewrite sliceFrom_lastN by lia.
    apply Z.ltb_lt in E. unfold lastN. rewrite length_skipn. lia.
  - apply Z.ltb_ge in E. lia.
Qed.

Lemma restoreAt_ok st i :
  historyOk st -> 0 <= i < Z.of_nat (List.length (history st)) ->
  exists st', restoreAt st i = Some st' /\ historyOk st'.
Proof.
  intros [Hlen Hidx] Hi. unfold restoreAt, historyAt.
  destruct (i <? 0) eqn:E; [apply Z.ltb_lt in E; lia|].
  destruct (nth_error (history st) (Z.to_nat i)) eqn:N.
  - eexists. split; [reflexivity|]. unfold historyOk. cbn. lia.
  - apply nth_error_None in N. lia.
Qed.

Lemma call_ok c st : historyOk st -> exists st', call c st = Some st' /\ historyOk st'.
Proof.
  intros Hok. destruct c; cbn [call].
  - eexists; split; [reflexivity|]. now apply capture_ok.
  - eexists; split; [reflexivity|]. exact Hok.
  - eexists; split; [reflexivity|]. exact Hok.
  - unfold undo. destruct (0 <? historyIndex st) eqn:E.
    + apply Z.ltb_lt in E. apply restoreAt_ok; [exact Hok|]. destruct Hok. lia.
    + eexists; split; [reflexivity|exact Hok].
  - unfold redo. destruct (historyIndex st <? _) eqn:E.
    + apply Z.ltb_lt in E. apply restoreAt_ok; [exact Hok|]. destruct Hok. lia.
    + eexists; split; [reflexivity|exact Hok].
Qed.

Lemma calls_ok cs : forall st, historyOk st -> exists st', calls cs st = Some st' /\ historyOk st'.
Proof.
  induction cs as [|c cs IH]; intros st Hok; cbn [calls].
  - eauto.
  - destruct (call_ok c st Hok) as [st1 [-> Hok1]]. now apply IH.
Qed.

Lemma initial_ok fields : historyOk (initialState fields).
Proof. unfold historyOk. cbn. lia. Qed.

Lemma calls_retained cs : forall st,
  forallb (fun c => negb (isUndoRedo c)) cs = true ->
  (List.length (history st) <= 50)%nat ->
  historyIndex st = Z.of_nat (List.length (history st)) - 1 ->
  exists st', calls cs st = Some st'
    /\ history st' = lastN 50 (history st ++ snapshotsTaken cs st)
    /\ historyIndex st' = Z.of_nat (List.length (history st')) - 1.
Proof.
  induction cs as [|c cs IH]; intros st Hcs Hlen Hi.
  - exists st. cbn [calls snapshotsTaken]. rewrite app_nil_r, lastN_short by lia. auto.
  - cbn [forallb] in Hcs. apply andb_true_iff in Hcs as [Hc Hcs].
    cbn [calls snapshotsTaken].
    destruct c as [d now | updates | spec bs | | ];
      cbn [isUndoRedo negb] in Hc; try discriminate; cbn [call].
    + destruct (capture_history d now st Hi) as [Hh Hi'].
      destruct (IH (captureSnapshot d now st) Hcs) as [st' [Hrun [Hh' Hi'']]].
      * rewrite Hh. apply lastN_length.
      * exact Hi'.
      * exists st'. split; [exact Hrun|]. split; [|exact Hi''].
        rewrite Hh', Hh, lastN_app_lastN, <- app_assoc. reflexivity.
    + destruct (IH (setBuilderState updates st) Hcs Hlen Hi) as [st' [Hrun [Hh' Hi'']]].
      exists st'. auto.
    + destruct (IH (setSpec spec bs st) Hcs Hlen Hi) as [st' [Hrun [Hh' Hi'']]].
      exists st'. auto.
Qed.

(** Claim C3.  From the store as created, every sequence of calls
    (captures, setters, undo, redo) runs without raising and leaves a stack
    of at most 50 snapshots with the cursor inside it; a sequence without
    undo and redo leaves exactly the last 50 snapshots its captures took,
    in the order taken, with the cursor on the newest (so the oldest are
    the ones evicted once more than 50 were taken). *)
Theorem history_bounded_recent_retained : forall fields,
  (forall cs, exists st, calls cs (initialState fields) = Some st /\ historyOk st)
  /\ (forall cs, forallb (fun c => negb (isUndoRedo c)) cs = true ->
        exists st, calls cs (initialState fields) = Some st
          /\ history st = lastN 50 (snapshotsTaken cs (initialState fields))
          /\ historyIndex st = Z.of_nat (List.length (history st)) - 1).
Proof.
  intros fields. split.
  - intros cs. apply calls_ok, initial_ok.
  - intros cs Hcs.
    destruct (calls_retained cs (initialState fields) Hcs) as [st [Hrun [Hh Hi]]];
      [cbn; lia | reflexivity |].
    exists st. auto.
Qed.

(** The retention property at fifty-one captures. *)
Lemma history_bounded_recent_retained_witness :
  exists st, calls fiftyOneCaptures (initialState []) = Some st
    /\ history st = lastN 50 (snapshotsTaken fiftyOneCaptures (initialState []))
    /\ historyIndex st = Z.of_nat (List.length (history st)) - 1.
Proof.
  apply (proj2 (history_bounded_recent_retained [])). vm_compute. reflexivity.
Defined.

(** Claim C2 (the code departs from it).  On the store as created, the
    mark panel's capture-then-mutate followed by [undo] leaves the mutated
    model ([line], not the captured [bar]): the cursor is 0 and [undo] does
    nothing.  After a second capture-then-mutate, [undo] restores the
    snapshot before the captured state ([bar], where [line] was captured)
    and [redo] then restores the captured state ([line]), not the mutated
    one ([area]). *)
Theorem undo_misses_captured_state : forall fields now1 now2,
  let s0 := initialState fields in
  let s1 := handleMarkChange line now1 s0 in
  let s2 := handleMarkChange area now2 s1 in
  mark_type (mark (builderState s0)) = bar
  /\ mark_type (mark (builderState s1)) = line
  /\ undo s1 = Some s1
  /\ (exists s3, undo s2 = Some s3
        /\ mark_type (mark (builderState s3)) = bar
        /\ exists s4, redo s3 = Some s4
             /\ mark_type (mark (builderState s4)) = line).
Proof.
  intros. repeat split.
  eexists. split; [reflexivity|]. split; [reflexivity|].
  eexists. split; reflexivity.
Qed.

(** ** The compiler: stacking *)

Lemma buildChannel_quantitative e :
  isQuantitative (buildChannel e) = carriesQuantitative e.
Proof.
  unfold isQuantitative, buildChannel, carriesQuantitative.
  destruct e as [c|]; [|reflexivity].
  destruct (Js.truthyOptStr (enc_field c)); [|reflexivity].
  cbn. destruct (enc_type c) as [[]|]; reflexivity.
Qed.

Lemma buildChannel_no_stack e : stackOf (buildChannel e) = None.
Proof.
  unfold stackOf, buildChannel. destruct e as [c|]; [|reflexivity].
  destruct (Js.truthyOptStr (enc_field c)); reflexivity.
Qed.

Lemma buildTooltip_no_stack t fields :
  Forall (fun o => o = None) (tooltipStacks (buildTooltip t fields)).
Proof.
  unfold tooltipStacks, buildTooltip.
  destruct t as [[| |entries]|]; try constructor;
    rewrite map_map; apply Forall_forall; intros o Hin;
    apply in_map_iff in Hin as [? [<- _]]; reflexivity.
Qed.

Lemma withStack_stack s c :
  isQuantitative c = true -> stackOf (option_map (withStack s) c) = Some s.
Proof. destruct c; [reflexivity|discriminate]. Qed.

(** Claim C7.  When [stackMode] is set and the mark is a bar or an area,
    the compiled encoding carries the stack directive on the y channel if
    the y channel carries a quantitative type (whatever the x channel);
    otherwise on the x channel if that one does; otherwise on no channel
    at all.  The color, size and tooltip channels never carry one. *)
Theorem stacking_attaches_to_quantitative_axis : forall state fields s,
  mark_stacked (mark state) = Some s ->
  isBarOrArea (mark_type (mark state)) = true ->
  exists e, s_encoding (buildSpec state fields) = Some e
    /\ (carriesQuantitative (y (encodings state)) = true ->
        stackOf (se_y e) = Some s /\ stackOf (se_x e) = None)
    /\ (carriesQuantitative (y (encodings state)) = false ->
        carriesQuantitative (x (encodings state)) = true ->
        stackOf (se_x e) = Some s /\ stackOf (se_y e) = None)
    /\ (carriesQuantitative (y (encodings state)) = false ->
        carriesQuantitative (x (encodings state)) = false ->
        Forall (fun o => o = None) (allStacks e))
    /\ stackOf (se_color e) = None
    /\ stackOf (se_size e) = None
    /\ Forall (fun o => o = None) (tooltipStacks (se_tooltip e)).
Proof.
  intros state fields s Hs Hm.
  eexists. split; [reflexivity|].
  unfold applyStacking. rewrite Hs, Hm. cbn [se_x se_y].
  rewrite !buildChannel_quantitative.
  destruct (carriesQuantitative (y (encodings state))) eqn:Ey;
    [|destruct (carriesQuantitative (x (encodings state))) eqn:Ex];
    cbn [se_x se_y se_color se_size se_tooltip];
    repeat split; intros; try discriminate;
    rewrite ?buildChannel_no_stack; try reflexivity;
    try apply buildTooltip_no_stack.
  - apply withStack_stack. now rewrite buildChannel_quantitative.
  - apply withStack_stack. now rewrite buildChannel_quantitative.
  - unfold allStacks. cbn [se_x se_y se_color se_size se_tooltip].
    rewrite !buildChannel_no_stack.
    repeat constructor. apply buildTooltip_no_stack.
Qed.

(** Stacked bars: the directive is on y, not on x. *)
Lemma stacking_attaches_to_quantitative_axis_witness :
  exists e, s_encoding (buildSpec stackedBars []) = Some e
    /\ stackOf (se_y e) = Some stack_zero /\ stackOf (se_x e) = None.
Proof.
  destruct (stacking_attaches_to_quantitative_axis stackedBars [] stack_zero
              eq_refl eq_refl) as [e [He [Hy _]]].
  exists e. split; [exact He|]. apply Hy. reflexivity.
Defined.

(** ** The custom-spec classifier *)









(** The compiled stacked bars are not custom. *)
Example compiled_spec_not_custom :
  isCustomSpec (buildSpec stackedBars salesFields) = false.
Proof. reflexivity. Qed.

(** ** The round trip through the decompiler *)

Lemma rebuild_encoding_channel c :
  Js.truthyOptStr (enc_field c) = true ->
  buildEncodingChannel (parseEncodingChannel (buildEncodingChannel c))
  = buildEncodingChannel c.
Proof.
  intros Hf. unfold buildEncodingChannel, parseEncodingChannel.
  cbn [ch_field ch_type ch_aggregate ch_bin ch_timeUnit ch_sort ch_scale
       ch_axis ch_legend enc_field enc_type enc_aggregate enc_bin
       enc_timeUnit enc_sort enc_scale enc_axis enc_legend].
  rewrite Hf.
  destruct (enc_scale c) as [[]|], (enc_axis c) as [[]|], (enc_legend c) as [[]|];
    reflexivity.
Qed.

Lemma parse_ignores_stack s ch :
  parseEncodingChannel (withStack s ch) = parseEncodingChannel ch.
Proof. reflexivity. Qed.

Lemma parse_keeps_field c :
  Js.truthyOptStr (enc_field c) = true ->
  Js.truthyOptStr (enc_field (parseEncodingChannel (buildEncodingChannel c))) = true.
Proof.
  intros Hf. unfold parseEncodingChannel, buildEncodingChannel.
  cbn [enc_field ch_field]. rewrite Hf. exact Hf.
Qed.

Lemma rebuild_channel e :
  buildChannel (option_map parseEncodingChannel (buildChannel e)) = buildChannel e.
Proof.
  destruct e as [c|]; [|reflexivity]. unfold buildChannel at 2 3.
  destruct (Js.truthyOptStr (enc_field c)) eqn:Hf; [|reflexivity].
  cbn [option_map buildChannel].
  rewrite parse_keeps_field, rebuild_encoding_channel by exact Hf. reflexivity.
Qed.

Lemma rebuild_stacked_channel s e :
  buildChannel (option_map parseEncodingChannel
                  (option_map (withStack s) (buildChannel e)))
  = buildChannel e.
Proof.
  rewrite <- (rebuild_channel e) at 2.
  destruct (buildChannel e); reflexivity.
Qed.

Lemma rebuild_transforms ts :
  forallb hasExpression ts = true ->
  flat_map parseTransform (flat_map buildTransform ts) = ts.
Proof.
  induction ts as [|t ts IH]; [reflexivity|].
  cbn [forallb]. intros H. apply andb_true_iff in H as [Ht Hts].
  cbn [flat_map]. rewrite flat_map_app, IH by exact Hts.
  destruct t as [e|n b o|c a|g ops fs a]; cbn in Ht; try discriminate.
  - destruct e; [discriminate|]. reflexivity.
  - destruct c; [discriminate|]. reflexivity.
Qed.

Lemma rebuild_tooltip t fields :
  tooltipKept t fields = true ->
  buildTooltip
    (match buildTooltip t fields with
     | Some (SpecTooltipArray entries) =>
         Some (TooltipList (map parseEncodingChannel entries))
     | Some (SpecTooltipValue _) => Some TooltipAuto
     | None => None
     end) fields
  = buildTooltip t fields.
Proof.
  intros Hk. destruct t as [[| |entries]|]; try reflexivity; cbn in Hk |- *.
  - do 2 f_equal. rewrite !map_map. apply map_ext_in. intros f Hin.
    rewrite forallb_forall in Hk. specialize (Hk f Hin).
    unfold parseEncodingChannel. cbn. rewrite Hk. reflexivity.
  - do 2 f_equal. rewrite !map_map. apply map_ext_in. intros c Hin.
    rewrite forallb_forall in Hk. specialize (Hk c Hin).
    unfold tooltipEntryKept in Hk. apply andb_true_iff in Hk as [Hf Ha].
    unfold parseEncodingChannel. cbn.
    destruct (enc_field c) as [f|]; cbn.
    + rewrite Hf. destruct (enc_axis c) as [a|]; [|reflexivity].
      destruct (axis_format a); [discriminate|reflexivity].
    + destruct (enc_axis c) as [a|]; [|reflexivity].
      destruct (axis_format a); [discriminate|reflexivity].
Qed.

Lemma rebuild_encoding m e fields :
  tooltipKept (tooltip e) fields = true ->
  let enc1 := {| se_x := buildChannel (x e); se_y := buildChannel (y e);
                 se_color := buildChannel (color e);
                 se_size := buildChannel (size e);
                 se_tooltip := buildTooltip (tooltip e) fields |} in
  let E1 := applyStacking m enc1 in
  let m' := {| mark_type := mark_type m; mark_point := mark_point m;
               mark_stacked := match stackOf (se_y E1) with
                               | Some s => Some s
                               | None => stackOf (se_x E1)
                               end;
               mark_opacity := None; mark_size := None;
               mark_strokeWidth := None; mark_interpolate := None |} in
  applyStacking m'
    {| se_x := buildChannel (option_map parseEncodingChannel (se_x E1));
       se_y := buildChannel (option_map parseEncodingChannel (se_y E1));
       se_color := buildChannel (option_map parseEncodingChannel (se_color E1));
       se_size := buildChannel (option_map parseEncodingChannel (se_size E1));
       se_tooltip :=
         buildTooltip
           (match se_tooltip E1 with
            | Some (SpecTooltipArray entries) =>
                Some (TooltipList (map parseEncodingChannel entries))
            | Some (SpecTooltipValue _) => Some TooltipAuto
            | None => None
            end) fields |}
  = E1.
Proof.
  intros Hk enc1 E1 m'. subst m'.
  assert (Hx0 : stackOf (se_x enc1) = None) by apply buildChannel_no_stack.
  assert (Hy0 : stackOf (se_y enc1) = None) by apply buildChannel_no_stack.
  assert (Hrebuilt :
    {| se_x := buildChannel (option_map parseEncodingChannel (se_x enc1));
       se_y := buildChannel (option_map parseEncodingChannel (se_y enc1));
       se_color := buildChannel (option_map parseEncodingChannel (se_color enc1));
       se_size := buildChannel (option_map parseEncodingChannel (se_size enc1));
       se_tooltip :=
         buildTooltip
           (match se_tooltip enc1 with
            | Some (SpecTooltipArray entries) =>
                Some (TooltipList (map parseEncodingChannel entries))
            | Some (SpecTooltipValue _) => Some TooltipAuto
            | None => None
            end) fields |} = enc1).
  { subst enc1. cbn [se_x se_y se_color se_size se_tooltip].
    rewrite !rebuild_channel, rebuild_tooltip by exact Hk. reflexivity. }
  assert (Hcases :
    (E1 = enc1)
    \/ (exists s, mark_stacked m = Some s /\ isBarOrArea (mark_type m) = true
          /\ isQuantitative (se_y enc1) = true
          /\ E1 = {| se_x := se_x enc1;
                     se_y := option_map (withStack s) (se_y enc1);
                     se_color := se_color enc1; se_size := se_size enc1;
                     se_tooltip := se_tooltip enc1 |})
    \/ (exists s, mark_stacked m = Some s /\ isBarOrArea (mark_type m) = true
          /\ isQuantitative (se_y enc1) = false
          /\ isQuantitative (se_x enc1) = true
          /\ E1 = {| se_x := option_map (withStack s) (se_x enc1);
                     se_y := se_y enc1;
                     se_color := se_color enc1; se_size := se_size enc1;
                     se_tooltip := se_tooltip enc1 |})).
  { subst E1. unfold applyStacking.
    destruct (mark_stacked m) as [s|]; [|now left].
    destruct (isBarOrArea (mark_type m)); [|now left].
    destruct (isQuantitative (se_y enc1)) eqn:Hy.
    - right. left. exists s. auto.
    - destruct (isQuantitative (se_x enc1)) eqn:Hx; [|now left].
      right. right. exists s. auto. }
  clearbody E1.
  destruct Hcases as [-> | [[s [Hs [Hm [Hy ->]]]] | [s [Hs [Hm [Hy [Hx ->]]]]]]].
  - rewrite Hx0, Hy0, Hrebuilt. unfold applyStacking. reflexivity.
  - cbn [se_x se_y se_color se_size se_tooltip].
    rewrite withStack_stack by exact Hy.
    replace (buildChannel (option_map parseEncodingChannel
                             (option_map (withStack s) (se_y enc1))))
      with (buildChannel (option_map parseEncodingChannel (se_y enc1)))
      by (destruct (se_y enc1); reflexivity).
    rewrite Hrebuilt. unfold applyStacking.
    cbn [mark_stacked mark_type]. rewrite Hm, Hy. reflexivity.
  - cbn [se_x se_y se_color se_size se_tooltip].
    rewrite Hy0, withStack_stack by exact Hx.
    replace (buildChannel (option_map parseEncodingChannel
                             (option_map (withStack s) (se_x enc1))))
      with (buildChannel (option_map parseEncodingChannel (se_x enc1)))
      by (destruct (se_x enc1); reflexivity).
    rewrite Hrebuilt. unfold applyStacking.
    cbn [mark_stacked mark_type]. rewrite Hm, Hy, Hx. reflexivity.
Qed.

Lemma parse_build_transforms M fields :
  forallb hasExpression (transforms M) = true ->
  parseTransforms (buildSpec M fields) = transforms M.
Proof.
  intros H. unfold parseTransforms, buildSpec. cbn [s_transform].
  pose proof (rebuild_transforms _ H) as R. unfold buildTransforms.
  destruct (flat_map buildTransform (transforms M)) as [|t r] eqn:E.
  - exact R.
  - exact R.
Qed.

(** Claim C1, amended.  For every builder state whose transforms are
    filters and calculates with a non-empty expression and whose tooltip is
    read back whole, and every field list, decompiling the compiled spec
    gives a complete builder state, and compiling that again agrees with
    the first compilation on every covered field. *)
Theorem compile_decompile_compile : forall M fields,
  forallb hasExpression (transforms M) = true ->
  tooltipKept (tooltip (encodings M)) fields = true ->
  roundTrips M fields.
Proof.
  intros M fields Ht Hk.
  eexists. split; [reflexivity|].
  unfold coveredEq. repeat split.
  - unfold buildSpec. cbn [s_encoding]. f_equal.
    cbn [mark encodings parseSpecToBuilderState asBuilderState p_mark p_encodings
         p_transforms parseMark parseEncodings s_mark s_encoding x y color size
         tooltip mark_type mark_point mark_stacked md_type md_point].
    apply (rebuild_encoding (mark M) (encodings M) fields Hk).
  - unfold buildSpec at 1. cbn [s_transform transforms p_transforms parseSpecToBuilderState].
    rewrite (parse_build_transforms M fields Ht). reflexivity.
  - cbn. destruct (width M) as [[n|]|]; reflexivity.
  - cbn. destruct (height M) as [[n|]|]; reflexivity.
  - cbn. destruct (title M) as [[|c t]|]; reflexivity.
  - cbn. destruct (description M) as [[|c t]|]; reflexivity.
  - cbn. destruct (background M) as [[|c t]|]; reflexivity.
Qed.

(** Claim C1 as stated fails: a filter with an empty expression is dropped
    by the decompiler, the number format of a tooltip entry is not read
    back, and neither is an empty field name of an automatic tooltip. *)
Lemma round_trip_counterexample :
  (representable emptyFilterModel /\ ~ roundTrips emptyFilterModel salesFields)
  /\ (representable formattedTooltipModel
      /\ ~ roundTrips formattedTooltipModel salesFields)
  /\ (representable getDefaultBuilderState
      /\ ~ roundTrips getDefaultBuilderState unnamedField).
Proof.
  repeat split; try (cbn; lia).
  - intros [M' [HM' (_ & _ & _ & Ht & _)]].
    inversion HM'; subst M'. vm_compute in Ht. discriminate.
  - intros [M' [HM' (_ & _ & He & _)]].
    inversion HM'; subst M'. vm_compute in He. discriminate.
  - intros [M' [HM' (_ & _ & He & _)]].
    inversion HM'; subst M'. vm_compute in He. discriminate.
Qed.

(** The stacked bar chart survives the round trip. *)
Lemma compile_decompile_compile_witness : roundTrips stackedBars salesFields.
Proof.
  apply (compile_decompile_compile stackedBars salesFields); reflexivity.
Defined.

(** ** The planner on concrete commands *)

Example plan_change_to_line :
  operations (NlPlanner.parseNLToPlan "change to line chart"
                (map name salesFields) getDefaultBuilderState)
  = [set_mark line (Some {| opt_point := Some false; opt_stacked := None |})].
Proof. vm_compute. reflexivity. Qed.

Example plan_series_colors :
  operations (NlPlanner.parseNLToPlan "make West blue and East orange"
                (map name salesFields) getDefaultBuilderState)
  = [set_series_colors [("West", JStr "#1f77b4"); ("East", JStr "#ff7f0e")]].
Proof. vm_compute. reflexivity. Qed.

Example plan_two_matchers :
  operations (NlPlanner.parseNLToPlan "Change to line chart and color by region"
                (map name salesFields) getDefaultBuilderState)
  = [set_mark line (Some {| opt_point := Some false; opt_stacked := None |});
     set_encoding ch_color "Region" None None].
Proof. vm_compute. reflexivity. Qed.

Example plan_nothing_matches :
  let plan := NlPlanner.parseNLToPlan "hello" (map name salesFields)
                getDefaultBuilderState in
  operations plan = [] /\ confidence plan = 0.6%float.
Proof. split; vm_compute; reflexivity. Qed.

Example object_keys_order :
  JsObject.keys [("b", 1); ("10", 2); ("a", 3); ("2", 4)] = ["2"; "10"; "b"; "a"].
Proof. vm_compute. reflexivity. Qed.

Example levenshtein_kitten_sitting :
  FieldInference.levenshteinDistance "kitten" "sitting" = 3%nat.
Proof. vm_compute. reflexivity. Qed.

(** Claim C6, amended.  The command "top 10 by Sales" over the fields
    Category, Sales, Region yields the single operation
    [set_top_n 10 (by Sales, descending)], whatever the builder state, and
    the confidence is what [Math.min(1, 0.6 + 1 * 0.08)] is in binary64:
    the double [0.6799999999999999], whose successor is the double
    [0.68]. *)
Theorem top_10_by_sales_plan : forall builder,
  let plan := NlPlanner.parseNLToPlan "top 10 by Sales"
                ["Category"; "Sales"; "Region"] builder in
  operations plan = [set_top_n 10 (Some "Sales") (Some descending)]
  /\ confidence plan = NlPlanner.confidenceOf 1
  /\ confidence plan = 0.6799999999999999%float
  /\ next_up (confidence plan) = 0.68%float.
Proof.
  intros builder. split; [|split; [|split]]; vm_compute; reflexivity.
Qed.

(** Claim C6 as stated fails: the confidence of that plan is not the
    double [0.68] ([plan.confidence === 0.68] is [false]); it is below
    it. *)
Lemma top_10_by_sales_counterexample :
  let plan := NlPlanner.parseNLToPlan "top 10 by Sales"
                ["Category"; "Sales"; "Region"] getDefaultBuilderState in
  operations plan = [set_top_n 10 (Some "Sales") (Some descending)]
  /\ confidence plan <> 0.68%float
  /\ (confidence plan =? 0.68)%float = false
  /\ (confidence plan <? 0.68)%float = true.
Proof.
  split; [vm_compute; reflexivity|]. split; [|split; vm_compute; reflexivity].
  vm_compute. intros H. discriminate H.
Qed.

(** Whatever the planner's [resolveField] returns, it returns by one of
    its three rules: the candidate itself, a name equal to it up to case,
    or a name that contains it up to case. *)
Lemma planner_resolveField_rules candidate fieldNames f :
  NlPlanner.resolveField candidate fieldNames = Some f ->
  f = candidate
  \/ Js.toLowerCase f = Js.toLowerCase candidate
  \/ Js.includes (Js.toLowerCase f) (Js.toLowerCase candidate) = true.
Proof.
  unfold NlPlanner.resolveField, Js.find.
  destruct (Js.arrayIncludes fieldNames candidate).
  - intros H. inversion H. now left.
  - assert (Hcontains :
      find (fun g => Js.includes (Js.toLowerCase g) (Js.toLowerCase candidate))
           fieldNames = Some f ->
      Js.includes (Js.toLowerCase f) (Js.toLowerCase candidate) = true).
    { intros H. now apply find_some in H as [_ H]. }
    destruct (find (fun g => String.eqb (Js.toLowerCase g) (Js.toLowerCase candidate))
                   fieldNames) as [ci|] eqn:E.
    + destruct (Js.truthyStr ci).
      * intros H. inversion H; subst ci. apply find_some in E as [_ E].
        right. left. now apply String.eqb_eq in E.
      * intros H. right. right. now apply Hcontains.
    + intros H. right. right. now apply Hcontains.
Qed.

(** Claim C4 (the code departs from it).  The candidate ["salez"] is at
    edit distance 1 from the only close field name, ["Sales"], and matches
    no earlier rule.  The planner's [resolveField] has no edit-distance
    step and returns [undefined], so "top 5 by Salez" plans a top-N
    without a field; the [resolveField] of the field inference, which has
    the step, resolves the same candidate to [Sales]. *)
Theorem planner_resolveField_lacks_edit_distance : forall builder,
  FieldInference.levenshteinDistance "salez" "sales" = 1%nat
  /\ NlPlanner.resolveField "salez" (map name salesFields) = None
  /\ option_map name (FieldInference.resolveField "salez" salesFields) = Some "Sales"
  /\ operations (NlPlanner.parseNLToPlan "top 5 by Salez" (map name salesFields) builder)
     = [set_top_n 5 None (Some descending)].
Proof.
  intros builder. repeat split; vm_compute; reflexivity.
Qed.

(** ** The plan applier *)

(** Claim C10.  When neither the x nor the y channel carries a field,
    applying a plan that consists of a [set_top_n] without [byField]
    leaves the transforms of the input minus its top-N transforms: none is
    added, so no top-N transform remains. *)
Theorem set_top_n_without_field_clears_topN :
  forall dataFields builder plan n order,
    operations plan = [set_top_n n None order] ->
    populated (x (encodings builder)) = false ->
    populated (y (encodings builder)) = false ->
    let next := applyPlan builder plan dataFields in
    transforms next = filter (fun t => negb (isTopN t)) (transforms builder)
    /\ Forall (fun t => isTopN t = false) (transforms next).
Proof.
  intros dataFields builder plan n order Hops Hx Hy next.
  assert (Ht : transforms next
               = filter (fun t => negb (isTopN t)) (transforms builder)).
  { subst next. unfold applyPlan, jsonClone. rewrite Hops. cbn [fold_left].
    unfold applyOperation, populated in *.
    destruct (y (encodings builder)) as [cy|], (x (encodings builder)) as [cx|];
      try destruct (enc_field cy) as [[|? ?]|]; try destruct (enc_field cx) as [[|? ?]|];
      cbn in *; try discriminate; reflexivity. }
  split; [exact Ht|].
  rewrite Ht. apply Forall_forall. intros t Hin.
  apply filter_In in Hin as [_ Hn]. now apply negb_true_iff in Hn.
Qed.

(** The top-N of the state is removed and none is added. *)
Lemma set_top_n_without_field_clears_topN_witness :
  let next := applyPlan topNWithoutAxes topThreePlan [] in
  transforms next
  = filter (fun t => negb (isTopN t)) (transforms topNWithoutAxes)
  /\ Forall (fun t => isTopN t = false) (transforms next).
Proof.
  apply (set_top_n_without_field_clears_topN [] topNWithoutAxes topThreePlan
           3 (Some descending)); reflexivity.
Defined.

(** ** Field inference *)

Lemma filter_length_ext {A} (p q : A -> bool) (l : list A) :
  (forall a, In a l -> p a = q a) -> filter p l = filter q l.
Proof.
  induction l as [|a l IH]; intros Hpq; [reflexivity|].
  cbn. rewrite (Hpq a) by (left; reflexivity).
  rewrite IH by (intros; apply Hpq; right; assumption). reflexivity.
Qed.

Lemma inferFieldType_classify {V} `{FieldInference.JsValue V} (samples : list V) :
  FieldInference.inferFieldType samples = classify samples.
Proof.
  unfold FieldInference.inferFieldType, classify, FieldInference.isValid.
  set (valid := filter (fun v => negb (FieldInference.isNullish v)) samples).
  assert (Hd : filter FieldInference.isDateLike valid
               = filter (fun v => (FieldInference.isDate v
                                   || (FieldInference.dateParses (FieldInference.toString v)
                                       && Regex.test FieldInference.dateRe (FieldInference.toString v)))%bool)
                        valid).
  { apply filter_length_ext. intros v Hin. subst valid.
    apply filter_In in Hin as [_ Hv]. unfold FieldInference.isDateLike.
    apply negb_true_iff in Hv. rewrite Hv.
    destruct (FieldInference.isDate v); reflexivity. }
  destruct valid as [|v0 rest] eqn:E.
  - reflexivity.
  - rewrite Hd.
    set (n := Z.of_nat (List.length (v0 :: rest))).
    set (k1 := Z.of_nat (List.length (filter FieldInference.isFiniteNumber (v0 :: rest)))).
    set (k2 := Z.of_nat (List.length (filter _ (v0 :: rest)))).
    set (u := Z.of_nat (FieldInference.setSize (map FieldInference.toString (v0 :: rest)))).
    replace (60 * n <? 100 * k1) with (3 * n <? 5 * k1)
      by (apply eq_true_iff_eq; rewrite !Z.ltb_lt; lia).
    replace (60 * n <? 100 * k2) with (3 * n <? 5 * k2)
      by (apply eq_true_iff_eq; rewrite !Z.ltb_lt; lia).
    replace (100 * u <? 50 * n) with (2 * u <? n)
      by (apply eq_true_iff_eq; rewrite !Z.ltb_lt; lia).
    reflexivity.
Qed.

(** Claim C5, amended.  For a non-empty list of rows, [inferFields]
    returns one field per key of the first row, in the order of
    [Object.keys], and the type of each is the classification of the
    values [r[name]] over the first 100 rows [r] (the row's own value, else
    the value it inherits from [Object.prototype], else [undefined]):
    quantitative above 60% finite numbers, else temporal above 60% dates,
    else ordinal for at most 20 distinct strings that are fewer than half
    of the non-null samples, else nominal. *)
Theorem inferFields_first_row_keys :
  forall (V : Type) (JV : FieldInference.JsValue V) (first : JsObject.t V) (rest : list (JsObject.t V)),
    let rows := first :: rest in
    map name (FieldInference.inferFields rows) = JsObject.keys first
    /\ forall f, In f (FieldInference.inferFields rows) ->
         inferredType f
         = classify (map (fun r => FieldInference.prop r (name f)) (Js.slice rows 0 100)).
Proof.
  intros V JV first rest rows. split.
  - unfold FieldInference.inferFields, rows. rewrite map_map. cbn [name]. apply map_id.
  - intros f Hin. unfold FieldInference.inferFields, rows in Hin.
    apply in_map_iff in Hin as [k [<- _]]. cbn [name inferredType].
    apply inferFieldType_classify.
Qed.

(** The two ragged rows: one field, for the key of the first row. *)
Lemma inferFields_first_row_keys_witness :
  map name (FieldInference.inferFields raggedRows) = ["a"]
  /\ forall f, In f (FieldInference.inferFields raggedRows) ->
       inferredType f
       = classify (map (fun r => FieldInference.prop r (name f))
                       (Js.slice raggedRows 0 100)).
Proof.
  exact (inferFields_first_row_keys Cell cellValue
           [("a", CellNumber 1)]
           [[("a", CellNumber 2); ("b", CellString "x")]]).
Defined.

(** Claim C5 as stated fails: a field name observed in the second row
    only gets no field. *)
Lemma inferFields_counterexample :
  raggedRows <> []
  /\ observed raggedRows "b"
  /\ ~ In "b" (map name (FieldInference.inferFields raggedRows)).
Proof.
  split; [discriminate|]. split.
  - exists [("a", CellNumber 2); ("b", CellString "x")]. split.
    + vm_compute. right. left. reflexivity.
    + cbn. right. left. reflexivity.
  - vm_compute. intros [H|[]]. discriminate.
Qed.

(** The fields of the two ragged rows. *)
Example inferFields_sample :
  FieldInference.inferFields raggedRows = [ {| name := "a"; inferredType := quantitative |} ].
Proof. vm_compute. reflexivity. Qed.

(** A column named as a property of [Object.prototype]: the rows without
    it contribute the function they inherit, not a null sample, so one
    number among three samples does not make the column quantitative. *)
Example inferFields_inherited_samples :
  map (fun r => FieldInference.prop r "constructor") inheritingRows
  = [CellNumber 1; CellFunction "Object"; CellFunction "Object"]
  /\ FieldInference.inferFields inheritingRows
     = [ {| name := "constructor"; inferredType := nominal |} ].
Proof. split; vm_compute; reflexivity. Qed.

(** ** The mark pattern *)

Lemma run_lit w : forall p s caps k,
  Regex.run (Regex.lit w) p s caps k
  = if Js.startsWith w s
    then k (litPrev w p) (Js.drop (String.length w) s) caps
    else None.
Proof.
  induction w as [|c w IH]; intros p s caps k.
  - reflexivity.
  - destruct w as [|c' w'].
    + cbn. destruct s as [|d s']; [reflexivity|].
      destruct (Ascii.eqb c d) eqn:E; [|reflexivity].
      apply Ascii.eqb_eq in E. subst d. reflexivity.
    + change (Regex.lit (String c (String c' w'))) with (Regex.Seq (Regex.Chr c) (Regex.lit (String c' w'))).
      cbn [Regex.run]. destruct s as [|d s']; [reflexivity|].
      cbn [Js.startsWith]. destruct (Ascii.eqb c d) eqn:E; [|reflexivity].
      apply Ascii.eqb_eq in E. subst d.
      rewrite IH. cbn [andb]. reflexivity.
Qed.

Lemma run_alts_lits ws : forall p s caps k,
  Regex.run (Regex.alts (map Regex.lit ws)) p s caps k = tryWords ws p s caps k.
Proof.
  induction ws as [|w ws IH]; intros p s caps k.
  - cbn. destruct s; reflexivity.
  - destruct ws as [|w' ws'].
    + cbn [map Regex.alts tryWords]. rewrite run_lit.
      destruct (Js.startsWith w s); [destruct (k _ _ _)|]; reflexivity.
    + change (Regex.alts (map Regex.lit (w :: w' :: ws')))
        with (Regex.Alt (Regex.lit w) (Regex.alts (map Regex.lit (w' :: ws')))).
      cbn [Regex.run tryWords]. rewrite run_lit, IH. reflexivity.
Qed.

Lemma markRe_parts :
  NlPlanner.markRe = Regex.Seq (Regex.opt (Regex.Group 1 (Regex.alts (map Regex.lit markPrefixes)))) restRe.
Proof. reflexivity. Qed.

Lemma startsWith_length w : forall s,
  Js.startsWith w s = true -> (String.length w <= String.length s)%nat.
Proof.
  induction w as [|c w IH]; intros s H; cbn in *; [lia|].
  destruct s as [|d s']; [discriminate|].
  apply andb_true_iff in H as [_ H]. apply IH in H. cbn. lia.
Qed.

Lemma drop_length n : forall s,
  String.length (Js.drop n s) = (String.length s - n)%nat.
Proof.
  induction n as [|n IH]; intros s; cbn; [lia|].
  destruct s as [|d s']; cbn; [reflexivity|]. apply IH.
Qed.

Lemma take_startsWith w : forall s,
  Js.startsWith w s = true -> Regex.take (String.length w) s = w.
Proof.
  induction w as [|c w IH]; intros s H; cbn in *; [reflexivity|].
  destruct s as [|d s']; [discriminate|].
  apply andb_true_iff in H as [E H]. apply Ascii.eqb_eq in E. subst d.
  cbn. f_equal. now apply IH.
Qed.

Lemma consumed_drop w s :
  Js.startsWith w s = true -> Regex.consumed s (Js.drop (String.length w) s) = w.
Proof.
  intros H. unfold Regex.consumed. rewrite drop_length.
  pose proof (startsWith_length w s H).
  replace (String.length s - (String.length s - String.length w))%nat
    with (String.length w) by lia.
  now apply take_startsWith.
Qed.

Lemma startsWith_app w : forall s,
  Js.startsWith w s = true -> s = (w ++ Js.drop (String.length w) s)%string.
Proof.
  induction w as [|c w IH]; intros s H; cbn in *; [reflexivity|].
  destruct s as [|d s']; [discriminate|].
  apply andb_true_iff in H as [E H]. apply Ascii.eqb_eq in E. subst d.
  cbn. f_equal. now apply IH.
Qed.

Lemma run_seq a b p s caps k :
  Regex.run (Regex.Seq a b) p s caps k = Regex.run a p s caps (fun p' s' caps' => Regex.run b p' s' caps' k).
Proof. reflexivity. Qed.

Lemma run_alt a b p s caps k :
  Regex.run (Regex.Alt a b) p s caps k
  = match Regex.run a p s caps k with
    | Some res => Some res
    | None => Regex.run b p s caps k
    end.
Proof. reflexivity. Qed.

Lemma run_group i a p s caps k :
  Regex.run (Regex.Group i a) p s caps k
  = Regex.run a p s caps (fun p' s' caps' => k p' s' ((i, Regex.consumed s s') :: caps')).
Proof. reflexivity. Qed.

Lemma run_eps p s caps k : Regex.run Regex.Eps p s caps k = k p s caps.
Proof. reflexivity. Qed.

Lemma run_many_cons f d s p caps k :
  Regex.run (Regex.Many f) p (String d s) caps k
  = if f d
    then match Regex.run (Regex.Many f) (Some d) s caps k with
         | Some res => Some res
         | None => k p (String d s) caps
         end
    else k p (String d s) caps.
Proof. reflexivity. Qed.

Lemma many_total f (Q : Regex.Result -> Prop) caps k :
  (forall p s, exists res, k p s caps = Some res /\ Q res) ->
  forall s p, exists res, Regex.run (Regex.Many f) p s caps k = Some res /\ Q res.
Proof.
  intros Hk. induction s as [|d s IH]; intros p.
  - apply Hk.
  - rewrite run_many_cons. destruct (f d); [|apply Hk].
    destruct (IH (Some d)) as [res [-> HQ]]. eauto.
Qed.

Lemma tail_total p s caps :
  exists res, Regex.run tailRe p s caps Regex.accept = Some res
              /\ Regex.group 2 (Regex.res_caps res) = Regex.group 2 caps.
Proof.
  unfold tailRe. rewrite run_seq.
  apply many_total. clear p s. intros p s.
  unfold Regex.opt. rewrite run_alt, run_group, run_lit, run_eps.
  destruct (Js.startsWith "chart" s).
  - eexists. split; [reflexivity|]. reflexivity.
  - eexists. split; [reflexivity|]. reflexivity.
Qed.

Lemma tryWords_find (Q : string -> Regex.Result -> Prop) p s caps k : forall ws,
  (forall w, In w ws -> Js.startsWith w s = true ->
     exists res, k (litPrev w p) (Js.drop (String.length w) s) caps = Some res
                 /\ Q w res) ->
  match List.find (fun w => Js.startsWith w s) ws with
  | Some w => exists res, tryWords ws p s caps k = Some res /\ Q w res
  | None => tryWords ws p s caps k = None
  end.
Proof.
  induction ws as [|w ws IH]; intros Hk; [reflexivity|].
  cbn [List.find tryWords]. destruct (Js.startsWith w s) eqn:E.
  - destruct (Hk w (or_introl eq_refl) E) as [res [-> HQ]]. eauto.
  - apply IH. intros w' Hin. apply Hk. now right.
Qed.

(** The mark words and what follows them, at a position. *)
Lemma marks_match s p caps :
  match markWordAt s with
  | Some w => exists res, Regex.run (Regex.Seq marksRe tailRe) p s caps Regex.accept = Some res
                          /\ Regex.group 2 (Regex.res_caps res) = Some w
  | None => Regex.run (Regex.Seq marksRe tailRe) p s caps Regex.accept = None
  end.
Proof.
  unfold marksRe. rewrite run_seq, run_group, run_alts_lits. unfold markWordAt.
  apply (tryWords_find (fun w res => Regex.group 2 (Regex.res_caps res) = Some w)).
  intros w _ Hw.
  destruct (tail_total (litPrev w p) (Js.drop (String.length w) s)
              ((2%nat, Regex.consumed s (Js.drop (String.length w) s)) :: caps))
    as [res [Hres Hg]].
  exists res. split; [exact Hres|]. rewrite Hg. cbn. now rewrite consumed_drop.
Qed.

Lemma space_not_letter d :
  Js.isSpace d = true -> Js.isLower d = false.
Proof.
  destruct d as [[] [] [] [] [] [] [] []]; cbn; intros H; try discriminate; reflexivity.
Qed.

Lemma markWordAt_initial d s w :
  markWordAt (String d s) = Some w -> Js.isLower d = true /\ d <> "i"%char /\ d <> "e"%char.
Proof.
  unfold markWordAt, NlPlanner.markWords. cbn [List.find Js.startsWith].
  repeat (match goal with
          | |- context [Ascii.eqb ?c d] =>
              let E := fresh "E" in
              destruct (Ascii.eqb c d) eqn:E;
              [apply Ascii.eqb_eq in E; subst d; intros _;
               repeat split; (reflexivity || discriminate)
              | cbn [andb] ]
          end).
  discriminate.
Qed.

Lemma markWordAt_space d s : Js.isSpace d = true -> markWordAt (String d s) = None.
Proof.
  intros Hd. destruct (markWordAt (String d s)) eqn:E; [|reflexivity].
  apply markWordAt_initial in E as [E _].
  rewrite (space_not_letter d Hd) in E. discriminate.
Qed.

(** White space, then a mark word, at a position. *)
Lemma rest_match : forall s p caps,
  match markWordAt (Js.trimStart s) with
  | Some w => exists res, Regex.run restRe p s caps Regex.accept = Some res
                          /\ Regex.group 2 (Regex.res_caps res) = Some w
  | None => Regex.run restRe p s caps Regex.accept = None
  end.
Proof.
  unfold restRe.
  induction s as [|d s IH]; intros p caps; rewrite run_seq in *.
  - cbn [Js.trimStart]. apply (marks_match EmptyString p caps).
  - cbn [Js.trimStart]. rewrite run_many_cons.
    destruct (Js.isSpace d) eqn:Hd.
    + specialize (IH (Some d) caps). rewrite run_seq in IH.
      destruct (markWordAt (Js.trimStart s)) as [w|].
      * destruct IH as [res [-> Hg]]. eauto.
      * rewrite IH.
        pose proof (marks_match (String d s) p caps) as M.
        rewrite (markWordAt_space d s Hd) in M. exact M.
    + apply (marks_match (String d s) p caps).
Qed.

Lemma firstMarkWord_here s w : markWordAt s = Some w -> firstMarkWord s = Some w.
Proof. intros H. destruct s; cbn [firstMarkWord]; rewrite H; reflexivity. Qed.

Lemma firstMarkWord_skip d s :
  markWordAt (String d s) = None -> firstMarkWord (String d s) = firstMarkWord s.
Proof. intros H. cbn [firstMarkWord]. rewrite H. reflexivity. Qed.

Lemma firstMarkWord_trimStart : forall s,
  firstMarkWord s = firstMarkWord (Js.trimStart s).
Proof.
  induction s as [|d s IH]; [reflexivity|].
  cbn [Js.trimStart]. destruct (Js.isSpace d) eqn:Hd; [|reflexivity].
  rewrite firstMarkWord_skip by (now apply markWordAt_space). exact IH.
Qed.

Lemma trimStart_initial t w :
  markWordAt (Js.trimStart t) = Some w ->
  match t with
  | String d _ => d <> "i"%char /\ d <> "e"%char
  | EmptyString => True
  end.
Proof.
  destruct t as [|d t]; [trivial|]. cbn [Js.trimStart].
  destruct (Js.isSpace d) eqn:Hd.
  - intros _. split; intros ->; discriminate.
  - intros H. now apply markWordAt_initial in H.
Qed.

Lemma markWordAt_t d t :
  d <> "i"%char -> d <> "e"%char -> markWordAt (String "t" (String d t)) = None.
Proof.
  intros Hi He.
  assert (E1 : Ascii.eqb "i" d = false) by (apply Ascii.eqb_neq; congruence).
  assert (E2 : Ascii.eqb "e" d = false) by (apply Ascii.eqb_neq; congruence).
  unfold markWordAt, NlPlanner.markWords. cbn [List.find Js.startsWith].
  rewrite E1, E2. reflexivity.
Qed.

Lemma firstMarkWord_prefix pf t w :
  In pf markPrefixes ->
  markWordAt (Js.trimStart t) = Some w ->
  firstMarkWord (pf ++ t) = firstMarkWord t.
Proof.
  intros Hin Hw. apply trimStart_initial in Hw.
  destruct Hin as [<-|[<-|[<-|[<-|[]]]]]; try reflexivity.
  (* "make it": the last letter could start "tick" or "text" *)
  change ("make it" ++ t)%string
    with (String "m" (String "a" (String "k" (String "e" (String " "
           (String "i" (String "t" t))))))).
  do 6 (rewrite firstMarkWord_skip by reflexivity).
  destruct t as [|d t]; [reflexivity|]. destruct Hw as [Hi He].
  now rewrite firstMarkWord_skip by (now apply markWordAt_t).
Qed.

Lemma prefixes_match p s res : forall ws,
  incl ws markPrefixes ->
  tryWords ws p s []
    (fun p' s' caps' => Regex.run restRe p' s' ((1%nat, Regex.consumed s s') :: caps') Regex.accept)
  = Some res ->
  firstMarkWord s = Regex.group 2 (Regex.res_caps res).
Proof.
  induction ws as [|pf ws IH]; intros Hincl H; [discriminate|].
  cbn [tryWords] in H.
  destruct (Js.startsWith pf s) eqn:Hpf.
  - pose proof (rest_match (Js.drop (String.length pf) s) (litPrev pf p)
                  [(1%nat, Regex.consumed s (Js.drop (String.length pf) s))]) as M.
    destruct (markWordAt (Js.trimStart (Js.drop (String.length pf) s))) as [w|] eqn:Hw.
    + destruct M as [res' [Hrun Hg]]. rewrite Hrun in H. inversion H; subst res'.
      rewrite Hg. rewrite (startsWith_app pf s Hpf) at 1.
      rewrite (firstMarkWord_prefix pf _ w) by (auto using in_eq; exact Hw).
      rewrite firstMarkWord_trimStart. now apply firstMarkWord_here.
    + rewrite M in H. apply IH; [|exact H].
      intros a Ha. apply Hincl. now right.
  - apply IH; [|exact H]. intros a Ha. apply Hincl. now right.
Qed.

(** A match of the mark pattern at a position captures, as its second
    group, the first mark word of the text from that position. *)
Lemma markRe_here p s res :
  Regex.matchHere NlPlanner.markRe p s = Some res ->
  firstMarkWord s = Regex.group 2 (Regex.res_caps res).
Proof.
  unfold Regex.matchHere. rewrite markRe_parts. unfold Regex.opt.
  rewrite run_seq, run_alt, run_group, run_alts_lits, run_eps.
  destruct (tryWords _ _ _ _ _) as [res'|] eqn:E.
  - intros H. inversion H; subst res'.
    apply (prefixes_match p s res markPrefixes); [apply incl_refl|exact E].
  - intros H. pose proof (rest_match s p []) as M.
    destruct (markWordAt (Js.trimStart s)) as [w|] eqn:Hw.
    + destruct M as [res' [Hrun Hg]]. rewrite Hrun in H. inversion H; subst res'.
      rewrite Hg, firstMarkWord_trimStart. now apply firstMarkWord_here.
    + rewrite M in H. discriminate.
Qed.

(** The mark pattern matches at a position where a mark word starts. *)
Lemma markRe_at_word p s w :
  markWordAt s = Some w -> exists res, Regex.matchHere NlPlanner.markRe p s = Some res.
Proof.
  intros Hw. unfold Regex.matchHere. rewrite markRe_parts. unfold Regex.opt.
  rewrite run_seq, run_alt.
  destruct (Regex.run (Regex.Group 1 _) _ _ _ _) as [res|]; [eauto|].
  rewrite run_eps. pose proof (rest_match s p []) as M.
  assert (Ht : Js.trimStart s = s).
  { destruct s as [|d s]; [reflexivity|]. cbn.
    destruct (Js.isSpace d) eqn:Hd; [|reflexivity].
    rewrite markWordAt_space in Hw by exact Hd. discriminate. }
  rewrite Ht, Hw in M. destruct M as [res [Hrun _]]. eauto.
Qed.

(** [exec] finds the first mark word. *)
Lemma search_markRe : forall s before p w,
  firstMarkWord s = Some w ->
  exists m, Regex.search NlPlanner.markRe before p s = Some m /\ Regex.captured 2 m = Some w.
Proof.
  induction s as [|d s IH]; intros before p w Hw.
  - cbn [Regex.search]. destruct (Regex.matchHere NlPlanner.markRe p EmptyString) as [res|] eqn:E.
    + eexists. split; [reflexivity|]. unfold Regex.captured. cbn [Regex.m_end].
      rewrite <- (markRe_here _ _ _ E). exact Hw.
    + cbn in Hw. discriminate.
  - cbn [Regex.search]. destruct (Regex.matchHere NlPlanner.markRe p (String d s)) as [res|] eqn:E.
    + eexists. split; [reflexivity|]. unfold Regex.captured. cbn [Regex.m_end].
      rewrite <- (markRe_here _ _ _ E). exact Hw.
    + destruct (markWordAt (String d s)) as [w'|] eqn:Hat.
      * destruct (markRe_at_word p _ _ Hat) as [res Hres]. congruence.
      * rewrite firstMarkWord_skip in Hw by exact Hat. now apply IH.
Qed.

Lemma markWordAt_found s w :
  In w NlPlanner.markWords -> Js.startsWith w s = true -> markWordAt s <> None.
Proof.
  intros Hin Hw Hnone. unfold markWordAt in Hnone.
  pose proof (find_none _ _ Hnone w Hin) as H. cbn in H. congruence.
Qed.

Lemma includes_firstMarkWord w : forall s,
  In w NlPlanner.markWords -> Js.includes s w = true -> firstMarkWord s <> None.
Proof.
  intros s Hin. induction s as [|d s IH]; intros Hinc.
  - cbn [Js.includes] in Hinc. rewrite orb_false_r in Hinc.
    pose proof (markWordAt_found _ _ Hin Hinc) as H.
    cbn [firstMarkWord]. destruct (markWordAt EmptyString); [discriminate|congruence].
  - cbn [Js.includes] in Hinc. apply orb_true_iff in Hinc as [Hhere|Hlater].
    + pose proof (markWordAt_found _ _ Hin Hhere) as H.
      cbn [firstMarkWord]. destruct (markWordAt (String d s)); [discriminate|congruence].
    + cbn [firstMarkWord]. destruct (markWordAt (String d s)); [discriminate|].
      now apply IH.
Qed.

Lemma firstMarkWord_first : forall s w,
  firstMarkWord s = Some w ->
  In w NlPlanner.markWords
  /\ exists i, occursAt w s i
       /\ forall w' j, In w' NlPlanner.markWords -> occursAt w' s j -> (i <= j)%nat.
Proof.
  assert (Hhere : forall s w, markWordAt s = Some w ->
            In w NlPlanner.markWords
            /\ exists i, occursAt w s i
                 /\ forall w' j, In w' NlPlanner.markWords -> occursAt w' s j
                                 -> (i <= j)%nat).
  { intros s w H. unfold markWordAt in H. apply find_some in H as [Hin Hw].
    split; [exact Hin|]. exists 0%nat. split; [exact Hw|]. intros; lia. }
  induction s as [|d s IH]; intros w H; cbn [firstMarkWord] in H.
  - destruct (markWordAt EmptyString) eqn:E; [|discriminate].
    inversion H; subst. now apply Hhere.
  - destruct (markWordAt (String d s)) eqn:E.
    + inversion H; subst. now apply Hhere.
    + destruct (IH w H) as [Hin [i [Hocc Hmin]]].
      split; [exact Hin|]. exists (S i). split; [exact Hocc|].
      intros w' [|j] Hin' Hocc'.
      * exfalso. apply (markWordAt_found (String d s) w' Hin'); assumption.
      * apply le_n_S. now apply (Hmin w' j).
Qed.

Lemma markTypeOfString_word w :
  In w NlPlanner.markWords ->
  exists t, NlPlanner.markTypeOfString w = Some t /\ markTypeName t = w.
Proof.
  intros Hin.
  repeat (destruct Hin as [<-|Hin]; [eexists; split; reflexivity|]).
  destruct Hin.
Qed.

(** Claim C9.  When the lower-cased, trimmed command contains one of the
    ten mark words anywhere (inside a longer word too, with no change
    phrase), the plan starts with a [set_mark] operation whose mark is the
    mark word of the first position at which a mark word occurs. *)
Theorem mark_word_anywhere_sets_mark : forall input fieldNames builder,
  let lower := NlPlanner.norm (Js.trim input) in
  (exists w, In w NlPlanner.markWords /\ Js.includes lower w = true) ->
  exists w0 i t rest,
    In w0 NlPlanner.markWords
    /\ occursAt w0 lower i
    /\ (forall w' j, In w' NlPlanner.markWords -> occursAt w' lower j -> (i <= j)%nat)
    /\ NlPlanner.markTypeOfString w0 = Some t
    /\ markTypeName t = w0
    /\ operations (NlPlanner.parseNLToPlan input fieldNames builder)
       = set_mark t
           (Some {| opt_point := Some (Js.includes lower "with points");
                    opt_stacked := None |})
         :: rest.
Proof.
  intros input fieldNames builder lower [w [Hin Hinc]].
  destruct (firstMarkWord lower) as [w0|] eqn:Hfirst;
    [|exfalso; now apply (includes_firstMarkWord w lower Hin Hinc)].
  destruct (firstMarkWord_first lower w0 Hfirst) as [Hin0 [i [Hocc Hmin]]].
  destruct (markTypeOfString_word w0 Hin0) as [t [Ht Hname]].
  destruct (search_markRe lower [] None w0 Hfirst) as [m [Hexec Hcap]].
  exists w0, i, t. eexists. repeat split; try assumption.
  unfold NlPlanner.parseNLToPlan. cbn [operations]. fold lower.
  unfold NlPlanner.markOps at 1. unfold Regex.exec. rewrite Hexec, Hcap, Ht.
  cbn [app]. reflexivity.
Qed.

(** A command in which a mark word occurs inside a longer word. *)
Lemma mark_word_anywhere_sets_mark_witness :
  let lower := NlPlanner.norm (Js.trim "Show the embargo totals") in
  exists w0 i t rest,
    In w0 NlPlanner.markWords
    /\ occursAt w0 lower i
    /\ (forall w' j, In w' NlPlanner.markWords -> occursAt w' lower j -> (i <= j)%nat)
    /\ NlPlanner.markTypeOfString w0 = Some t
    /\ markTypeName t = w0
    /\ operations (NlPlanner.parseNLToPlan "Show the embargo totals" []
                     getDefaultBuilderState)
       = set_mark t
           (Some {| opt_point := Some (Js.includes lower "with points");
                    opt_stacked := None |})
         :: rest.
Proof.
  apply (mark_word_anywhere_sets_mark "Show the embargo totals" []
           getDefaultBuilderState).
  exists "bar". split; [right; left; reflexivity | reflexivity].
Defined.

(* ================================================================== *)
(** * Further properties                                               *)
(* ================================================================== *)

(** ** More on the history manager *)

Lemma twoMarkChanges_history :
  List.length (history twoMarkChanges) = 2%nat
  /\ historyIndex twoMarkChanges = 1.
Proof. split; vm_compute; reflexivity. Qed.

Lemma historyAt_in_range st i :
  0 <= i < Z.of_nat (List.length (history st)) ->
  exists snap, historyAt st i = Some snap.
Proof.
  intros Hi. unfold historyAt.
  destruct (i <? 0) eqn:E; [apply Z.ltb_lt in E; lia|].
  destruct (nth_error (history st) (Z.to_nat i)) eqn:N; [eauto|].
  apply nth_error_None in N. lia.
Qed.

Lemma undo_steps_back st :
  historyOk st -> 0 < historyIndex st ->
  exists snap, historyAt st (historyIndex st - 1) = Some snap
    /\ undo st = Some {| dataFields := dataFields st;
                         builderState := snap_builderState snap;
                         vegaSpec := snap_spec snap;
                         history := history st;
                         historyIndex := historyIndex st - 1 |}.
Proof.
  intros [Hlen Hidx] H.
  destruct (historyAt_in_range st (historyIndex st - 1)) as [snap Hs]; [lia|].
  exists snap. split; [exact Hs|]. unfold undo.
  destruct (0 <? historyIndex st) eqn:E; [|apply Z.ltb_ge in E; lia].
  unfold restoreAt. rewrite Hs. reflexivity.
Qed.

Lemma redo_steps_forward st :
  historyOk st -> historyIndex st < Z.of_nat (List.length (history st)) - 1 ->
  exists snap, historyAt st (historyIndex st + 1) = Some snap
    /\ redo st = Some {| dataFields := dataFields st;
                         builderState := snap_builderState snap;
                         vegaSpec := snap_spec snap;
                         history := history st;
                         historyIndex := historyIndex st + 1 |}.
Proof.
  intros [Hlen Hidx] H.
  destruct (historyAt_in_range st (historyIndex st + 1)) as [snap Hs]; [lia|].
  exists snap. split; [exact Hs|]. unfold redo.
  destruct (historyIndex st <? _) eqn:E; [|apply Z.ltb_ge in E; lia].
  unfold restoreAt. rewrite Hs. reflexivity.
Qed.

(** X1. On a store whose history is well formed, undo with the cursor at or
    before the first entry and redo with the cursor on the last entry return
    the store unchanged. Whenever undo or redo returns, the history stack
    and the data fields are the ones before the call, the cursor has moved
    by at most one, and if it moved, model and spec are those of the
    snapshot under the new cursor. *)
Theorem undo_redo_move_cursor_only : forall st,
  historyOk st ->
  (historyIndex st <= 0 -> undo st = Some st)
  /\ (Z.of_nat (List.length (history st)) - 1 <= historyIndex st -> redo st = Some st)
  /\ (forall st', undo st = Some st' \/ redo st = Some st' ->
        history st' = history st /\ dataFields st' = dataFields st
        /\ Z.abs (historyIndex st' - historyIndex st) <= 1
        /\ (historyIndex st' <> historyIndex st ->
            exists snap, historyAt st (historyIndex st') = Some snap
              /\ builderState st' = snap_builderState snap
              /\ vegaSpec st' = snap_spec snap)).
Proof.
  intros st Hok. pose proof Hok as [Hlen Hidx].
  assert (Hundo0 : historyIndex st <= 0 -> undo st = Some st).
  { intros H. unfold undo. destruct (0 <? historyIndex st) eqn:E; [|reflexivity].
    apply Z.ltb_lt in E. lia. }
  assert (Hredo0 : Z.of_nat (List.length (history st)) - 1 <= historyIndex st
                   -> redo st = Some st).
  { intros H. unfold redo. destruct (historyIndex st <? _) eqn:E; [|reflexivity].
    apply Z.ltb_lt in E. lia. }
  split; [exact Hundo0|]. split; [exact Hredo0|].
  intros st' [H|H].
  - destruct (Z_lt_le_dec 0 (historyIndex st)) as [Hpos|Hnp].
    + destruct (undo_steps_back st Hok Hpos) as [snap [Hs Hu]].
      rewrite Hu in H. inversion H; subst st'. cbn.
      split; [reflexivity|]. split; [reflexivity|]. split; [lia|].
      intros _. exists snap. auto.
    + rewrite (Hundo0 Hnp) in H. inversion H; subst st'.
      split; [reflexivity|]. split; [reflexivity|]. split; [lia|].
      intros C. contradiction.
  - destruct (Z_lt_le_dec (historyIndex st) (Z.of_nat (List.length (history st)) - 1))
      as [Hlt|Hge].
    + destruct (redo_steps_forward st Hok Hlt) as [snap [Hs Hr]].
      rewrite Hr in H. inversion H; subst st'. cbn.
      split; [reflexivity|]. split; [reflexivity|]. split; [lia|].
      intros _. exists snap. auto.
    + rewrite (Hredo0 Hge) in H. inversion H; subst st'.
      split; [reflexivity|]. split; [reflexivity|]. split; [lia|].
      intros C. contradiction.
Qed.

(** After two mark changes the cursor is on the last entry and redo does
    nothing. *)
Lemma undo_redo_move_cursor_only_witness :
  redo twoMarkChanges = Some twoMarkChanges.
Proof.
  assert (Hok : historyOk twoMarkChanges).
  { unfold historyOk. destruct twoMarkChanges_history as [-> ->]. lia. }
  apply (proj1 (proj2 (undo_redo_move_cursor_only twoMarkChanges Hok))).
  destruct twoMarkChanges_history as [-> ->]. lia.
Defined.

(** X2. With a well-formed history and the cursor past the first entry, undo
    succeeds, and a redo right after it puts stack and cursor back as they
    were and installs the model and spec of the snapshot the cursor was on
    before the undo (whatever the live model was: it was never captured). *)
Theorem redo_after_undo_restores_cursor_snapshot : forall st,
  historyOk st -> 0 < historyIndex st ->
  exists st1 snap,
    undo st = Some st1
    /\ historyAt st (historyIndex st) = Some snap
    /\ redo st1 = Some {| dataFields := dataFields st;
                          builderState := snap_builderState snap;
                          vegaSpec := snap_spec snap;
                          history := history st;
                          historyIndex := historyIndex st |}.
Proof.
  intros st Hok Hpos. pose proof Hok as [Hlen Hidx].
  destruct (undo_steps_back st Hok Hpos) as [snap0 [Hs0 Hu]].
  eexists. destruct (historyAt_in_range st (historyIndex st)) as [snap Hs]; [lia|].
  exists snap. split; [exact Hu|]. split; [exact Hs|].
  set (st1 := {| dataFields := dataFields st; builderState := snap_builderState snap0;
                 vegaSpec := snap_spec snap0; history := history st;
                 historyIndex := historyIndex st - 1 |}).
  assert (Hok1 : historyOk st1) by (unfold historyOk; cbn; lia).
  destruct (redo_steps_forward st1 Hok1) as [snap' [Hs' Hr]]; [cbn; lia|].
  rewrite Hr. unfold st1 in Hs' |- *. cbn [historyIndex history dataFields] in Hs' |- *.
  replace (historyIndex st - 1 + 1) with (historyIndex st) in * by lia.
  unfold historyAt in Hs', Hs. cbn [history] in Hs'.
  rewrite Hs in Hs'. inversion Hs'. reflexivity.
Qed.

(** After two mark changes, undo then redo. *)
Lemma redo_after_undo_restores_cursor_snapshot_witness :
  exists st1 snap,
    undo twoMarkChanges = Some st1
    /\ historyAt twoMarkChanges (historyIndex twoMarkChanges) = Some snap
    /\ redo st1
       = Some {| dataFields := dataFields twoMarkChanges;
                 builderState := snap_builderState snap;
                 vegaSpec := snap_spec snap;
                 history := history twoMarkChanges;
                 historyIndex := historyIndex twoMarkChanges |}.
Proof.
  apply (redo_after_undo_restores_cursor_snapshot twoMarkChanges).
  - unfold historyOk. destruct twoMarkChanges_history as [-> ->]. lia.
  - destruct twoMarkChanges_history as [_ ->]. lia.
Defined.

(** X3. On a well-formed history, captureSnapshot keeps the entries up to
    the cursor, drops the entries after it (the redo future), appends the
    new snapshot and keeps the last 50 of the result; the cursor ends on the
    last entry, so a redo right after does nothing; model and spec are
    untouched. *)
Theorem capture_discards_redo_future : forall d now st,
  historyOk st ->
  let st' := captureSnapshot d now st in
  history st'
  = lastN 50 (firstn (Z.to_nat (historyIndex st + 1)) (history st)
              ++ [snapshotOf d now st])
  /\ historyIndex st' = Z.of_nat (List.length (history st')) - 1
  /\ redo st' = Some st'
  /\ builderState st' = builderState st /\ vegaSpec st' = vegaSpec st.
Proof.
  intros d now st [Hlen Hidx] st'.
  assert (H1 : history st'
               = lastN 50 (firstn (Z.to_nat (historyIndex st + 1)) (history st)
                           ++ [snapshotOf d now st])
               /\ historyIndex st' = Z.of_nat (List.length (history st')) - 1).
  { subst st'. unfold captureSnapshot. cbn [history historyIndex].
    rewrite slice_0_le by lia.
    set (h2 := firstn _ _ ++ _).
    destruct (50 <? _) eqn:E.
    - change (-50) with (- Z.of_nat 50). rewrite sliceFrom_lastN by lia. auto.
    - apply Z.ltb_ge in E. rewrite lastN_short by lia. auto. }
  destruct H1 as [Hh Hi]. repeat split; try assumption.
  unfold redo. rewrite Hi.
  destruct (_ <? _) eqn:E; [apply Z.ltb_lt in E; lia|reflexivity].
Qed.

(** A capture after two mark changes: redo does nothing. *)
Lemma capture_discards_redo_future_witness :
  redo (captureSnapshot None 3 twoMarkChanges)
  = Some (captureSnapshot None 3 twoMarkChanges).
Proof.
  assert (Hok : historyOk twoMarkChanges).
  { unfold historyOk. destruct twoMarkChanges_history as [-> ->]. lia. }
  exact (proj1 (proj2 (proj2 (capture_discards_redo_future None 3
                                twoMarkChanges Hok)))).
Defined.

(** ** More on the compiler *)

Lemma buildTransforms_length ts :
  List.length (buildTransforms ts)
  = (List.length ts + List.length (filter isTopN ts))%nat.
Proof.
  unfold buildTransforms. induction ts as [|t ts IH]; [reflexivity|].
  cbn [flat_map filter]. rewrite length_app, IH.
  destruct t; cbn; lia.
Qed.

(** X4. A spec produced by buildSpec is classified as custom by the panels
    exactly when the model's transforms, a top-N counted twice (it compiles
    to a window step and a filter), number more than three; no other part of
    a compiled spec can make it custom. *)
Theorem compiled_spec_custom_iff : forall M fields,
  isCustomSpec (buildSpec M fields) = true
  <-> (3 < List.length (transforms M)
           + List.length (filter isTopN (transforms M)))%nat.
Proof.
  intros M fields. unfold isCustomSpec, buildSpec.
  cbn [s_facet s_layer s_hconcat s_vconcat s_repeat s_transform s_data
       truthyProp orb data_url Js.truthyOptStr].
  rewrite orb_false_r. rewrite <- buildTransforms_length.
  destruct (buildTransforms (transforms M)) as [|t r] eqn:E.
  - cbn. split; [discriminate|lia].
  - rewrite Z.ltb_lt. lia.
Qed.

(** X5. buildSpec reads mark.stacked only for a bar or area mark and
    mark.interpolate only for a line or area mark: for any other mark type,
    changing that property of the model leaves the whole compiled spec
    unchanged. *)
Theorem stack_and_interpolate_need_their_marks : forall M fields,
  (isBarOrArea (mark_type (mark M)) = false ->
   forall s, buildSpec (withStacked M s) fields = buildSpec M fields)
  /\ (isLineOrArea (mark_type (mark M)) = false ->
      forall i, buildSpec (withInterpolate M i) fields = buildSpec M fields).
Proof.
  intros M fields. split.
  - intros H s. unfold buildSpec, withStacked, withMark, applyStacking.
    cbn [mark encodings transforms width height title description background
         padding mark_type mark_point mark_stacked mark_opacity mark_size
         mark_strokeWidth mark_interpolate].
    rewrite H. destruct s, (mark_stacked (mark M)); reflexivity.
  - intros H i. unfold buildSpec, withInterpolate, withMark.
    cbn [mark encodings transforms width height title description background
         padding mark_type mark_point mark_stacked mark_opacity mark_size
         mark_strokeWidth mark_interpolate].
    rewrite H. reflexivity.
Qed.

(** Stacking a scatter plot does not show. *)
Lemma stack_and_interpolate_need_their_marks_witness :
  buildSpec (withStacked scatterPlot (Some stack_zero)) salesFields
  = buildSpec scatterPlot salesFields.
Proof.
  apply (proj1 (stack_and_interpolate_need_their_marks scatterPlot salesFields)).
  reflexivity.
Defined.

Lemma slice_0_firstn {A} (l : list A) (n : nat) :
  Js.slice l 0 (Z.of_nat n) = firstn n l.
Proof.
  unfold Js.slice, Js.relIndex.
  replace (0 <? 0) with false by reflexivity.
  destruct (Z.of_nat n <? 0) eqn:E; [apply Z.ltb_lt in E; lia|].
  replace (Z.min 0 (Z.of_nat (List.length l))) with 0 by lia.
  cbn [Z.to_nat skipn]. rewrite Z.sub_0_r.
  destruct (Z.le_ge_cases (Z.of_nat n) (Z.of_nat (List.length l))).
  - rewrite Z.min_l by lia. now rewrite Nat2Z.id.
  - rewrite Z.min_r by lia. rewrite Nat2Z.id, firstn_all.
    symmetry. apply firstn_all2. lia.
Qed.

(** ** More on the decompiler *)

Lemma parse_build_transform t :
  flat_map parseTransform (buildTransform t) = survivingTransform t.
Proof.
  destruct t as [e|n b o|c a|g ops fs a]; cbn.
  - destruct e; reflexivity.
  - reflexivity.
  - destruct c; reflexivity.
  - reflexivity.
Qed.

Lemma parse_build_transforms_all ts :
  flat_map parseTransform (flat_map buildTransform ts)
  = flat_map survivingTransform ts.
Proof.
  induction ts as [|t ts IH]; [reflexivity|].
  cbn [flat_map]. rewrite flat_map_app, IH, parse_build_transform. reflexivity.
Qed.

(** X6. For every model M, the transforms that parseSpecToBuilderState reads
    back from buildSpec(M, fields) are, in the order of M: each filter and
    each calculate with a non-empty expression as it was, each top-N as the
    plain filter 'datum.__rank__ <= n' (its window step is not read back),
    and nothing for an aggregate or for an empty expression. *)
Theorem decompiled_transforms_of_compiled : forall M fields,
  parseTransforms (buildSpec M fields) = flat_map survivingTransform (transforms M).
Proof.
  intros M fields. unfold parseTransforms, buildSpec. cbn [s_transform].
  rewrite <- parse_build_transforms_all. unfold buildTransforms.
  destruct (flat_map buildTransform (transforms M)); reflexivity.
Qed.

Lemma parseTransform_kept t :
  Forall (fun u => hasExpression u = true) (parseTransform t)
  /\ (List.length (parseTransform t) <= 1)%nat.
Proof.
  unfold parseTransform.
  destruct (t_filter t) as [[|c r]|]; [| split; [repeat constructor|cbn; lia] |];
    destruct (t_calculate t) as [[|c' r']|];
    split; try (repeat constructor); cbn; lia.
Qed.

Lemma parseTransforms_kept spec :
  Forall (fun u => hasExpression u = true) (parseTransforms spec)
  /\ (List.length (parseTransforms spec)
      <= match s_transform spec with Some ts => List.length ts | None => 0 end)%nat.
Proof.
  unfold parseTransforms.
  destruct (s_transform spec) as [ts|]; [|split; [constructor|cbn; lia]].
  induction ts as [|t ts [IH1 IH2]]; [split; [constructor|cbn; lia]|].
  cbn [flat_map]. destruct (parseTransform_kept t) as [H1 H2]. split.
  - apply Forall_app. auto.
  - rewrite length_app. cbn [List.length]. lia.
Qed.

Lemma parseTransforms_expressions spec :
  forallb hasExpression (parseTransforms spec) = true.
Proof.
  apply forallb_forall. intros u Hin.
  destruct (parseTransforms_kept spec) as [H _].
  rewrite Forall_forall in H. now apply H.
Qed.

(** X7. For every spec, each transform that parseSpecToBuilderState returns
    is a filter or a calculate with a non-empty expression, and there are no
    more of them than entries in the spec's transform array. *)
Theorem decompiled_transforms_are_expressions : forall spec,
  Forall (fun u => hasExpression u = true) (parseTransforms spec)
  /\ (List.length (parseTransforms spec)
      <= match s_transform spec with Some ts => List.length ts | None => 0 end)%nat.
Proof. exact parseTransforms_kept. Qed.

Lemma parse_after_stacking m e :
  option_map parseEncodingChannel (se_x (applyStacking m e))
  = option_map parseEncodingChannel (se_x e)
  /\ option_map parseEncodingChannel (se_y (applyStacking m e))
     = option_map parseEncodingChannel (se_y e)
  /\ se_color (applyStacking m e) = se_color e
  /\ se_size (applyStacking m e) = se_size e
  /\ se_tooltip (applyStacking m e) = se_tooltip e.
Proof.
  unfold applyStacking.
  destruct (mark_stacked m) as [s|]; [|auto 6].
  destruct (isBarOrArea (mark_type m)); [|auto 6].
  destruct (isQuantitative (se_y e)).
  - cbn. destruct (se_y e); auto 6.
  - destruct (isQuantitative (se_x e)); [|auto 6].
    cbn. destruct (se_x e); auto 6.
Qed.

Lemma reparse_channel e :
  option_map parseEncodingChannel
    (buildChannel (option_map parseEncodingChannel (buildChannel e)))
  = option_map parseEncodingChannel (buildChannel e).
Proof. now rewrite rebuild_channel. Qed.

Lemma reparse_tooltip t fields :
  let read (st : option SpecTooltip) :=
    match st with
    | Some (SpecTooltipArray entries) =>
        Some (TooltipList (map parseEncodingChannel entries))
    | Some (SpecTooltipValue _) => Some TooltipAuto
    | None => None
    end in
  read (buildTooltip (read (buildTooltip t fields)) fields)
  = read (buildTooltip t fields).
Proof.
  intros read. destruct t as [[| |entries]|]; try reflexivity; cbn.
  - do 2 f_equal. rewrite !map_map. apply map_ext. intros f.
    unfold parseEncodingChannel. cbn.
    destruct (Js.truthyStr (name f)) eqn:E; cbn; [rewrite E|]; reflexivity.
  - do 2 f_equal. rewrite !map_map. apply map_ext. intros c.
    unfold parseEncodingChannel. cbn.
    destruct (enc_field c) as [f|]; cbn; [|reflexivity].
    destruct (Js.truthyStr f) eqn:E; cbn; [rewrite E|]; reflexivity.
Qed.

Lemma restacked m e :
  let enc1 := {| se_x := buildChannel (x e); se_y := buildChannel (y e);
                 se_color := buildChannel (color e);
                 se_size := buildChannel (size e);
                 se_tooltip := None |} in
  forall t1 t2,
  let E1 := applyStacking m
              {| se_x := se_x enc1; se_y := se_y enc1; se_color := se_color enc1;
                 se_size := se_size enc1; se_tooltip := t1 |} in
  let st' := match stackOf (se_y E1) with
             | Some s => Some s
             | None => stackOf (se_x E1)
             end in
  let m' := {| mark_type := mark_type m; mark_point := mark_point m;
               mark_stacked := st'; mark_opacity := None; mark_size := None;
               mark_strokeWidth := None; mark_interpolate := None |} in
  let E2 := applyStacking m'
              {| se_x := se_x enc1; se_y := se_y enc1; se_color := se_color enc1;
                 se_size := se_size enc1; se_tooltip := t2 |} in
  match stackOf (se_y E2) with
  | Some s => Some s
  | None => stackOf (se_x E2)
  end = st'.
Proof.
  intros enc1 t1 t2 E1 st' m' E2.
  assert (Hx0 : stackOf (buildChannel (x e)) = None) by apply buildChannel_no_stack.
  assert (Hy0 : stackOf (buildChannel (y e)) = None) by apply buildChannel_no_stack.
  subst E2 m' st' E1 enc1. unfold applyStacking.
  cbn [se_x se_y se_color se_size se_tooltip mark_stacked mark_type].
  destruct (mark_stacked m) as [s|];
    [destruct (isBarOrArea (mark_type m)) eqn:Hm|];
    [destruct (isQuantitative (buildChannel (y e))) eqn:Hy;
     [|destruct (isQuantitative (buildChannel (x e))) eqn:Hx] | |];
    cbn [se_x se_y se_color se_size se_tooltip mark_stacked mark_type];
    rewrite ?Hx0, ?Hy0, ?withStack_stack by assumption;
    cbn [se_x se_y se_color se_size se_tooltip mark_stacked mark_type];
    rewrite ?Hm, ?Hy, ?Hx;
    cbn [se_x se_y se_color se_size se_tooltip mark_stacked mark_type];
    rewrite ?Hx0, ?Hy0, ?withStack_stack by assumption; reflexivity.
Qed.

Lemma readProp_setWhenDefined {A} (v : option A) :
  readProp (setWhenDefined v) = v.
Proof. now destruct v. Qed.

Lemma decompile_compiled M fields :
  asBuilderState (parseSpecToBuilderState (buildSpec M fields))
  = Some (decompiled M fields).
Proof.
  unfold asBuilderState, parseSpecToBuilderState, decompiled.
  cbn [p_mark p_encodings p_transforms p_width p_height p_title
       p_description p_background p_padding].
  rewrite !readProp_setWhenDefined. reflexivity.
Qed.

Lemma buildSpec_encoding M fields :
  s_encoding (buildSpec M fields) = Some (compiledEncoding M fields).
Proof. reflexivity. Qed.

Lemma parseEncodings_compiled M fields :
  parseEncodings (buildSpec M fields)
  = {| x := option_map parseEncodingChannel (buildChannel (x (encodings M)));
       y := option_map parseEncodingChannel (buildChannel (y (encodings M)));
       color := option_map parseEncodingChannel (buildChannel (color (encodings M)));
       size := option_map parseEncodingChannel (buildChannel (size (encodings M)));
       tooltip :=
         match buildTooltip (tooltip (encodings M)) fields with
         | Some (SpecTooltipArray entries) =>
             Some (TooltipList (map parseEncodingChannel entries))
         | Some (SpecTooltipValue _) => Some TooltipAuto
         | None => None
         end |}.
Proof.
  unfold parseEncodings. rewrite buildSpec_encoding. unfold compiledEncoding.
  destruct (parse_after_stacking (mark M) (plainEncoding M fields))
    as (Px & Py & Pc & Ps & Pt).
  rewrite Px, Py, Pc, Ps, Pt. reflexivity.
Qed.

Lemma decompiled_encodings_stable M fields :
  parseEncodings (buildSpec (decompiled M fields) fields)
  = parseEncodings (buildSpec M fields).
Proof.
  rewrite (parseEncodings_compiled (decompiled M fields)).
  cbn [decompiled encodings]. rewrite (parseEncodings_compiled M).
  cbn [x y color size tooltip]. rewrite !reparse_channel.
  rewrite (reparse_tooltip (tooltip (encodings M)) fields). reflexivity.
Qed.

Lemma decompiled_stack_stable M fields :
  match stackOf (se_y (compiledEncoding (decompiled M fields) fields)) with
  | Some s => Some s
  | None => stackOf (se_x (compiledEncoding (decompiled M fields) fields))
  end
  = mark_stacked (mark (decompiled M fields)).
Proof.
  unfold compiledEncoding at 1 2. unfold plainEncoding at 1 2.
  cbn [decompiled encodings mark]. rewrite (parseEncodings_compiled M).
  cbn [x y color size tooltip]. rewrite !rebuild_channel.
  apply (restacked (mark M) (encodings M)).
Qed.

Lemma builderState_ext (a b : BuilderState) :
  mark a = mark b -> encodings a = encodings b -> transforms a = transforms b ->
  width a = width b -> height a = height b -> title a = title b ->
  description a = description b -> background a = background b ->
  padding a = padding b -> a = b.
Proof. destruct a, b; cbn; intros; subst; reflexivity. Qed.

Lemma decompiled_transforms_expressions M fields :
  forallb hasExpression (transforms (decompiled M fields)) = true.
Proof. apply parseTransforms_expressions. Qed.

(** X8. For every model M and field list, decompiling buildSpec(M, fields)
    yields a complete builder state M', and M' is a fixed point of
    compile-then-decompile: decompiling buildSpec(M', fields) yields M'
    again. *)
Theorem round_trip_reaches_fixed_point : forall M fields,
  exists M',
    asBuilderState (parseSpecToBuilderState (buildSpec M fields)) = Some M'
    /\ asBuilderState (parseSpecToBuilderState (buildSpec M' fields)) = Some M'.
Proof.
  intros M fields. exists (decompiled M fields).
  split; [apply decompile_compiled|].
  rewrite decompile_compiled. f_equal.
  apply builderState_ext.
  - cbn [decompiled mark]. f_equal. apply decompiled_stack_stable.
  - apply decompiled_encodings_stable.
  - cbn [decompiled transforms].
    apply (parse_build_transforms (decompiled M fields) fields).
    apply decompiled_transforms_expressions.
  - cbn. destruct (width M) as [[n|]|]; reflexivity.
  - cbn. destruct (height M) as [[n|]|]; reflexivity.
  - cbn. destruct (title M) as [[|c t]|]; reflexivity.
  - cbn. destruct (description M) as [[|c t]|]; reflexivity.
  - cbn. destruct (background M) as [[|c t]|]; reflexivity.
  - reflexivity.
Qed.

Lemma compiledEncoding_stable M fields :
  tooltipKept (tooltip (encodings M)) fields = true ->
  compiledEncoding (decompiled M fields) fields = compiledEncoding M fields.
Proof.
  intros Hk. unfold compiledEncoding at 1. unfold plainEncoding.
  cbn [decompiled encodings mark]. rewrite (parseEncodings_compiled M).
  cbn [x y color size tooltip].
  pose proof (rebuild_encoding (mark M) (encodings M) fields Hk) as R.
  cbv zeta in R. unfold compiledEncoding, plainEncoding.
  destruct (parse_after_stacking (mark M) (plainEncoding M fields))
    as (Px & Py & Pc & Ps & Pt).
  unfold plainEncoding in Px, Py, Pc, Ps, Pt.
  rewrite Pc, Ps, Pt in R. cbn [se_color se_size se_tooltip] in R.
  rewrite Px, Py in R. cbn [se_x se_y] in R. exact R.
Qed.

(** X9. For a model whose transforms are filters and calculates with a
    non-empty expression and whose tooltip entries the decompiler keeps,
    decompiling the compiled spec yields a complete state M', and
    recompiling M' gives the very same spec (every property, including the
    mark's style hints and the config block) if and only if the mark has no
    opacity, size or stroke width, no interpolation when it is a line or
    area, the model has no padding, and both width and height are present. *)
Theorem round_trip_exact_iff : forall M fields,
  forallb hasExpression (transforms M) = true ->
  tooltipKept (tooltip (encodings M)) fields = true ->
  exists M',
    asBuilderState (parseSpecToBuilderState (buildSpec M fields)) = Some M'
    /\ (buildSpec M' fields = buildSpec M fields
        <-> mark_opacity (mark M) = None
            /\ mark_size (mark M) = None
            /\ mark_strokeWidth (mark M) = None
            /\ (isLineOrArea (mark_type (mark M)) = true ->
                mark_interpolate (mark M) = None)
            /\ padding M = None
            /\ width M <> None
            /\ height M <> None).
Proof.
  intros M fields Ht Hk. exists (decompiled M fields).
  split; [apply decompile_compiled|].
  pose proof (compiledEncoding_stable M fields Hk) as He.
  pose proof (parse_build_transforms M fields Ht) as Htr.
  split.
  - intros E.
    pose proof (f_equal s_mark E) as Em.
    pose proof (f_equal s_config E) as Ec.
    pose proof (f_equal s_padding E) as Ep.
    cbn in Em, Ec, Ep.
    destruct (isLineOrArea (mark_type (mark M))) eqn:Hl;
      inversion Em as [[Ho Hs Hw]]; clear Em.
    all: repeat split; auto; try discriminate.
    all: intros H0; rewrite H0 in Ec;
      destruct (width M) as [[?|]|], (height M) as [[?|]|]; discriminate.
  - intros (Ho & Hs & Hw & Hi & Hp & Hwd & Hht).
    unfold buildSpec.
    change (applyStacking (mark (decompiled M fields)) _)
      with (compiledEncoding (decompiled M fields) fields).
    change (applyStacking (mark M) _) with (compiledEncoding M fields).
    rewrite He. clear He.
    cbn [decompiled mark transforms width height title description background
         padding mark_type mark_point mark_opacity mark_size mark_strokeWidth
         mark_interpolate].
    rewrite Htr, Ho, Hs, Hw, Hp.
    assert (Hi' : (if isLineOrArea (mark_type (mark M))
                   then mark_interpolate (mark M) else None) = None).
    { destruct (isLineOrArea (mark_type (mark M))); auto. }
    rewrite Hi'.
    replace (if isLineOrArea (mark_type (mark M)) then None else None)
      with (@None Interpolate)
      by (destruct (isLineOrArea (mark_type (mark M))); reflexivity).
    unfold buildSpec.
    cbn [s_width s_height s_title s_description s_background].
    destruct (width M) as [[wn|]|]; [| |congruence];
      destruct (height M) as [[hn|]|]; try congruence;
      destruct (title M) as [[|c1 t1]|], (description M) as [[|c2 t2]|],
               (background M) as [[|c3 t3]|];
      reflexivity.
Qed.

(** The scatter plot, which has a title, a filter and both dimensions. *)
Lemma round_trip_exact_iff_witness :
  exists M',
    asBuilderState (parseSpecToBuilderState (buildSpec scatterPlot salesFields))
    = Some M'
    /\ (buildSpec M' salesFields = buildSpec scatterPlot salesFields
        <-> mark_opacity (mark scatterPlot) = None
            /\ mark_size (mark scatterPlot) = None
            /\ mark_strokeWidth (mark scatterPlot) = None
            /\ (isLineOrArea (mark_type (mark scatterPlot)) = true ->
                mark_interpolate (mark scatterPlot) = None)
            /\ padding scatterPlot = None
            /\ width scatterPlot <> None /\ height scatterPlot <> None).
Proof.
  apply (round_trip_exact_iff scatterPlot salesFields); reflexivity.
Defined.

(** ** More on the planner *)

Lemma planner_resolveField_in candidate fieldNames f :
  NlPlanner.resolveField candidate fieldNames = Some f -> In f fieldNames.
Proof.
  unfold NlPlanner.resolveField, Js.find, Js.arrayIncludes.
  destruct (existsb (String.eqb candidate) fieldNames) eqn:Ex.
  - intros H. inversion H; subst f.
    apply existsb_exists in Ex as [g [Hin Hg]].
    apply String.eqb_eq in Hg. now subst g.
  - destruct (find (fun g => String.eqb (Js.toLowerCase g) (Js.toLowerCase candidate))
                   fieldNames) as [ci|] eqn:E.
    + destruct (Js.truthyStr ci).
      * intros H. inversion H; subst ci. now apply find_some in E as [E _].
      * intros H. now apply find_some in H as [H _].
    + intros H. now apply find_some in H as [H _].
Qed.

Lemma startsWith_refl s : Js.startsWith s s = true.
Proof.
  induction s as [|c s IH]; [reflexivity|].
  cbn. now rewrite Ascii.eqb_refl, IH.
Qed.

Lemma includes_refl s : Js.includes s s = true.
Proof. destruct s; cbn [Js.includes]; now rewrite startsWith_refl. Qed.

(** X10. The planner's resolveField returns a candidate that is itself one
    of the field names unchanged, and whatever it returns is one of the
    field names and contains the candidate up to letter case. *)
Theorem planner_resolveField_member : forall candidate fieldNames,
  (In candidate fieldNames ->
   NlPlanner.resolveField candidate fieldNames = Some candidate)
  /\ (forall f, NlPlanner.resolveField candidate fieldNames = Some f ->
        In f fieldNames
        /\ Js.includes (Js.toLowerCase f) (Js.toLowerCase candidate) = true).
Proof.
  intros candidate fieldNames. split.
  - intros Hin. unfold NlPlanner.resolveField, Js.arrayIncludes.
    replace (existsb (String.eqb candidate) fieldNames) with true; [reflexivity|].
    symmetry. apply existsb_exists. exists candidate. split; [exact Hin|].
    apply String.eqb_refl.
  - intros f H. split; [now apply planner_resolveField_in in H|].
    destruct (planner_resolveField_rules _ _ _ H) as [->|[E|E]].
    + apply includes_refl.
    + rewrite E. apply includes_refl.
    + exact E.
Qed.

(** A field name resolves to itself. *)
Lemma planner_resolveField_member_witness :
  NlPlanner.resolveField "Sales" (map name salesFields) = Some "Sales".
Proof.
  apply (proj1 (planner_resolveField_member "Sales" (map name salesFields))).
  cbn. auto.
Defined.

Lemma ops_at_most_one lower fieldNames :
  (List.length (NlPlanner.markOps lower) <= 1
   /\ List.length (NlPlanner.colorByOps lower fieldNames) <= 1
   /\ List.length (NlPlanner.makeOps lower) <= 1
   /\ List.length (NlPlanner.topNOps lower fieldNames) <= 1
   /\ List.length (NlPlanner.sortOps lower fieldNames) <= 1
   /\ List.length (NlPlanner.altColorOps lower fieldNames) <= 1
   /\ List.length (NlPlanner.titleOps lower) <= 1
   /\ List.length (NlPlanner.schemeOps lower) <= 1)%nat.
Proof.
  unfold NlPlanner.markOps, NlPlanner.colorByOps, NlPlanner.makeOps,
    NlPlanner.topNOps, NlPlanner.sortOps, NlPlanner.altColorOps,
    NlPlanner.titleOps, NlPlanner.schemeOps.
  repeat split;
    repeat match goal with
           | |- context [match ?x with _ => _ end] => destruct x
           | |- context [if ?x then _ else _] => destruct x
           end; cbn [List.length]; lia.
Qed.

Lemma run_wordb p s caps k :
  Regex.run Regex.WordB p s caps k
  = if xorb (Regex.isWordBefore p) (Regex.isWordAfter s) then k p s caps else None.
Proof. reflexivity. Qed.

Lemma linesRe_here p s res :
  Regex.matchHere NlPlanner.linesRe p s = Some res -> Js.startsWith "line" s = true.
Proof.
  unfold Regex.matchHere.
  change NlPlanner.linesRe
    with (Regex.Seq Regex.WordB (Regex.Seq (Regex.lit "lines") Regex.WordB)).
  rewrite run_seq, run_wordb.
  destruct (xorb _ _); [|discriminate].
  rewrite run_seq, run_lit.
  destruct (Js.startsWith "lines" s) eqn:E; [|discriminate].
  intros _. rewrite (startsWith_app _ _ E). reflexivity.
Qed.

Lemma search_lines : forall s before p m,
  Regex.search NlPlanner.linesRe before p s = Some m ->
  Js.includes s "line" = true.
Proof.
  induction s as [|d s IH]; intros before p m H; cbn [Regex.search] in H.
  - destruct (Regex.matchHere NlPlanner.linesRe p EmptyString) eqn:E; [|discriminate].
    apply linesRe_here in E. discriminate.
  - destruct (Regex.matchHere NlPlanner.linesRe p (String d s)) eqn:E.
    + apply linesRe_here in E. cbn [Js.includes]. now rewrite E.
    + apply IH in H. cbn [Js.includes]. rewrite H. apply orb_true_r.
Qed.

(** Where the mark pattern finds a mark word, the first matcher emits a
    [set_mark]. *)
Lemma markOps_of_first_word lower w :
  firstMarkWord lower = Some w ->
  exists t, NlPlanner.markTypeOfString w = Some t
    /\ NlPlanner.markOps lower
       = [set_mark t (Some {| opt_point := Some (Js.includes lower "with points");
                              opt_stacked := None |})].
Proof.
  intros Hfirst.
  destruct (firstMarkWord_first lower w Hfirst) as [Hin _].
  destruct (markTypeOfString_word w Hin) as [t [Ht _]].
  destruct (search_markRe lower [] None w Hfirst) as [m [Hexec Hcap]].
  exists t. split; [exact Ht|].
  unfold NlPlanner.markOps, Regex.exec. now rewrite Hexec, Hcap, Ht.
Qed.

Lemma linesOps_never_fires lower fieldNames :
  NlPlanner.linesOps (matcherOps lower fieldNames) lower = [].
Proof.
  unfold NlPlanner.linesOps.
  destruct (Regex.test NlPlanner.linesRe lower) eqn:T;
    [|now rewrite andb_false_r].
  unfold Regex.test, Regex.exec in T.
  destruct (Regex.search NlPlanner.linesRe [] None lower) as [m|] eqn:S;
    [|discriminate].
  apply search_lines in S.
  destruct (firstMarkWord lower) as [w|] eqn:F.
  - destruct (markOps_of_first_word lower w F) as [t [_ Hops]].
    unfold matcherOps. rewrite Hops. reflexivity.
  - exfalso. apply (includes_firstMarkWord "line" lower); auto.
    left. reflexivity.
Qed.

Lemma operations_are_matcherOps input fieldNames builder :
  operations (NlPlanner.parseNLToPlan input fieldNames builder)
  = matcherOps (NlPlanner.norm (Js.trim input)) fieldNames.
Proof.
  unfold NlPlanner.parseNLToPlan. cbn [operations].
  change (NlPlanner.markOps ?l ++ _) with (matcherOps l fieldNames).
  rewrite linesOps_never_fires. apply app_nil_r.
Qed.

(** X11. The last step of parseNLToPlan (the word 'lines' without a set_mark
    adds a line mark) never contributes an operation: the operations of
    every plan are those of the eight matchers before it, in order, and a
    set_mark to line without options never occurs in a plan, because the
    mark matcher already fires on any command that contains 'line'. *)
Theorem plural_nudge_never_fires : forall input fieldNames builder,
  operations (NlPlanner.parseNLToPlan input fieldNames builder)
  = matcherOps (NlPlanner.norm (Js.trim input)) fieldNames
  /\ ~ In (set_mark line None)
          (operations (NlPlanner.parseNLToPlan input fieldNames builder)).
Proof.
  intros input fieldNames builder. split; [apply operations_are_matcherOps|].
  rewrite operations_are_matcherOps. unfold matcherOps.
  set (lower := NlPlanner.norm (Js.trim input)).
  unfold NlPlanner.markOps, NlPlanner.colorByOps, NlPlanner.makeOps,
    NlPlanner.topNOps, NlPlanner.sortOps, NlPlanner.altColorOps,
    NlPlanner.titleOps, NlPlanner.schemeOps.
  rewrite !in_app_iff.
  intros H; repeat destruct H as [H|H];
    repeat match type of H with
           | context [match ?x with _ => _ end] => destruct x
           | context [if ?x then _ else _] => destruct x
           end;
    cbn in H; try contradiction;
    repeat destruct H as [H|H]; try discriminate; try contradiction.
Qed.

Lemma digitsValueFrom_nonneg s : forall acc, 0 <= acc -> 0 <= JsObject.digitsValueFrom acc s.
Proof.
  induction s as [|c s IH]; intros acc H; cbn [JsObject.digitsValueFrom];
    [exact H|].
  apply IH. lia.
Qed.

Lemma truthy_resolved candidate fieldNames fld :
  NlPlanner.resolveField candidate fieldNames = Some fld ->
  Js.truthyStr fld = true -> In fld fieldNames /\ fld <> EmptyString.
Proof.
  intros H T. split; [now apply planner_resolveField_in in H|].
  intros ->. discriminate.
Qed.

Lemma keys_nil_of_nil {A} (o : JsObject.t A) : o = [] -> JsObject.keys o = [].
Proof. intros ->. reflexivity. Qed.

Lemma matcherOps_shape lower fieldNames o :
  In o (matcherOps lower fieldNames) -> plannerShape fieldNames o.
Proof.
  unfold matcherOps. rewrite !in_app_iff.
  intros [H|[H|[H|[H|[H|[H|[H|H]]]]]]].
  - unfold NlPlanner.markOps in H.
    repeat match type of H with
           | context [match ?x with _ => _ end] => destruct x
           end; cbn [In] in H; try contradiction.
    destruct H as [<-|[]]. unfold plannerShape. eauto.
  - unfold NlPlanner.colorByOps in H.
    destruct (match Regex.exec NlPlanner.colorByRe lower with
              | Some m => Some m
              | None => Regex.exec NlPlanner.colorByRe2 lower
              end) as [m|]; [|contradiction].
    destruct (Regex.captured 1 m) as [[|c r]|]; try contradiction.
    destruct (NlPlanner.resolveField (String c r) fieldNames) as [fld|] eqn:R;
      [|contradiction].
    destruct (Js.truthyStr fld) eqn:T; [|contradiction].
    destruct H as [<-|[]]. unfold plannerShape.
    destruct (truthy_resolved _ _ _ R T). auto.
  - unfold NlPlanner.makeOps in H.
    destruct (Js.includes lower "make "); [|contradiction].
    destruct (nth_error _ 1) as [[|c r]|]; try contradiction.
    destruct (JsObject.keys _) eqn:K; [contradiction|].
    destruct H as [<-|[]]. unfold plannerShape. intros E. rewrite E in K. discriminate.
  - unfold NlPlanner.topNOps in H.
    destruct (Regex.exec NlPlanner.topNRe lower) as [m|]; [|contradiction].
    destruct (Regex.captured 1 m) as [digits|]; [|contradiction].
    destruct H as [<-|[]]. unfold plannerShape. split; [|split; [reflexivity|]].
    + destruct (NlPlanner.isFiniteNumber (NlPlanner.parseInt digits)); [|lia].
      apply digitsValueFrom_nonneg. lia.
    + intros b Hb. destruct (Regex.captured 2 m) as [[|c r]|]; try discriminate.
      pose proof (planner_resolveField_in (String c r) fieldNames b Hb) as Hin.
      split; [exact Hin|].
      intros ->.
      destruct (planner_resolveField_rules _ _ _ Hb) as [E|[E|E]];
        cbn in E; discriminate.
  - unfold NlPlanner.sortOps in H.
    repeat match type of H with
           | context [match ?x with _ => _ end] => destruct x
           end; cbn [In] in H; try contradiction;
      destruct H as [<-|[]]; unfold plannerShape; split; try reflexivity;
      discriminate.
  - unfold NlPlanner.altColorOps in H.
    destruct (Regex.exec NlPlanner.altColorRe lower) as [m|]; [|contradiction].
    destruct (Regex.captured 1 m) as [g1|]; try contradiction.
    destruct (NlPlanner.resolveField g1 fieldNames) as [fld|] eqn:R;
      [|contradiction].
    destruct (Js.truthyStr fld) eqn:T; [|contradiction].
    destruct H as [<-|[]]. unfold plannerShape.
    destruct (truthy_resolved _ _ _ R T). auto.
  - unfold NlPlanner.titleOps in H.
    repeat match type of H with
           | context [match ?x with _ => _ end] => destruct x
           end; cbn [In] in H; try contradiction.
    destruct H as [<-|[]]. exact I.
  - unfold NlPlanner.schemeOps in H.
    repeat match type of H with
           | context [match ?x with _ => _ end] => destruct x
           end; cbn [In] in H; try contradiction.
    destruct H as [<-|[]]. exact I.
Qed.

(** X12. Every operation that parseNLToPlan emits has one of seven shapes:
    set_mark with a definite point flag and no stacking option; set_encoding
    of the color channel to a non-empty member of the field names, without
    type or config; set_series_colors with at least one value;
    set_color_scheme; set_top_n with a non-negative count, descending order
    and a ranking field that, when given, is a non-empty member of the field
    names; set_sort of target 'y' with a by-field; set_title. It never emits
    remove_encoding, add_filter, set_aggregate or set_size. *)
Theorem planner_operations_shape : forall input fieldNames builder o,
  In o (operations (NlPlanner.parseNLToPlan input fieldNames builder)) ->
  plannerShape fieldNames o.
Proof.
  intros input fieldNames builder o. rewrite operations_are_matcherOps.
  apply matcherOps_shape.
Qed.

(** The top-N of 'top 5 by sales'. *)
Lemma planner_operations_shape_witness :
  plannerShape (map name salesFields)
    (set_top_n 5 (Some "Sales") (Some descending)).
Proof.
  apply (planner_operations_shape "top 5 by sales" (map name salesFields)
           getDefaultBuilderState).
  vm_compute. left. reflexivity.
Defined.

Lemma matcherOps_length lower fieldNames :
  (List.length (matcherOps lower fieldNames) <= 8)%nat.
Proof.
  unfold matcherOps. rewrite !length_app.
  pose proof (ops_at_most_one lower fieldNames). lia.
Qed.

Lemma filter_none {A} (f : A -> bool) (l : list A) :
  (forall o, In o l -> f o = false) -> filter f l = [].
Proof.
  induction l as [|a l IH]; intros H; [reflexivity|].
  cbn. rewrite (H a (or_introl eq_refl)). apply IH. intros; apply H. now right.
Qed.

Lemma matcherOps_one_mark lower fieldNames :
  (List.length (filter NlPlanner.isSetMark (matcherOps lower fieldNames)) <= 1)%nat.
Proof.
  unfold matcherOps. rewrite filter_app, length_app.
  rewrite (filter_none NlPlanner.isSetMark
             (NlPlanner.colorByOps lower fieldNames ++ _)).
  - destruct (ops_at_most_one lower fieldNames) as [Hm _].
    pose proof (filter_length_le NlPlanner.isSetMark (NlPlanner.markOps lower)) as Hf.
    cbn [List.length]. lia.
  - intros o Hin. rewrite !in_app_iff in Hin.
    unfold NlPlanner.colorByOps, NlPlanner.makeOps, NlPlanner.topNOps,
      NlPlanner.sortOps, NlPlanner.altColorOps, NlPlanner.titleOps,
      NlPlanner.schemeOps in Hin.
    repeat destruct Hin as [Hin|Hin];
      repeat match type of Hin with
             | context [match ?x with _ => _ end] => destruct x
             | context [if ?x then _ else _] => destruct x
             end; cbn [In] in Hin; try contradiction;
      destruct Hin as [<-|[]]; reflexivity.
Qed.

Lemma confidenceOf_small n :
  (n <= 8)%nat ->
  (0.6 <=? NlPlanner.confidenceOf n)%float = true
  /\ (NlPlanner.confidenceOf n <=? 1)%float = true
  /\ (NlPlanner.confidenceOf n = 1%float <-> (5 <= n)%nat).
Proof.
  intros H.
  do 9 (destruct n as [|n];
        [ split; [|split]; [vm_compute; reflexivity | vm_compute; reflexivity |];
          split; intros E; [try lia; vm_compute in E; discriminate E
                           | try lia; vm_compute; reflexivity]
        | ]).
  lia.
Qed.

(** X13. Every plan of parseNLToPlan has at most eight operations, at most
    one of them a set_mark; its confidence, the binary64 value of
    Math.min(1, 0.6 + count * 0.08), lies between the doubles 0.6 and 1 and
    equals 1 exactly when the plan has five or more operations. *)
Theorem plan_size_and_confidence : forall input fieldNames builder,
  let plan := NlPlanner.parseNLToPlan input fieldNames builder in
  (List.length (operations plan) <= 8)%nat
  /\ (List.length (filter NlPlanner.isSetMark (operations plan)) <= 1)%nat
  /\ (0.6 <=? confidence plan)%float = true
  /\ (confidence plan <=? 1)%float = true
  /\ (confidence plan = 1%float <-> (5 <= List.length (operations plan))%nat).
Proof.
  intros input fieldNames builder plan.
  assert (Hc : confidence plan = NlPlanner.confidenceOf (List.length (operations plan)))
    by reflexivity.
  subst plan. rewrite Hc, operations_are_matcherOps.
  pose proof (matcherOps_length (NlPlanner.norm (Js.trim input)) fieldNames) as Hl.
  split; [exact Hl|]. split; [apply matcherOps_one_mark|].
  apply confidenceOf_small. exact Hl.
Qed.

(** X14. For an input that is empty after trimming, parseNLToPlan returns a
    plan without operations and with confidence 0.6 (the double 0.6 + 0 *
    0.08). *)
Theorem blank_command_plans_nothing : forall input fieldNames builder,
  Js.trim input = EmptyString ->
  let plan := NlPlanner.parseNLToPlan input fieldNames builder in
  operations plan = [] /\ confidence plan = 0.6%float.
Proof.
  intros input fieldNames builder H plan.
  assert (Hops : operations plan = []).
  { subst plan. rewrite operations_are_matcherOps, H. reflexivity. }
  split; [exact Hops|].
  assert (Hc : confidence plan = NlPlanner.confidenceOf (List.length (operations plan)))
    by reflexivity.
  rewrite Hc, Hops. vm_compute. reflexivity.
Qed.

(** Three spaces. *)
Lemma blank_command_plans_nothing_witness :
  operations (NlPlanner.parseNLToPlan "   " (map name salesFields)
                getDefaultBuilderState) = [].
Proof.
  apply (blank_command_plans_nothing "   " (map name salesFields)
           getDefaultBuilderState).
  reflexivity.
Defined.

(** X15. colorWordToHex is idempotent on its string results: a colour it
    returns (a hex code it was given, the hex code of a basic colour word,
    or the word passed through) is returned unchanged when passed in again. *)
Theorem colorWordToHex_idempotent : forall s v,
  NlPlanner.colorWordToHex s = JStr v -> NlPlanner.colorWordToHex v = JStr v.
Proof.
  intros s v. unfold NlPlanner.colorWordToHex at 1.
  destruct (Regex.test NlPlanner.hexColorRe s) eqn:T.
  - intros H. inversion H; subst v. unfold NlPlanner.colorWordToHex. now rewrite T.
  - destruct (NlPlanner.basicLookup (NlPlanner.norm s)) as [j|] eqn:B.
    + unfold NlPlanner.basicLookup, NlPlanner.basic in B.
      cbn [JsObject.get] in B.
      repeat match type of B with
             | context [if ?x then _ else _] => destruct x
             end;
        inversion B; subst j; intros H; inversion H; subst v;
        vm_compute; reflexivity.
    + intros H. inversion H; subst v. unfold NlPlanner.colorWordToHex.
      now rewrite T, B.
Qed.

(** The hex code of 'blue'. *)
Lemma colorWordToHex_idempotent_witness :
  NlPlanner.colorWordToHex "#1f77b4" = JStr "#1f77b4".
Proof.
  apply (colorWordToHex_idempotent "blue"). vm_compute. reflexivity.
Defined.

(** ** Applying the plans of the planner *)

Lemma filter_idem {A} (f : A -> bool) (l : list A) :
  filter f (filter f l) = filter f l.
Proof.
  induction l as [|a l IH]; [reflexivity|].
  cbn. destruct (f a) eqn:E; cbn; [rewrite E, IH|]; auto.
Qed.

Lemma untouched_refl b : untouchedByPlanner b b.
Proof. unfold untouchedByPlanner. repeat split. Qed.

Lemma untouched_step fieldNames dataFields b r o :
  plannerShape fieldNames o ->
  untouchedByPlanner b r ->
  untouchedByPlanner b (applyOperation dataFields r o).
Proof.
  intros Hs (Hx & Hsz & Htt & Hy & H1 & H2 & H3 & H4 & H5 & Hf & Hw & Hh & Hd & Hb & Hp).
  destruct o; cbn [plannerShape] in Hs; try contradiction.
  - (* set_mark *)
    destruct Hs as [pt ->].
    unfold untouchedByPlanner, applyOperation, withMark.
    cbn. repeat split; assumption.
  - (* set_encoding *)
    destruct Hs as (-> & _ & _ & -> & ->).
    unfold untouchedByPlanner, applyOperation, withEncodings, setChannel.
    cbn. repeat split; assumption.
  - (* set_series_colors *)
    unfold untouchedByPlanner, applyOperation.
    destruct (populated (color (encodings r)));
      [|destruct (Js.find isNominal dataFields); [|destruct dataFields]];
      cbn [setChannel color];
      destruct (color (encodings r)) as [c|] eqn:Ec; cbn; repeat split; assumption.
  - (* set_color_scheme *)
    unfold untouchedByPlanner, applyOperation.
    destruct (color (encodings r)) as [c|] eqn:Ec;
      [|destruct (Js.find isNominal dataFields)];
      cbn [setChannel color]; rewrite ?Ec;
      cbn; repeat split; assumption.
  - (* set_top_n *)
    unfold untouchedByPlanner, applyOperation.
    match goal with
    | |- context [if ?c then _ else _] => destruct c
    end; cbn [withTransforms encodings mark transforms width height
                description background padding];
      repeat split; try assumption.
    + rewrite filter_app. cbn [filter isTopN negb]. rewrite app_nil_r.
      rewrite filter_idem. exact Hf.
    + rewrite filter_idem. exact Hf.
  - (* set_sort *)
    destruct Hs as [-> _].
    unfold untouchedByPlanner, applyOperation.
    cbn [String.eqb Ascii.eqb Bool.eqb getChannel setChannel withEncodings].
    cbn. repeat split; try assumption.
    rewrite <- Hy. destruct (y (encodings r)); reflexivity.
  - (* set_title *)
    unfold untouchedByPlanner, applyOperation. cbn. repeat split; assumption.
Qed.

Lemma untouched_fold fieldNames dataFields b ops :
  Forall (plannerShape fieldNames) ops ->
  forall r, untouchedByPlanner b r ->
  untouchedByPlanner b (fold_left (applyOperation dataFields) ops r).
Proof.
  induction 1 as [|o ops Ho _ IH]; intros r Hr; [exact Hr|].
  cbn [fold_left]. apply IH. eapply untouched_step; eauto.
Qed.

(** X16. Applying the plan that parseNLToPlan makes of any command leaves
    these parts of the model as they were: the x and size channels and the
    tooltip, the field of the y channel, the mark's stacking, opacity, size,
    stroke width and interpolation, every transform that is not a top-N (in
    order), width, height, description, background and padding. *)
Theorem regex_plan_leaves_rest_untouched :
  forall input fieldNames builder dataFields,
    untouchedByPlanner builder
      (applyPlan builder (NlPlanner.parseNLToPlan input fieldNames builder)
                 dataFields).
Proof.
  intros input fieldNames builder dataFields. unfold applyPlan, jsonClone.
  apply untouched_fold with (fieldNames := fieldNames); [|apply untouched_refl].
  apply Forall_forall. intros o Ho.
  rewrite operations_are_matcherOps in Ho.
  now apply matcherOps_shape in Ho.
Qed.

(** ** The panels *)

Lemma Forall_slice {A} (P : A -> Prop) (l : list A) a b :
  Forall P l -> Forall P (Js.slice l a b).
Proof.
  intros H. unfold Js.slice.
  set (n := Z.to_nat (Js.relIndex _ a)). set (m := Z.to_nat _).
  rewrite <- (firstn_skipn n l) in H. apply Forall_app in H as [_ H].
  rewrite <- (firstn_skipn m (skipn n l)) in H. now apply Forall_app in H as [H _].
Qed.

Lemma capture_compiled d now st :
  compiledFromModel st -> compiledFromModel (captureSnapshot d now st).
Proof.
  intros [Hs Hh]. unfold compiledFromModel, captureSnapshot.
  cbn [vegaSpec builderState dataFields history]. split; [exact Hs|].
  assert (H2 : Forall (fun s => snap_spec s
                         = buildSpec (snap_builderState s) (dataFields st))
                      (Js.slice (history st) 0 (historyIndex st + 1)
                       ++ [snapshotOf d now st])).
  { apply Forall_app. split; [now apply Forall_slice|].
    constructor; [|constructor]. exact Hs. }
  destruct (50 <? _); [|exact H2].
  unfold Js.sliceFrom. now apply Forall_slice.
Qed.

Lemma setBuilderState_compiled u st :
  compiledFromModel st -> compiledFromModel (setBuilderState u st).
Proof. intros [_ Hh]. split; [reflexivity|exact Hh]. Qed.

Lemma restoreAt_compiled st i st' :
  compiledFromModel st -> restoreAt st i = Some st' -> compiledFromModel st'.
Proof.
  intros [_ Hh] H. unfold restoreAt in H.
  destruct (historyAt st i) as [snap|] eqn:E; [|discriminate].
  inversion H; subst st'; clear H.
  split; [|exact Hh]. cbn [vegaSpec builderState dataFields jsonClone].
  unfold historyAt in E. destruct (i <? 0); [discriminate|].
  apply nth_error_In in E. rewrite Forall_forall in Hh. now apply Hh.
Qed.

Lemma filter_nonTopN_nil ts :
  forallb isTopN ts = true -> filter (fun t => negb (isTopN t)) ts = [].
Proof.
  induction ts as [|t ts IH]; [reflexivity|].
  cbn. intros H. apply andb_true_iff in H as [Ht Hts]. rewrite Ht. cbn. auto.
Qed.

Lemma atMostOneTopN_step fieldNames dataFields b o :
  plannerShape fieldNames o ->
  atMostOneTopN (transforms b) ->
  atMostOneTopN (transforms (applyOperation dataFields b o)).
Proof.
  intros Hs [Hl Ha].
  destruct o; cbn [plannerShape] in Hs; try contradiction;
    cbn [applyOperation];
    repeat match goal with
           | |- context [match ?x with _ => _ end] => destruct x
           | |- context [if ?x then _ else _] => destruct x
           end;
    cbn [transforms withMark withEncodings withTransforms];
    rewrite ?(filter_nonTopN_nil _ Ha);
    try (split; assumption);
    split; cbn; auto; lia.
Qed.

Lemma atMostOneTopN_fold fieldNames dataFields ops :
  Forall (plannerShape fieldNames) ops ->
  forall b, atMostOneTopN (transforms b) ->
  atMostOneTopN (transforms (fold_left (applyOperation dataFields) ops b)).
Proof.
  induction 1 as [|o ops Ho _ IH]; intros b Hb; [exact Hb|].
  cbn [fold_left]. apply IH. eapply atMostOneTopN_step; eauto.
Qed.

Lemma atMostOneTopN_plan input fieldNames b dataFields :
  atMostOneTopN (transforms b) ->
  atMostOneTopN
    (transforms (applyPlan b (NlPlanner.parseNLToPlan input fieldNames b)
                   dataFields)).
Proof.
  intros Hb. unfold applyPlan, jsonClone.
  apply atMostOneTopN_fold with (fieldNames := fieldNames); [|exact Hb].
  apply Forall_forall. intros o Ho.
  rewrite operations_are_matcherOps in Ho.
  now apply matcherOps_shape in Ho.
Qed.

Lemma atMostOneTopN_not_custom b dataFields :
  atMostOneTopN (transforms b) -> isCustomSpec (buildSpec b dataFields) = false.
Proof.
  intros [Hl Ha]. unfold isCustomSpec, buildSpec.
  cbn [s_facet s_layer s_hconcat s_vconcat s_repeat s_transform s_data
       truthyProp data_url Js.truthyOptStr orb].
  destruct (transforms b) as [|t [|t' ts]]; [reflexivity| |cbn in Hl; lia].
  destruct t; try discriminate. reflexivity.
Qed.

Lemma capture_invariant d now st :
  panelInvariant st -> panelInvariant (captureSnapshot d now st).
Proof.
  intros (Hok & Hc & Ht & Hh). split; [now apply capture_ok|].
  split; [now apply capture_compiled|]. split; [exact Ht|].
  unfold captureSnapshot. cbn [history].
  assert (H2 : Forall (fun s => atMostOneTopN (transforms (snap_builderState s)))
                      (Js.slice (history st) 0 (historyIndex st + 1)
                       ++ [snapshotOf d now st])).
  { apply Forall_app. split; [now apply Forall_slice|].
    constructor; [|constructor]. exact Ht. }
  destruct (50 <? _); [|exact H2].
  unfold Js.sliceFrom. now apply Forall_slice.
Qed.

Lemma setBuilderState_invariant u st :
  panelInvariant st ->
  atMostOneTopN (transforms (mergeBuilderState (builderState st) u)) ->
  panelInvariant (setBuilderState u st).
Proof.
  intros (Hok & Hc & Ht & Hh) Hu. split; [exact Hok|].
  split; [now apply setBuilderState_compiled|]. split; [exact Hu|exact Hh].
Qed.

Lemma restoreAt_invariant st i :
  panelInvariant st -> 0 <= i < Z.of_nat (List.length (history st)) ->
  exists st', restoreAt st i = Some st' /\ panelInvariant st'
    /\ dataFields st' = dataFields st.
Proof.
  intros (Hok & Hc & Ht & Hh) Hi.
  destruct (restoreAt_ok st i Hok Hi) as [st' [R Hok']].
  exists st'. split; [exact R|].
  pose proof (restoreAt_compiled st i st' Hc R) as Hc'.
  unfold restoreAt in R. destruct (historyAt st i) as [snap|] eqn:E;
    [|discriminate].
  inversion R; subst st'. split; [|reflexivity].
  split; [exact Hok'|]. split; [exact Hc'|]. split; [|exact Hh].
  cbn [builderState jsonClone]. unfold historyAt in E.
  destruct (i <? 0); [discriminate|]. apply nth_error_In in E.
  rewrite Forall_forall in Hh. now apply Hh.
Qed.

Lemma edit_invariant e now st :
  panelInvariant st ->
  exists st', edit e now st = Some st' /\ panelInvariant st'
    /\ dataFields st' = dataFields st.
Proof.
  intros H.
  assert (Hid : exists st', Some st = Some st' /\ panelInvariant st'
                  /\ dataFields st' = dataFields st) by eauto.
  assert (Hcs : forall d u,
             atMostOneTopN (transforms (mergeBuilderState (builderState st) u)) ->
             exists st', Some (setBuilderState u (captureSnapshot d now st)) = Some st'
               /\ panelInvariant st' /\ dataFields st' = dataFields st).
  { intros d u Hu. eexists. split; [reflexivity|]. split; [|reflexivity].
    apply setBuilderState_invariant; [now apply capture_invariant|exact Hu]. }
  assert (Ht : atMostOneTopN (transforms (builderState st))) by apply H.
  destruct e; cbn [edit].
  - apply Hcs. exact Ht.
  - apply Hcs. exact Ht.
  - apply Hcs. exact Ht.
  - unfold handleFieldChange. destruct (Js.truthyStr field); apply Hcs; exact Ht.
  - unfold handleTypeChange.
    destruct (getChannel _ _); cbn [onUpdate]; [apply Hcs; exact Ht|exact Hid].
  - unfold handleAggregateChange.
    destruct (getChannel _ _); cbn [onUpdate]; [apply Hcs; exact Ht|exact Hid].
  - apply Hcs. exact Ht.
  - unfold handleApplyCommand.
    destruct (negb _); [exact Hid|]. destruct (_ && _)%bool; [exact Hid|].
    apply Hcs. cbn [mergeBuilderState asPartial p_transforms transforms].
    now apply atMostOneTopN_plan.
  - unfold undo. destruct (0 <? historyIndex st) eqn:E; [|exact Hid].
    apply Z.ltb_lt in E. apply restoreAt_invariant; [exact H|].
    destruct H as [[? ?] _]. lia.
  - unfold redo. destruct (historyIndex st <? _) eqn:E; [|exact Hid].
    apply Z.ltb_lt in E. apply restoreAt_invariant; [exact H|].
    destruct H as [[? ?] _]. lia.
Qed.

Lemma edits_invariant es : forall st,
  panelInvariant st ->
  exists st', edits es st = Some st' /\ panelInvariant st'
    /\ dataFields st' = dataFields st.
Proof.
  induction es as [|[e now] es IH]; intros st H; cbn [edits].
  - eauto.
  - destruct (edit_invariant e now st H) as (st1 & -> & H1 & F1).
    destruct (IH st1 H1) as (st2 & E2 & H2 & F2).
    exists st2. split; [exact E2|]. split; [exact H2|]. congruence.
Qed.

(** X17. From the store as created, every session of mark-panel and
    encodings-panel edits, regex commands, undo and redo runs to the end
    without raising and ends in a store whose data fields are unchanged,
    whose spec is buildSpec of its model, whose snapshots each pair a model
    with its compiled spec, whose spec is not a custom spec (the builder is
    never disabled), and whose history is well formed. *)
Theorem panel_session_keeps_spec_compiled : forall fields es,
  exists st, edits es (initialState fields) = Some st
    /\ dataFields st = fields
    /\ vegaSpec st = buildSpec (builderState st) fields
    /\ Forall (fun s => snap_spec s = buildSpec (snap_builderState s) fields)
              (history st)
    /\ isCustomSpec (vegaSpec st) = false
    /\ historyOk st.
Proof.
  intros fields es.
  destruct (edits_invariant es (initialState fields))
    as (st & E & (Hok & [Hs Hh] & Ht & _) & F).
  { split; [apply initial_ok|]. split; [split; [reflexivity|constructor]|].
    split; [|constructor]. split; [cbn; lia|reflexivity]. }
  cbn [initialState dataFields] in F. rewrite F in Hs, Hh.
  exists st. repeat (split; [assumption|]). split; [|exact Hok].
  rewrite Hs. now apply atMostOneTopN_not_custom.
Qed.

(** ** The regex command and the applier *)

Lemma keepsOptionals_step dataFields b r o :
  keepsOptionals b r -> keepsOptionals b (applyOperation dataFields r o).
Proof.
  intros (Hw & Hh & Ht & Hd & Hb & Hp).
  assert (Hsame : forall r', width r' = width r -> height r' = height r ->
                    title r' = title r -> description r' = description r ->
                    background r' = background r -> padding r' = padding r ->
                    keepsOptionals b r').
  { intros r' E1 E2 E3 E4 E5 E6. unfold keepsOptionals.
    rewrite E1, E2, E3, E4, E5, E6. repeat split; assumption. }
  destruct o; cbn [applyOperation]; try (apply Hsame; reflexivity).
  - (* set_series_colors *)
    repeat match goal with
           | |- context [match ?x with _ => _ end] => destruct x
           | |- context [if ?x then _ else _] => destruct x
           end; apply Hsame; reflexivity.
  - (* set_color_scheme *)
    repeat match goal with
           | |- context [match ?x with _ => _ end] => destruct x
           | |- context [if ?x then _ else _] => destruct x
           end; apply Hsame; reflexivity.
  - (* set_top_n *)
    match goal with
    | |- context [if ?x then _ else _] => destruct x
    end; apply Hsame; reflexivity.
  - (* set_sort *)
    repeat match goal with
           | |- context [if ?x then _ else _] => destruct x
           end; apply Hsame; reflexivity.
  - (* set_aggregate *)
    destruct (getChannel _ _); apply Hsame; reflexivity.
  - (* set_title *)
    unfold keepsOptionals. cbn. repeat split; try assumption. discriminate.
  - (* set_size *)
    unfold keepsOptionals. cbn. unfold Js.nullish.
    destruct newWidth, newHeight; repeat split; try assumption; discriminate.
Qed.

Lemma keepsOptionals_fold dataFields b ops : forall r,
  keepsOptionals b r ->
  keepsOptionals b (fold_left (applyOperation dataFields) ops r).
Proof.
  induction ops as [|o ops IH]; intros r Hr; [exact Hr|].
  cbn [fold_left]. apply IH. now apply keepsOptionals_step.
Qed.

Lemma merge_applied b plan dataFields :
  mergeBuilderState b (asPartial (applyPlan b plan dataFields))
  = applyPlan b plan dataFields.
Proof.
  assert (H : keepsOptionals b (applyPlan b plan dataFields)).
  { unfold applyPlan, jsonClone. apply keepsOptionals_fold.
    unfold keepsOptionals. auto 10. }
  destruct H as (Hw & Hh & Ht & Hd & Hb & Hp).
  set (r := applyPlan b plan dataFields) in *.
  apply builderState_ext; unfold mergeBuilderState, asPartial;
    cbn [mark encodings transforms width height title description background
         padding p_mark p_encodings p_transforms p_width p_height p_title
         p_description p_background p_padding]; try reflexivity.
  - destruct (width r); [reflexivity|]. now rewrite Hw.
  - destruct (height r); [reflexivity|]. now rewrite Hh.
  - destruct (title r); [reflexivity|]. now rewrite Ht.
  - destruct (description r); [reflexivity|]. now rewrite Hd.
  - destruct (background r); [reflexivity|]. now rewrite Hb.
  - destruct (padding r); [reflexivity|]. now rewrite Hp.
Qed.

Lemma capture_shape d now st :
  historyOk st ->
  history (captureSnapshot d now st)
  = lastN 50 (firstn (Z.to_nat (historyIndex st + 1)) (history st)
              ++ [snapshotOf d now st])
  /\ historyIndex (captureSnapshot d now st)
     = Z.of_nat (List.length (history (captureSnapshot d now st))) - 1.
Proof.
  intros [Hlen Hidx]. unfold captureSnapshot. cbn [history historyIndex].
  rewrite slice_0_le by lia.
  set (h2 := firstn _ _ ++ _).
  destruct (50 <? _) eqn:E.
  - change (-50) with (- Z.of_nat 50). rewrite sliceFrom_lastN by lia. auto.
  - apply Z.ltb_ge in E. rewrite lastN_short by lia. auto.
Qed.

Lemma lastN_snoc_last {A} (n : nat) (l : list A) (a : A) :
  (0 < n)%nat ->
  nth_error (lastN n (l ++ [a])) (List.length (lastN n (l ++ [a])) - 1)
  = Some a.
Proof.
  intros Hn. unfold lastN. rewrite length_skipn, length_app. cbn [List.length].
  rewrite nth_error_skipn.
  replace (List.length l + 1 - n + (List.length l + 1 - (List.length l + 1 - n) - 1))%nat
    with (List.length l) by lia.
  rewrite nth_error_app2 by lia. now rewrite Nat.sub_diag.
Qed.

Lemma capture_cursor_entry d now st :
  historyOk st ->
  historyAt (captureSnapshot d now st) (historyIndex (captureSnapshot d now st))
  = Some (snapshotOf d now st).
Proof.
  intros Hok. destruct (capture_shape d now st Hok) as [Hh Hi].
  pose proof (capture_ok d now st Hok) as [Hlen' Hidx'].
  unfold historyAt. rewrite Hi.
  assert (Hpos : (0 < List.length (history (captureSnapshot d now st)))%nat).
  { rewrite Hh. unfold lastN. rewrite length_skipn, length_app. cbn. lia. }
  destruct (_ <? 0) eqn:E; [apply Z.ltb_lt in E; lia|].
  replace (Z.to_nat (Z.of_nat (List.length (history (captureSnapshot d now st))) - 1))
    with (List.length (history (captureSnapshot d now st)) - 1)%nat by lia.
  rewrite Hh. apply lastN_snoc_last. lia.
Qed.

(** X18. handleApplyCommand in regex mode, on a store with a well-formed
    history: a command that is blank after trimming, or a custom spec with
    the warning declined, leaves the store unchanged; otherwise the stored
    model is exactly applyPlan of the model before with the plan of the
    command (no property of the model before is lost in the merge), the spec
    is its compilation, the history cursor is on a snapshot of the model and
    spec before the command, described 'AI: ' followed by the command, and
    redo does nothing. *)
Theorem regex_command_effect : forall command confirmed now st,
  historyOk st ->
  let st' := handleApplyCommand command confirmed now st in
  (Js.trim command = EmptyString
   \/ (isCustomSpec (vegaSpec st) = true /\ confirmed = false) -> st' = st)
  /\ (Js.trim command <> EmptyString ->
      isCustomSpec (vegaSpec st) = false \/ confirmed = true ->
      builderState st'
      = applyPlan (builderState st)
          (NlPlanner.parseNLToPlan command (map name (dataFields st))
             (builderState st))
          (dataFields st)
      /\ vegaSpec st' = buildSpec (builderState st') (dataFields st)
      /\ historyAt st' (historyIndex st')
         = Some (snapshotOf (Some ("AI: " ++ command)%string) now st)
      /\ redo st' = Some st').
Proof.
  intros command confirmed now st Hok st'. subst st'.
  unfold handleApplyCommand. split.
  - intros [->|[-> ->]]; [reflexivity|].
    destruct (negb _); reflexivity.
  - intros Hne Hc. destruct (Js.trim command) as [|c0 r0] eqn:T; [congruence|].
    cbn [Js.truthyStr negb].
    replace (isCustomSpec (vegaSpec st) && negb confirmed)%bool with false
      by (destruct Hc as [-> | ->]; [reflexivity|now rewrite andb_false_r]).
    set (d := Some ("AI: " ++ command)%string).
    set (plan := NlPlanner.parseNLToPlan _ _ _).
    assert (Hb : builderState
                   (setBuilderState
                      (asPartial (applyPlan (builderState st) plan (dataFields st)))
                      (captureSnapshot d now st))
                 = applyPlan (builderState st) plan (dataFields st)).
    { unfold setBuilderState. cbn [builderState captureSnapshot].
      apply merge_applied. }
    split; [exact Hb|]. split; [reflexivity|].
    pose proof (capture_cursor_entry d now st Hok) as Hcur.
    destruct (capture_shape d now st Hok) as [_ Hi].
    split; [exact Hcur|].
    unfold redo, setBuilderState. cbn [historyIndex history].
    rewrite Hi. destruct (_ <? _) eqn:E; [apply Z.ltb_lt in E; lia|reflexivity].
Qed.

(** 'change to line chart' on the store as created. *)
Lemma regex_command_effect_witness :
  mark_type (mark (builderState
                     (handleApplyCommand "change to line chart" false 1
                        (initialState salesFields)))) = line.
Proof.
  assert (Hok : historyOk (initialState salesFields))
    by (unfold historyOk; cbn; lia).
  pose proof (proj2 (regex_command_effect "change to line chart" false 1
                       (initialState salesFields) Hok)) as H.
  rewrite (proj1 (H ltac:(vm_compute; discriminate)
                    ltac:(left; vm_compute; reflexivity))).
  vm_compute. reflexivity.
Defined.

Lemma buildChannel_unpopulated e :
  populated e = false -> buildChannel e = None.
Proof.
  unfold populated, buildChannel. destruct e as [c|]; [|reflexivity].
  now intros ->.
Qed.

Lemma buildSpec_encodings_ext b e dataFields :
  buildChannel (x e) = buildChannel (x (encodings b)) ->
  buildChannel (y e) = buildChannel (y (encodings b)) ->
  buildChannel (color e) = buildChannel (color (encodings b)) ->
  buildChannel (size e) = buildChannel (size (encodings b)) ->
  tooltip e = tooltip (encodings b) ->
  buildSpec (withEncodings b e) dataFields = buildSpec b dataFields.
Proof.
  intros Hx Hy Hc Hs Ht. unfold buildSpec, withEncodings.
  cbn [encodings mark transforms width height title description background
       padding].
  now rewrite Hx, Hy, Hc, Hs, Ht.
Qed.

(** X19. A set_sort whose axis (x for target 'x', otherwise y) has no field
    in the model, and a set_aggregate on a channel that has no field, change
    what applyPlan returns in that channel's configuration only: set_sort
    replaces the channel by a configuration that has a sort and still no
    field (creating it when absent); set_aggregate does nothing to an absent
    channel and otherwise replaces it by a configuration that still has no
    field and whose aggregate is the string 'set_aggregate' (the code stores
    op.op, the operation's own name). In both cases the compiled spec is
    exactly what it was. *)
Theorem sort_and_aggregate_need_a_field : forall dataFields fields b,
  (forall target by_ order,
     populated (getChannel (encodings b) (sortChannel target)) = false ->
     let r := applyOperation dataFields b (set_sort target by_ order) in
     (exists config,
        r = withEncodings b
              (setChannel (encodings b) (sortChannel target) (Some config))
        /\ enc_sort config <> None
        /\ Js.truthyOptStr (enc_field config) = false)
     /\ buildSpec r fields = buildSpec b fields)
  /\ (forall channel,
        populated (getChannel (encodings b) channel) = false ->
        let r := applyOperation dataFields b (set_aggregate channel) in
        ((getChannel (encodings b) channel = None /\ r = b)
         \/ (exists config,
               r = withEncodings b
                     (setChannel (encodings b) channel (Some config))
               /\ enc_aggregate config = Some agg_set_aggregate
               /\ Js.truthyOptStr (enc_field config) = false))
        /\ buildSpec r fields = buildSpec b fields).
Proof.
  intros dataFields fields b. split.
  - intros target by_ order Hp r.
    assert (Hy : forall ch s,
               populated (getChannel (encodings b) ch) = false ->
               let c0 := match getChannel (encodings b) ch with
                         | Some c => c
                         | None => emptyEncoding
                         end in
               Js.truthyOptStr (enc_field (withSort c0 s)) = false
               /\ buildSpec (withEncodings b
                               (setChannel (encodings b) ch (Some (withSort c0 s))))
                            fields
                  = buildSpec b fields).
    { intros ch s Hch c0.
      assert (Hf : Js.truthyOptStr (enc_field (withSort c0 s)) = false).
      { subst c0. destruct (getChannel (encodings b) ch) as [c|]; cbn in *;
          [exact Hch|reflexivity]. }
      split; [exact Hf|].
      assert (Hb : buildChannel (Some (withSort c0 s)) = None).
      { apply buildChannel_unpopulated. exact Hf. }
      pose proof (buildChannel_unpopulated _ Hch) as Hb0.
      destruct ch; cbn [getChannel setChannel] in *;
        apply buildSpec_encodings_ext; cbn [x y color size tooltip];
        try reflexivity; now rewrite Hb, Hb0. }
    subst r. unfold sortChannel in *. cbn [applyOperation].
    destruct (String.eqb target "x") eqn:Ex.
    + destruct (Hy ch_x (if Js.truthyOptStr by_
                         then match by_ with
                              | Some b0 => SortBy b0 order
                              | None => SortOrd order
                              end
                         else SortOrd order) Hp) as [Hf Hs].
      split; [|exact Hs].
      eexists. split; [reflexivity|]. split; [discriminate|exact Hf].
    + destruct (String.eqb target "y") eqn:Ey.
      * destruct (Hy ch_y (if Js.truthyOptStr by_
                           then match by_ with
                                | Some b0 => SortBy b0 order
                                | None => SortOrd order
                                end
                           else SortOrd order) Hp) as [Hf Hs].
        split; [|exact Hs].
        eexists. split; [reflexivity|]. split; [discriminate|exact Hf].
      * destruct (Hy ch_y (SortBy target order) Hp) as [Hf Hs].
        split; [|exact Hs].
        eexists. split; [reflexivity|]. split; [discriminate|exact Hf].
  - intros channel Hp r. subst r. cbn [applyOperation].
    destruct (getChannel (encodings b) channel) as [c|] eqn:G.
    + cbn [populated] in Hp. split.
      * right. eexists. split; [reflexivity|]. split; [reflexivity|exact Hp].
      * destruct channel; cbn [getChannel setChannel] in *;
          apply buildSpec_encodings_ext; cbn [x y color size tooltip];
          try reflexivity; rewrite G; cbn; now rewrite Hp.
    + split; [left; auto|reflexivity].
Qed.

(** A sort on the default state, which has no y field. *)
Lemma sort_and_aggregate_need_a_field_witness :
  buildSpec (applyOperation salesFields getDefaultBuilderState
               (set_sort "y" (Some "Sales") descending)) salesFields
  = buildSpec getDefaultBuilderState salesFields.
Proof.
  apply (proj1 (sort_and_aggregate_need_a_field salesFields salesFields
                  getDefaultBuilderState)).
  reflexivity.
Defined.

Lemma apply_top_n dataFields b n byField order :
  applyOperation dataFields b (set_top_n n byField order)
  = if Js.truthyStr (topNField b byField)
    then withTransforms b
           (filter (fun t => negb (isTopN t)) (transforms b)
            ++ [TransformTopN n (topNField b byField)
                  (match order with Some o => o | None => descending end)])
    else withTransforms b (filter (fun t => negb (isTopN t)) (transforms b)).
Proof. reflexivity. Qed.

Lemma nullish_idem {A} (a b : option A) :
  Js.nullish a (Js.nullish a b) = Js.nullish a b.
Proof. now destruct a. Qed.

Lemma in_insertKey k a l :
  In k (JsObject.insertKey a l) <-> k = a \/ In k l.
Proof.
  induction l as [|b l IH]; cbn [JsObject.insertKey].
  - cbn. intuition.
  - destruct (_ <=? _); cbn [In]; [intuition|]. rewrite IH. intuition.
Qed.

Lemma in_keys {A} (o : JsObject.t A) k :
  In k (JsObject.keys o) -> In k (map fst o).
Proof.
  unfold JsObject.keys. rewrite in_app_iff. intros [H|H].
  - assert (G : forall l, In k (fold_right JsObject.insertKey [] l) -> In k l).
    { induction l as [|a l IH]; cbn [fold_right]; [auto|].
      rewrite in_insertKey. cbn [In]. intuition. }
    apply G in H. now apply filter_In in H as [H _].
  - now apply filter_In in H as [H _].
Qed.

Lemma get_of_key {A} (o : JsObject.t A) k :
  In k (map fst o) -> exists v, JsObject.get o k = Some v.
Proof.
  induction o as [|[k' v'] o IH]; cbn [map In JsObject.get fst]; [contradiction|].
  intros [->|H].
  - rewrite String.eqb_refl. eauto.
  - destruct (String.eqb k k'); eauto.
Qed.

(** X20. set_series_colors leaves the model unchanged when it has no color
    channel and there is no data field; in every other case the color
    channel exists afterwards and its scale has as domain the keys of the
    colour map in Object.keys order and as range the map's value at each of
    these keys, position by position. *)
Theorem series_colors_domain_and_range : forall dataFields b colors,
  let r := applyOperation dataFields b (set_series_colors colors) in
  (color (encodings b) = None -> dataFields = [] -> r = b)
  /\ (color (encodings b) <> None \/ dataFields <> [] ->
      exists c sc vs,
        color (encodings r) = Some c /\ enc_scale c = Some sc
        /\ domain sc = Some (map JStr (JsObject.keys colors))
        /\ range sc = Some vs
        /\ Forall2 (fun k v => JsObject.get colors k = Some v)
                   (JsObject.keys colors) vs).
Proof.
  intros dataFields b colors r. subst r. split.
  - intros Hc ->. cbn [applyOperation]. rewrite Hc. cbn.
    rewrite Hc. destruct b as [m [ex ey ec es et] ts w h t d bg p].
    cbn in *. now subst ec.
  - intros H.
    assert (Hr : Forall2 (fun k v => JsObject.get colors k = Some v)
                   (JsObject.keys colors)
                   (map (fun k => match JsObject.get colors k with
                                  | Some v => v
                                  | None => JNull
                                  end) (JsObject.keys colors))).
    { assert (G : forall l, (forall k, In k l -> In k (JsObject.keys colors)) ->
                  Forall2 (fun k v => JsObject.get colors k = Some v) l
                    (map (fun k => match JsObject.get colors k with
                                   | Some v => v
                                   | None => JNull
                                   end) l)).
      { induction l as [|k l IH]; intros Hl; cbn [map]; constructor.
        - destruct (get_of_key colors k) as [v Hv];
            [apply in_keys, Hl; now left|]. now rewrite Hv.
        - apply IH. intros k' Hk'. apply Hl. now right. }
      apply G. auto. }
    cbn [applyOperation].
    set (e1 := if populated (color (encodings b)) then encodings b else _).
    assert (He1 : exists c, color e1 = Some c).
    { subst e1. destruct (populated (color (encodings b))) eqn:P.
      - destruct (color (encodings b)); [eauto|discriminate].
      - destruct (Js.find isNominal dataFields); [cbn; eauto|].
        destruct dataFields as [|f fs]; [|cbn; eauto].
        destruct H as [H|H]; [|congruence].
        destruct (color (encodings b)); [eauto|congruence]. }
    destruct He1 as [c Hc]. rewrite Hc.
    eexists _, _, _. cbn [encodings withEncodings setChannel color withScale
                          enc_scale domain range].
    split; [reflexivity|]. split; [reflexivity|]. split; [reflexivity|].
    split; [reflexivity|]. exact Hr.
Qed.

(** One series colour on the default state. *)
Lemma series_colors_domain_and_range_witness :
  exists c sc vs,
    color (encodings (applyOperation salesFields getDefaultBuilderState
                        (set_series_colors [("West", JStr "#1f77b4")])))
    = Some c
    /\ enc_scale c = Some sc
    /\ domain sc = Some (map JStr (JsObject.keys [("West", JStr "#1f77b4")]))
    /\ range sc = Some vs
    /\ Forall2 (fun k v => JsObject.get [("West", JStr "#1f77b4")] k = Some v)
               (JsObject.keys [("West", JStr "#1f77b4")]) vs.
Proof.
  apply (proj2 (series_colors_domain_and_range salesFields getDefaultBuilderState
                  [("West", JStr "#1f77b4")])).
  right. discriminate.
Defined.

Lemma withScale_populated c sc :
  populated (Some (withScale c sc)) = populated (Some c).
Proof. reflexivity. Qed.

Lemma withScale_twice c sc sc' : withScale (withScale c sc) sc' = withScale c sc'.
Proof. reflexivity. Qed.

Lemma setChannel_twice e c v w : setChannel (setChannel e c v) c w = setChannel e c w.
Proof. now destruct c. Qed.

Lemma getChannel_set e c v : getChannel (setChannel e c v) c = v.
Proof. now destruct c. Qed.

Lemma withEncodings_twice b e e' :
  withEncodings (withEncodings b e) e' = withEncodings b e'.
Proof. reflexivity. Qed.

(** X21. Every operation of applyPlan other than add_filter is idempotent:
    applying it a second time to the state it produced changes nothing.
    add_filter is not: each application appends one more transform. *)
Theorem operations_idempotent_but_add_filter : forall dataFields b o,
  (isAddFilter o = false ->
   applyOperation dataFields (applyOperation dataFields b o) o
   = applyOperation dataFields b o)
  /\ (isAddFilter o = true ->
      List.length (transforms (applyOperation dataFields
                                 (applyOperation dataFields b o) o))
      = S (List.length (transforms (applyOperation dataFields b o)))).
Proof.
  intros dataFields b o. split.
  2:{ destruct o; try discriminate. intros _. cbn. rewrite !length_app. cbn. lia. }
  intros Hf. destruct o; try discriminate; clear Hf.
  - (* set_mark *)
    cbn [applyOperation]. unfold withMark. cbn.
    destruct options as [[pt st]|]; cbn; [|reflexivity].
    rewrite nullish_idem. destruct st; reflexivity.
  - (* set_encoding *)
    cbn [applyOperation]. cbn [encodings withEncodings].
    rewrite getChannel_set, setChannel_twice. unfold withEncodings. cbn.
    f_equal. f_equal. f_equal.
    destruct config as [cfg|]; [|reflexivity].
    unfold spreadEncoding. cbn. now rewrite !nullish_idem.
  - (* remove_encoding *)
    cbn [applyOperation]. cbn [encodings withEncodings].
    now rewrite setChannel_twice.
  - (* set_series_colors *)
    cbn [applyOperation].
    destruct (populated (color (encodings b))) eqn:P.
    + destruct (color (encodings b)) as [c|] eqn:C; [|discriminate].
      cbn [encodings withEncodings setChannel color].
      rewrite withScale_populated. cbn [populated] in *. rewrite P.
      cbn [color]. unfold withEncodings, withScale. cbn. reflexivity.
    + destruct (Js.find isNominal dataFields) as [n|] eqn:F.
      * cbn [setChannel color encodings withEncodings].
        rewrite withScale_populated.
        destruct (populated (Some (fieldEncoding (name n) (Some nominal))));
          cbn [setChannel color encodings withEncodings];
          unfold withEncodings, withScale; cbn; reflexivity.
      * destruct dataFields as [|f fs].
        -- destruct (color (encodings b)) as [c|] eqn:C.
           ++ cbn [setChannel color encodings withEncodings].
              rewrite withScale_populated. cbn [populated] in *. rewrite P.
              cbn [Js.find find color]. unfold withEncodings, withScale. cbn.
              reflexivity.
           ++ cbn [encodings withEncodings]. rewrite C. cbn [populated Js.find find].
              rewrite C. reflexivity.
        -- cbn [setChannel color encodings withEncodings].
           rewrite withScale_populated.
           destruct (populated (Some (fieldEncoding (name f) _)));
             cbn [setChannel color encodings withEncodings];
             unfold withEncodings, withScale; cbn; reflexivity.
  - (* set_color_scheme *)
    cbn [applyOperation].
    destruct (color (encodings b)) as [c|] eqn:C.
    + rewrite C. cbn [setChannel color encodings withEncodings].
      unfold withEncodings, withScale. cbn. reflexivity.
    + destruct (Js.find isNominal dataFields) as [n|] eqn:F.
      * cbn [setChannel color encodings withEncodings].
        unfold withEncodings, withScale. cbn. reflexivity.
      * rewrite C. cbn [encodings withEncodings]. rewrite !C. reflexivity.
  - (* set_top_n *)
    rewrite (apply_top_n dataFields b).
    destruct (Js.truthyStr (topNField b byField)) eqn:T;
      rewrite apply_top_n;
      change (topNField (withTransforms b _) byField) with (topNField b byField);
      rewrite T; unfold withTransforms; cbn; f_equal.
    + rewrite filter_app. cbn [filter isTopN negb]. rewrite app_nil_r.
      now rewrite filter_idem.
    + now rewrite filter_idem.
  - (* set_sort *)
    cbn [applyOperation].
    destruct (String.eqb channelOrField "x").
    + cbn [encodings withEncodings]. rewrite getChannel_set, setChannel_twice.
      reflexivity.
    + destruct (String.eqb channelOrField "y").
      * cbn [encodings withEncodings]. rewrite getChannel_set, setChannel_twice.
        reflexivity.
      * cbn [encodings withEncodings setChannel y]. reflexivity.
  - (* set_aggregate *)
    cbn [applyOperation].
    destruct (getChannel (encodings b) channel) as [c|] eqn:G.
    + cbn [encodings withEncodings]. rewrite getChannel_set, setChannel_twice.
      reflexivity.
    + now rewrite G.
  - (* set_title *) reflexivity.
  - (* set_size *)
    cbn [applyOperation]. cbn. now rewrite !nullish_idem.
  - (* unknown *) reflexivity.
Qed.

(** A top-N applied twice to the stacked bars. *)
Lemma operations_idempotent_but_add_filter_witness :
  applyOperation salesFields
    (applyOperation salesFields stackedBars (set_top_n 3 None None))
    (set_top_n 3 None None)
  = applyOperation salesFields stackedBars (set_top_n 3 None None).
Proof.
  apply (proj1 (operations_idempotent_but_add_filter salesFields stackedBars
                  (set_top_n 3 None None))).
  reflexivity.
Defined.

(** ** More on field inference *)

Lemma filter_permutation {A} (p : A -> bool) (l1 l2 : list A) :
  Permutation l1 l2 -> Permutation (filter p l1) (filter p l2).
Proof.
  induction 1 as [|a l1 l2 _ IH|a b l|l1 l2 l3 _ IH1 _ IH2]; cbn [filter].
  - constructor.
  - destruct (p a); [now constructor|exact IH].
  - destruct (p a), (p b); try reflexivity. constructor.
  - now transitivity (filter p l2).
Qed.

Lemma setSize_permutation (l1 l2 : list string) :
  Permutation l1 l2 -> FieldInference.setSize l1 = FieldInference.setSize l2.
Proof.
  intros H. unfold FieldInference.setSize. apply Permutation_length.
  apply NoDup_Permutation; try apply NoDup_nodup.
  intros s. rewrite !nodup_In. split; apply Permutation_in;
    [exact H|now symmetry].
Qed.

(** X22. inferFieldType depends only on the bag of non-null samples: two
    sample lists whose non-null values are permutations of each other get
    the same type, so null and undefined samples and the order of the rows
    do not matter. *)
Theorem inferFieldType_ignores_nulls_and_order :
  forall {V} `{FieldInference.JsValue V} (s1 s2 : list V),
    Permutation (filter FieldInference.isValid s1)
                (filter FieldInference.isValid s2) ->
    FieldInference.inferFieldType s1 = FieldInference.inferFieldType s2.
Proof.
  intros V HV s1 s2 HP. rewrite !inferFieldType_classify. unfold classify.
  change (fun v : V => negb (FieldInference.isNullish v))
    with (@FieldInference.isValid V HV).
  set (v1 := filter FieldInference.isValid s1) in *.
  set (v2 := filter FieldInference.isValid s2) in *.
  rewrite (Permutation_length HP).
  rewrite (Permutation_length
             (filter_permutation FieldInference.isFiniteNumber _ _ HP)).
  rewrite (Permutation_length
             (filter_permutation
                (fun v => (FieldInference.isDate v
                           || (FieldInference.dateParses (FieldInference.toString v)
                               && Regex.test FieldInference.dateRe
                                    (FieldInference.toString v)))%bool) _ _ HP)).
  rewrite (setSize_permutation _ _
             (Permutation_map FieldInference.toString HP)).
  reflexivity.
Qed.

(** A column with a null, and its values reordered. *)
Lemma inferFieldType_ignores_nulls_and_order_witness :
  FieldInference.inferFieldType columnWithNull
  = FieldInference.inferFieldType columnReordered.
Proof.
  apply (inferFieldType_ignores_nulls_and_order columnWithNull columnReordered).
  cbn. apply perm_swap.
Defined.

Lemma inferFields_same_samples {V} `{FieldInference.JsValue V}
  (first : JsObject.t V) (rest rest' : list (JsObject.t V)) :
  Js.slice (first :: rest) 0 100 = Js.slice (first :: rest') 0 100 ->
  FieldInference.inferFields (first :: rest)
  = FieldInference.inferFields (first :: rest').
Proof.
  intros Hs. unfold FieldInference.inferFields.
  apply map_ext. intros k. cbv beta zeta. do 3 f_equal. exact Hs.
Qed.

(** X23. inferFields samples the first hundred rows only: it returns the
    same fields for a list of rows and for its first hundred rows. *)
Theorem inferFields_first_hundred_rows :
  forall {V} `{FieldInference.JsValue V} (rows : list (JsObject.t V)),
    FieldInference.inferFields rows
    = FieldInference.inferFields (firstn 100 rows).
Proof.
  intros V HV rows.
  assert (Hs : Js.slice rows 0 100 = Js.slice (firstn 100 rows) 0 100).
  { change 100 with (Z.of_nat 100). rewrite !slice_0_firstn.
    rewrite firstn_firstn. reflexivity. }
  destruct rows as [|first rest]; [reflexivity|].
  rewrite firstn_cons in *. now apply inferFields_same_samples.
Qed.

(** ** The edit distance *)

Lemma lev_nil_l b : lev [] b = List.length b.
Proof. destruct b; reflexivity. Qed.

Lemma lev_nil_r a : lev a [] = List.length a.
Proof. destruct a; reflexivity. Qed.

Lemma lev_cons x a y b :
  lev (x :: a) (y :: b)
  = if Ascii.eqb y x then lev a b
    else Nat.min (lev a b + 1) (Nat.min (lev a (y :: b) + 1) (lev (x :: a) b + 1)).
Proof. reflexivity. Qed.

Lemma fillRow_lev bc rpb : forall a rpa,
  FieldInference.fillRow bc a (lev rpa rpb) (lev rpa (bc :: rpb))
    (map (fun s => lev s rpb) (prefixesAfter rpa a))
  = map (fun s => lev s (bc :: rpb)) (prefixesAfter rpa a).
Proof.
  induction a as [|ac a IH]; intros rpa; [reflexivity|].
  cbn [prefixesAfter map FieldInference.fillRow].
  rewrite (lev_cons ac rpa bc rpb). f_equal. apply IH.
Qed.

Lemma nextRow_lev bc a rpb :
  FieldInference.nextRow bc a (S (List.length rpb)) (rowOf a rpb)
  = rowOf a (bc :: rpb).
Proof.
  unfold FieldInference.nextRow, rowOf. rewrite !lev_nil_l. cbn [List.length].
  f_equal.
  pose proof (fillRow_lev bc rpb a []) as H. rewrite !lev_nil_l in H.
  exact H.
Qed.

Lemma rowsFrom_lev a : forall b rpb,
  FieldInference.rowsFrom a b (S (List.length rpb)) (rowOf a rpb)
  = rowOf a (rev (list_ascii_of_string b) ++ rpb).
Proof.
  induction b as [|bc b IH]; intros rpb; cbn [FieldInference.rowsFrom].
  - reflexivity.
  - rewrite nextRow_lev.
    change (S (S (List.length rpb))) with (S (List.length (bc :: rpb))).
    rewrite IH. cbn [list_ascii_of_string rev]. now rewrite <- app_assoc.
Qed.

Lemma prefixes_lengths : forall a rpa,
  map (fun s => lev s []) (prefixesAfter rpa a)
  = seq (S (List.length rpa)) (String.length a).
Proof.
  induction a as [|c a IH]; intros rpa; [reflexivity|].
  cbn [prefixesAfter map String.length seq]. rewrite lev_nil_r. cbn [List.length].
  f_equal. rewrite IH. reflexivity.
Qed.

Lemma rowOf_nil a : rowOf a [] = seq 0 (S (String.length a)).
Proof. unfold rowOf. now rewrite prefixes_lengths. Qed.

Lemma last_prefix (f : list ascii -> nat) : forall a rpa d,
  last (f rpa :: map f (prefixesAfter rpa a)) d
  = f (rev (list_ascii_of_string a) ++ rpa).
Proof.
  induction a as [|c a IH]; intros rpa d; [reflexivity|].
  cbn [prefixesAfter map list_ascii_of_string rev].
  rewrite <- app_assoc. cbn [app]. rewrite <- (IH (c :: rpa) d).
  reflexivity.
Qed.

Lemma levenshtein_lev a b :
  FieldInference.levenshteinDistance a b
  = lev (rev (list_ascii_of_string a)) (rev (list_ascii_of_string b)).
Proof.
  unfold FieldInference.levenshteinDistance.
  rewrite <- rowOf_nil.
  change 1%nat with (S (@List.length ascii [])).
  rewrite rowsFrom_lev. rewrite app_nil_r. unfold rowOf.
  rewrite (last_prefix (fun s => lev s (rev (list_ascii_of_string b)))).
  now rewrite app_nil_r.
Qed.

Lemma lev_refl a : lev a a = 0%nat.
Proof.
  induction a as [|x a IH]; [reflexivity|].
  rewrite lev_cons, Ascii.eqb_refl. exact IH.
Qed.

Lemma lev_zero : forall a b, lev a b = 0%nat -> a = b.
Proof.
  induction a as [|x a IH]; intros b H.
  - rewrite lev_nil_l in H. now destruct b.
  - destruct b as [|y b]; [discriminate|].
    rewrite lev_cons in H. destruct (Ascii.eqb y x) eqn:E.
    + apply Ascii.eqb_eq in E. subst y. f_equal. now apply IH.
    + lia.
Qed.

Lemma lev_bounds : forall a b,
  (List.length a - List.length b <= lev a b
   /\ List.length b - List.length a <= lev a b
   /\ lev a b <= Nat.max (List.length a) (List.length b))%nat.
Proof.
  induction a as [|x a IHa]; intros b.
  - rewrite lev_nil_l. cbn [List.length]. lia.
  - induction b as [|y b IHb].
    + rewrite lev_nil_r. cbn [List.length]. lia.
    + rewrite lev_cons. cbn [List.length].
      pose proof (IHa b) as H1. pose proof (IHa (y :: b)) as H2.
      cbn [List.length] in *.
      destruct (Ascii.eqb y x); lia.
Qed.

Lemma lev_sym : forall a b, lev a b = lev b a.
Proof.
  induction a as [|x a IHa]; intros b.
  - now rewrite lev_nil_l, lev_nil_r.
  - induction b as [|y b IHb].
    + now rewrite lev_nil_l, lev_nil_r.
    + rewrite !lev_cons. rewrite (Ascii.eqb_sym y x).
      rewrite (IHa b), (IHa (y :: b)), IHb.
      destruct (Ascii.eqb x y); lia.
Qed.

Lemma length_chars s : List.length (rev (list_ascii_of_string s)) = String.length s.
Proof.
  rewrite length_rev. induction s as [|c s IH]; [reflexivity|].
  cbn. now rewrite IH.
Qed.

Lemma chars_inj a b :
  rev (list_ascii_of_string a) = rev (list_ascii_of_string b) -> a = b.
Proof.
  intros H. apply (f_equal (@rev ascii)) in H. rewrite !rev_involutive in H.
  rewrite <- (string_of_list_ascii_of_string a),
          <- (string_of_list_ascii_of_string b).
  now rewrite H.
Qed.

(** X24. The matrix computation of levenshteinDistance is zero exactly on
    equal strings, is symmetric, is at least the difference of the two
    lengths and at most the larger of them, and is the length of the first
    string when the second is empty. *)
Theorem levenshteinDistance_properties : forall a b,
  let d := FieldInference.levenshteinDistance in
  (d a b = 0%nat <-> a = b)
  /\ d a b = d b a
  /\ (String.length a - String.length b <= d a b)%nat
  /\ (d a b <= Nat.max (String.length a) (String.length b))%nat
  /\ d a EmptyString = String.length a.
Proof.
  intros a b d. subst d. rewrite !levenshtein_lev.
  pose proof (lev_bounds (rev (list_ascii_of_string a))
                         (rev (list_ascii_of_string b))) as (H1 & H2 & H3).
  rewrite !length_chars in *.
  split; [|split; [|split; [|split]]].
  - split.
    + intros H. apply chars_inj. now apply lev_zero.
    + intros ->. apply lev_refl.
  - apply lev_sym.
  - exact H1.
  - exact H3.
  - cbn [list_ascii_of_string rev]. rewrite lev_nil_r. apply length_chars.
Qed.

(** ** The fuzzy resolver *)

Lemma toLowerCase_length s : String.length (Js.toLowerCase s) = String.length s.
Proof. induction s as [|c s IH]; [reflexivity|]. cbn. now rewrite IH. Qed.

Lemma in_insertByDistance m a l :
  In m (FieldInference.insertByDistance a l) <-> m = a \/ In m l.
Proof.
  induction l as [|h l IH]; cbn [FieldInference.insertByDistance].
  - cbn. intuition.
  - destruct (Nat.leb _ _); cbn [In]; [intuition|]. rewrite IH. intuition.
Qed.

Lemma in_sortByDistance m l :
  In m (FieldInference.sortByDistance l) <-> In m l.
Proof.
  unfold FieldInference.sortByDistance.
  induction l as [|a l IH]; cbn [fold_right]; [reflexivity|].
  rewrite in_insertByDistance, IH. cbn [In]. intuition.
Qed.

Lemma head_insertByDistance a l h rest :
  (forall h' rest', l = h' :: rest' -> forall m, In m l -> (snd h' <= snd m)%nat) ->
  FieldInference.insertByDistance a l = h :: rest ->
  forall m, In m (h :: rest) -> (snd h <= snd m)%nat.
Proof.
  intros Hl E m Hm. rewrite <- E in Hm. apply in_insertByDistance in Hm.
  destruct l as [|h' rest']; cbn [FieldInference.insertByDistance] in E.
  - inversion E; subst. destruct Hm as [->|[]]. lia.
  - specialize (Hl h' rest' eq_refl).
    destruct (Nat.leb (snd a) (snd h')) eqn:L.
    + apply Nat.leb_le in L. inversion E; subst h rest.
      destruct Hm as [->|Hm]; [lia|]. specialize (Hl m Hm). lia.
    + apply Nat.leb_gt in L. inversion E; subst h rest.
      destruct Hm as [->|Hm]; [lia|]. now apply Hl.
Qed.

Lemma head_sortByDistance l : forall h rest,
  FieldInference.sortByDistance l = h :: rest ->
  forall m, In m l -> (snd h <= snd m)%nat.
Proof.
  induction l as [|a l IH]; intros h rest E m Hm; [contradiction|].
  unfold FieldInference.sortByDistance in E. cbn [fold_right] in E.
  fold (FieldInference.sortByDistance l) in E.
  apply (head_insertByDistance a (FieldInference.sortByDistance l) h rest).
  - intros h' rest' E' m' Hm'. apply (IH h' rest' E').
    now apply in_sortByDistance.
  - exact E.
  - rewrite <- E. apply in_insertByDistance.
    destruct Hm as [->|Hm]; [now left|right]. now apply in_sortByDistance.
Qed.

Lemma find_none_iff {A} (p : A -> bool) (l : list A) :
  find p l = None <-> forall a, In a l -> p a = false.
Proof.
  split; [apply find_none|].
  induction l as [|a l IH]; intros H; [reflexivity|].
  cbn. rewrite (H a (or_introl eq_refl)). apply IH. intros; apply H. now right.
Qed.

(** X25. The resolveField of the field inference returns a member of the
    fields that either is named exactly as the candidate, or whose
    lowercased name contains the lowercased and trimmed candidate, or whose
    lowercased name is within edit distance 3 of it and nearest among all
    fields (its length then differs from the candidate's by at most 3); it
    returns undefined exactly when every field fails all three tests. *)
Theorem inference_resolveField_characterised : forall candidate fields,
  let lower := Js.trim (Js.toLowerCase candidate) in
  let dist f :=
    FieldInference.levenshteinDistance lower (Js.toLowerCase (name f)) in
  (forall f, FieldInference.resolveField candidate fields = Some f ->
     In f fields
     /\ (name f = candidate
         \/ Js.includes (Js.toLowerCase (name f)) lower = true
         \/ ((dist f <= 3)%nat
             /\ (forall g, In g fields -> (dist f <= dist g)%nat)
             /\ (String.length lower - 3 <= String.length (name f)
                 <= String.length lower + 3)%nat)))
  /\ (FieldInference.resolveField candidate fields = None <->
      forall g, In g fields ->
        name g <> candidate
        /\ Js.includes (Js.toLowerCase (name g)) lower = false
        /\ (3 < dist g)%nat).
Proof.
  intros candidate fields lower dist.
  unfold FieldInference.resolveField, Js.find. fold lower.
  set (scored := map (fun f => (f, FieldInference.levenshteinDistance lower
                                     (Js.toLowerCase (name f)))) fields).
  assert (Hscored : forall m, In m scored <-> In (fst m) fields /\ snd m = dist (fst m)).
  { intros [f d]. subst scored. rewrite in_map_iff. cbn [fst snd]. split.
    - intros [g [E Hg]]. inversion E; subst. auto.
    - intros [Hf ->]. exists f. auto. }
  destruct (find (fun f => String.eqb (name f) candidate) fields) as [m|] eqn:F1.
  { split.
    - intros f E. inversion E; subst m. apply find_some in F1 as [Hin Hn].
      apply String.eqb_eq in Hn. auto.
    - split; [discriminate|]. intros H. apply find_some in F1 as [Hin Hn].
      apply String.eqb_eq in Hn. now destruct (H m Hin). }
  destruct (find (fun f => String.eqb (Js.toLowerCase (name f)) lower) fields)
    as [m|] eqn:F2.
  { assert (Hm : In m fields /\ Js.includes (Js.toLowerCase (name m)) lower = true).
    { apply find_some in F2 as [Hin Hn]. apply String.eqb_eq in Hn.
      split; [exact Hin|]. rewrite Hn. apply includes_refl. }
    split.
    - intros f E. inversion E; subst m. destruct Hm. auto.
    - split; [discriminate|]. intros H. destruct Hm as [Hin Hi].
      destruct (H m Hin) as (_ & Hf & _). congruence. }
  destruct (find (fun f => Js.includes (Js.toLowerCase (name f)) lower) fields)
    as [m|] eqn:F3.
  { apply find_some in F3 as [Hin Hi]. split.
    - intros f E. inversion E; subst m. auto.
    - split; [discriminate|]. intros H.
      destruct (H m Hin) as (_ & Hf & _). congruence. }
  rewrite find_none_iff in F1, F3.
  destruct (FieldInference.sortByDistance _) as [|m rest] eqn:S.
  - split; [discriminate|]. split; [|reflexivity]. intros _ g Hg.
    split; [|split].
    + specialize (F1 g Hg). cbn in F1. now apply String.eqb_neq in F1.
    + now apply F3.
    + destruct (Nat.leb (dist g) 3) eqn:L; [|now apply Nat.leb_gt in L].
      assert (Hin : In (g, dist g)
                      (FieldInference.sortByDistance
                         (filter (fun m => Nat.leb (snd m) 3) scored))).
      { apply in_sortByDistance, filter_In. split; [|exact L].
        apply Hscored. auto. }
      rewrite S in Hin. contradiction.
  - assert (Hm : In m (filter (fun m => Nat.leb (snd m) 3) scored)).
    { apply in_sortByDistance. rewrite S. now left. }
    apply filter_In in Hm as [Hm L]. apply Nat.leb_le in L.
    apply Hscored in Hm as [Hin Hd].
    split.
    + intros f E. inversion E; subst f. split; [exact Hin|].
      right. right. rewrite <- Hd. split; [exact L|]. split.
      * intros g Hg. destruct (Nat.leb (dist g) 3) eqn:Lg.
        -- apply (head_sortByDistance _ m rest S (g, dist g)).
           apply filter_In. split; [|exact Lg]. apply Hscored. auto.
        -- apply Nat.leb_gt in Lg. cbn [snd]. lia.
      * pose proof (lev_bounds (rev (list_ascii_of_string lower))
                      (rev (list_ascii_of_string (Js.toLowerCase (name (fst m))))))
          as (B1 & B2 & _).
        rewrite <- levenshtein_lev in B1, B2. rewrite !length_chars in B1, B2.
        rewrite toLowerCase_length in B1, B2.
        unfold dist in Hd. rewrite <- Hd in B1, B2. lia.
    + split; [discriminate|]. intros H. destruct (H (fst m) Hin) as (_ & _ & Hgt).
      rewrite <- Hd in Hgt. lia.
Qed.

(** 'Salez' resolves to a member of the fields. *)
Lemma inference_resolveField_characterised_witness :
  let sales := {| name := "Sales"; inferredType := quantitative |} in
  let dist f :=
    FieldInference.levenshteinDistance "salez" (Js.toLowerCase (name f)) in
  FieldInference.resolveField "Salez" salesFields = Some sales
  /\ In sales salesFields
  /\ (name sales = "Salez"
      \/ Js.includes (Js.toLowerCase (name sales)) "salez" = true
      \/ ((dist sales <= 3)%nat
          /\ (forall g, In g salesFields -> (dist sales <= dist g)%nat)
          /\ (String.length "salez" - 3 <= String.length (name sales)
              <= String.length "salez" + 3)%nat)).
Proof.
  split; [vm_compute; reflexivity|].
  apply (proj1 (inference_resolveField_characterised "Salez" salesFields)
           {| name := "Sales"; inferredType := quantitative |}).
  vm_compute. reflexivity.
Defined.

(** ** Field statistics *)

Lemma countOf_countKey counts key k :
  countOf (countKey counts key) k
  = (countOf counts k + if String.eqb k key then 1 else 0)%nat.
Proof.
  unfold countOf.
  induction counts as [|[k' c'] rest IH]; cbn [countKey JsObject.get].
  - destruct (String.eqb k key); reflexivity.
  - destruct (String.eqb key k') eqn:E.
    + apply String.eqb_eq in E. subst k'. cbn [JsObject.get].
      destruct (String.eqb k key); lia.
    + cbn [JsObject.get]. destruct (String.eqb k k') eqn:E'.
      * apply String.eqb_eq in E'. subst k'.
        rewrite String.eqb_sym in E. rewrite E. lia.
      * exact IH.
Qed.

Lemma keys_countKey counts key :
  map fst (countKey counts key)
  = if existsb (String.eqb key) (map fst counts) then map fst counts
    else map fst counts ++ [key].
Proof.
  induction counts as [|[k' c'] rest IH]; cbn [countKey map fst existsb app];
    [reflexivity|].
  destruct (String.eqb key k') eqn:E; cbn [map fst orb]; [reflexivity|].
  rewrite IH. now destruct (existsb _ _).
Qed.

Lemma existsb_eqb_In key l :
  existsb (String.eqb key) l = true <-> In key l.
Proof.
  rewrite existsb_exists. split.
  - intros [x [Hx E]]. apply String.eqb_eq in E. now subst x.
  - intros Hin. exists key. split; [exact Hin|apply String.eqb_refl].
Qed.

Lemma countKey_NoDup counts key :
  NoDup (map fst counts) -> NoDup (map fst (countKey counts key)).
Proof.
  intros Hn. rewrite keys_countKey.
  destruct (existsb (String.eqb key) (map fst counts)) eqn:E; [exact Hn|].
  apply NoDup_app; [exact Hn|constructor; [auto|constructor]|].
  intros a Ha [<-|[]]. apply existsb_eqb_In in Ha. congruence.
Qed.

Lemma in_keys_countKey counts key k :
  In k (map fst (countKey counts key)) <-> In k (map fst counts) \/ k = key.
Proof.
  rewrite keys_countKey.
  destruct (existsb (String.eqb key) (map fst counts)) eqn:E.
  - apply existsb_eqb_In in E. split; [auto|]. intros [?| ->]; assumption.
  - rewrite in_app_iff. cbn [In]. intuition.
Qed.

Lemma counts_fold (keys : list string) : forall counts,
  NoDup (map fst counts) ->
  NoDup (map fst (fold_left countKey keys counts))
  /\ (forall k, In k (map fst (fold_left countKey keys counts))
                <-> In k (map fst counts) \/ In k keys)
  /\ (forall k, countOf (fold_left countKey keys counts) k
                = (countOf counts k + count_occ string_dec keys k)%nat).
Proof.
  induction keys as [|key keys IH]; intros counts Hn; cbn [fold_left].
  - split; [exact Hn|]. split; intros k; cbn; [intuition|lia].
  - destruct (IH (countKey counts key) (countKey_NoDup counts key Hn))
      as (H1 & H2 & H3).
    split; [exact H1|]. split; intros k.
    + rewrite H2, in_keys_countKey. cbn [In]. intuition.
    + rewrite H3, countOf_countKey. cbn [count_occ].
      destruct (string_dec key k) as [->|Hne].
      * rewrite String.eqb_refl. lia.
      * replace (String.eqb k key) with false; [lia|].
        symmetry. apply String.eqb_neq. congruence.
Qed.

Lemma get_of_NoDup {A} (o : list (string * A)) k v :
  NoDup (map fst o) -> In (k, v) o -> JsObject.get o k = Some v.
Proof.
  induction o as [|[k' v'] o IH]; cbn [map fst In JsObject.get]; [contradiction|].
  intros Hn [E|Hin].
  - inversion E; subst. now rewrite String.eqb_refl.
  - inversion Hn as [|? ? Hnot Hn']; subst.
    destruct (String.eqb k k') eqn:E.
    + apply String.eqb_eq in E. subst k'. exfalso. apply Hnot.
      apply in_map_iff. exists (k, v). auto.
    + now apply IH.
Qed.

Lemma insertByCount_perm m l : Permutation (insertByCount m l) (m :: l).
Proof.
  induction l as [|m' l IH]; cbn [insertByCount]; [reflexivity|].
  destruct (Nat.leb _ _); [reflexivity|].
  rewrite IH. apply perm_swap.
Qed.

Lemma sortByCount_perm l : Permutation (sortByCount l) l.
Proof.
  unfold sortByCount. induction l as [|m l IH]; cbn [fold_right]; [reflexivity|].
  rewrite insertByCount_perm. now constructor.
Qed.

Lemma insertByCount_sorted m l :
  StronglySorted (fun a b => (snd b <= snd a)%nat) l ->
  StronglySorted (fun a b => (snd b <= snd a)%nat) (insertByCount m l).
Proof.
  induction 1 as [|m' l Hs IH Hall]; cbn [insertByCount].
  - constructor; constructor.
  - destruct (Nat.leb (snd m') (snd m)) eqn:L.
    + apply Nat.leb_le in L. constructor; [now constructor|].
      constructor; [exact L|].
      eapply Forall_impl; [|exact Hall]. cbn. intros a Ha. lia.
    + apply Nat.leb_gt in L. constructor; [exact IH|].
      rewrite insertByCount_perm. constructor; [lia|exact Hall].
Qed.

Lemma sortByCount_sorted l :
  StronglySorted (fun a b => (snd b <= snd a)%nat) (sortByCount l).
Proof.
  unfold sortByCount. induction l as [|m l IH]; cbn [fold_right];
    [constructor|]. now apply insertByCount_sorted.
Qed.

Lemma firstn_sorted {A} (R : A -> A -> Prop) n : forall l,
  StronglySorted R l -> StronglySorted R (firstn n l).
Proof.
  induction n as [|n IH]; intros l Hs; [constructor|].
  destruct l as [|a l]; [constructor|]. cbn [firstn].
  apply StronglySorted_inv in Hs as [Hs Hall]. constructor; [now apply IH|].
  rewrite <- (firstn_skipn n l) in Hall. now apply Forall_app in Hall.
Qed.

Lemma firstn_incl {A} n (l : list A) a : In a (firstn n l) -> In a l.
Proof.
  intros Hin. rewrite <- (firstn_skipn n l). apply in_or_app. now left.
Qed.

Lemma firstn_NoDup {A} n (l : list A) : NoDup l -> NoDup (firstn n l).
Proof.
  intros Hn. rewrite <- (firstn_skipn n l) in Hn.
  now apply NoDup_app_remove_r in Hn.
Qed.

Lemma fold_left_map {A B C} (f : A -> B -> A) (g : C -> B) (l : list C) :
  forall a, fold_left (fun acc c => f acc (g c)) l a = fold_left f (map g l) a.
Proof. induction l as [|c l IH]; intros a; cbn; auto. Qed.

Lemma fold_min (l : list Q) : forall a,
  (fold_left Qmin l a <= a)%Q
  /\ Forall (fun x => (fold_left Qmin l a <= x)%Q) l
  /\ ((fold_left Qmin l a == a)%Q
      \/ Exists (fun x => (fold_left Qmin l a == x)%Q) l).
Proof.
  induction l as [|x l IH]; intros a; cbn [fold_left].
  - split; [apply Qle_refl|]. split; [constructor|]. left. reflexivity.
  - destruct (IH (Qmin a x)) as (H1 & H2 & H3).
    split; [eapply Qle_trans; [exact H1|apply Q.le_min_l]|].
    split.
    + constructor; [eapply Qle_trans; [exact H1|apply Q.le_min_r]|exact H2].
    + destruct H3 as [H3|H3].
      * destruct (Q.min_dec a x) as [E|E];
          [left|right; constructor]; eapply Qeq_trans; eauto.
      * right. now constructor 2.
Qed.

Lemma fold_max (l : list Q) : forall a,
  (a <= fold_left Qmax l a)%Q
  /\ Forall (fun x => (x <= fold_left Qmax l a)%Q) l
  /\ ((fold_left Qmax l a == a)%Q
      \/ Exists (fun x => (fold_left Qmax l a == x)%Q) l).
Proof.
  induction l as [|x l IH]; intros a; cbn [fold_left].
  - split; [apply Qle_refl|]. split; [constructor|]. left. reflexivity.
  - destruct (IH (Qmax a x)) as (H1 & H2 & H3).
    split; [eapply Qle_trans; [apply Q.le_max_l|exact H1]|].
    split.
    + constructor; [eapply Qle_trans; [apply Q.le_max_r|exact H1]|exact H2].
    + destruct H3 as [H3|H3].
      * destruct (Q.max_dec a x) as [E|E];
          [left|right; constructor]; eapply Qeq_trans; eauto.
      * right. now constructor 2.
Qed.

(** X26. calculateFieldStats: nulls plus the non-null values is the number
    of values; unique is at most the number of non-null values; min and max
    are absent unless the type is quantitative and some value is a finite
    number, and then they bound every finite number of the column and are
    each attained by one; topValues is absent for quantitative and temporal
    and otherwise lists min(10, unique) entries with distinct values, in
    descending order of count, each with the number of times its string
    occurs among the non-null values (at least once). *)
Theorem calculateFieldStats_properties :
  forall {V} `{FieldInference.JsValue V} (numberOf : V -> Q)
         (values : list V) (type : FieldType),
    let stats := calculateFieldStats numberOf values type in
    let valid := filter FieldInference.isValid values in
    let nums := map numberOf (filter FieldInference.isFiniteNumber valid) in
    let strings := map FieldInference.toString valid in
    (stat_nulls stats + List.length valid = List.length values)%nat
    /\ (stat_unique stats <= List.length valid)%nat
    /\ ((type <> quantitative \/ nums = []) ->
        stat_min stats = None /\ stat_max stats = None)
    /\ (type = quantitative -> nums <> [] ->
        exists lo hi,
          stat_min stats = Some lo /\ stat_max stats = Some hi
          /\ Forall (fun x => (lo <= x <= hi)%Q) nums
          /\ Exists (fun x => (lo == x)%Q) nums
          /\ Exists (fun x => (hi == x)%Q) nums)
    /\ ((type = quantitative \/ type = temporal) -> stat_topValues stats = None)
    /\ ((type = nominal \/ type = ordinal) ->
        exists top,
          stat_topValues stats = Some top
          /\ List.length top = Nat.min 10 (stat_unique stats)
          /\ NoDup (map fst top)
          /\ StronglySorted (fun a b => (snd b <= snd a)%nat) top
          /\ (forall k c, In (k, c) top ->
                c = count_occ string_dec strings k /\ (1 <= c)%nat)).
Proof.
  intros V HV numberOf values type stats valid nums strings.
  subst stats. unfold calculateFieldStats. fold valid. fold nums.
  cbn [stat_nulls stat_unique stat_min stat_max stat_topValues].
  split; [|split; [|split; [|split; [|split]]]].
  - pose proof (filter_length_le FieldInference.isValid values). fold valid in H.
    lia.
  - unfold FieldInference.setSize.
    rewrite <- (length_map FieldInference.toString valid).
    apply NoDup_incl_length; [apply NoDup_nodup|].
    intros s Hs. now apply nodup_In in Hs.
  - intros [Ht| ->].
    + destruct type; try congruence; auto.
    + destruct type; auto.
  - intros -> Hne. destruct nums as [|n ns]; [congruence|].
    destruct (fold_min ns n) as (A1 & A2 & A3).
    destruct (fold_max ns n) as (B1 & B2 & B3).
    exists (fold_left Qmin ns n), (fold_left Qmax ns n).
    split; [reflexivity|]. split; [reflexivity|]. split; [|split].
    + constructor; [split; assumption|].
      rewrite Forall_forall in *. intros x Hx. split; auto.
    + destruct A3 as [E|E]; [now constructor|now constructor 2].
    + destruct B3 as [E|E]; [now constructor|now constructor 2].
  - intros [-> | ->]; reflexivity.
  - intros Ht.
    set (counts := fold_left (fun counts v =>
                                countKey counts (FieldInference.toString v))
                             valid []).
    assert (Hc : counts = fold_left countKey strings []).
    { subst counts strings. apply fold_left_map. }
    destruct (counts_fold strings [] (NoDup_nil _)) as (C1 & C2 & C3).
    rewrite <- Hc in C1, C2, C3.
    exists (Js.slice (sortByCount counts) 0 10).
    split; [destruct Ht as [-> | ->]; reflexivity|].
    change 10 with (Z.of_nat 10). rewrite slice_0_firstn.
    pose proof (sortByCount_perm counts) as Hp.
    assert (Hn : NoDup (map fst (sortByCount counts))).
    { eapply Permutation_NoDup; [|exact C1].
      apply Permutation_map. now symmetry. }
    split; [|split; [|split]].
    + rewrite length_firstn, (Permutation_length Hp). f_equal.
      unfold FieldInference.setSize. fold strings.
      rewrite <- (length_map fst counts). apply Permutation_length.
      apply NoDup_Permutation; [exact C1|apply NoDup_nodup|].
      intros k. rewrite C2, nodup_In. cbn [map In]. intuition.
    + rewrite <- firstn_map. now apply firstn_NoDup.
    + apply firstn_sorted, sortByCount_sorted.
    + intros k c Hin. apply firstn_incl in Hin.
      apply (Permutation_in _ Hp) in Hin.
      pose proof (get_of_NoDup counts k c C1 Hin) as G.
      pose proof (C3 k) as Hk. unfold countOf in Hk. rewrite G in Hk.
      cbn [JsObject.get] in Hk. split; [exact Hk|].
      assert (Hkey : In k strings).
      { pose proof (in_map fst _ _ Hin) as Hf. cbn [fst] in Hf.
        apply (proj1 (C2 k)) in Hf as [[]|Hs]. exact Hs. }
      apply (count_occ_In string_dec) in Hkey. lia.
Qed.

(** The top values of a categorical column with a null cell. *)
Lemma calculateFieldStats_properties_witness :
  exists top,
    stat_topValues (calculateFieldStats cellNumber regionColumn nominal)
    = Some top
    /\ List.length top
       = Nat.min 10 (stat_unique
                       (calculateFieldStats cellNumber regionColumn nominal))
    /\ NoDup (map fst top)
    /\ StronglySorted (fun a b => (snd b <= snd a)%nat) top
    /\ (forall k c, In (k, c) top ->
          c = count_occ string_dec
                (map FieldInference.toString
                   (filter FieldInference.isValid regionColumn)) k
          /\ (1 <= c)%nat).
Proof.
  apply (proj2 (proj2 (proj2 (proj2 (proj2
           (calculateFieldStats_properties cellNumber regionColumn nominal)))))).
  left. reflexivity.
Defined.

Example stats_of_a_categorical_column :
  calculateFieldStats
    (fun c => match c with CellNumber n => inject_Z n | _ => 0%Q end)
    [CellString "West"; CellString "East"; CellNull; CellString "East"]
    nominal
  = {| stat_nulls := 1; stat_unique := 2; stat_min := None; stat_max := None;
       stat_topValues := Some [("East", 2%nat); ("West", 1%nat)] |}.
Proof. vm_compute. reflexivity. Qed.

Example stats_of_a_numeric_column :
  calculateFieldStats
    (fun c => match c with CellNumber n => inject_Z n | _ => 0%Q end)
    [CellNumber 120; CellNumber 90; CellNaN; CellNumber 150]
    quantitative
  = {| stat_nulls := 0; stat_unique := 4;
       stat_min := Some (inject_Z 90); stat_max := Some (inject_Z 150);
       stat_topValues := None |}.
Proof. vm_compute. reflexivity. Qed.

(** ** A manual spec edit followed by a panel edit *)



(** A save of [{"mark": "bar", "title": {}}] over the titled scatter plot:
    the title object has no text, so the decompiler assigns [undefined] to
    [title], the merge stores it, and the next compilation has no title. *)
Example spec_edit_erases_title :
  let st := setBuilderState (asPartial scatterPlot) (initialState salesFields) in
  let st2 := handleMarkChange line 1
               (setSpec emptyTitleSpec
                  (Some (parseSpecToBuilderState emptyTitleSpec)) st) in
  s_title (vegaSpec st) = Some (TitleString "Sales")
  /\ title (builderState st2) = None
  /\ s_title (vegaSpec st2) = None.
Proof. repeat split. Qed.
